(** * Hair & Looks integration: buffer store, aggregator, Klaviyo client, daily sync

    A shallow embedding of [src/database.py], [src/processor.py],
    [src/klaviyo_client.py] and [src/scheduler.py].

    Conventions of the embedding.
    - A Python [str] is a [string] whose characters are read as the code
      points 0..255; [str.lower] and [str.strip] are written out for that
      range.
    - A [datetime] is a number of seconds ([Z]), naive as the ones SQLite's
      [datetime('now')] produces; a [date] is a day number.
    - A [float] that the code only stores and forwards is a [Q].
    - Code that can raise returns a [result]; code that reads or writes the
      SQLite file or talks to Klaviyo threads a [World] explicitly.
    - What the code takes from its environment is a parameter: the Klaviyo
      server, the clock, and the number of [?] parameters the SQLite library
      accepts in one statement. *)

From Stdlib Require Import List String Ascii ZArith NArith QArith Bool Lia.
From Stdlib Require Import Sorting.Sorted.
Import ListNotations.

Local Open Scope string_scope.
Local Open Scope list_scope.
Local Open Scope Z_scope.

(** ** Exceptions and results *)

(** The subclasses of Python's [Exception] that the embedded code can meet. *)
Inductive exn : Type :=
| TypeError
| ValueError
| AttributeError
| HTTPStatusError (status_code : Z)
| RequestError
| OperationalError   (** [sqlite3.OperationalError] *)
| OtherException.

Inductive result (A : Type) : Type :=
| Ok (a : A)
| Raise (e : exn).

Arguments Ok {A} a.
Arguments Raise {A} e.

Definition bind_result {A B : Type} (r : result A) (k : A -> result B) : result B :=
  match r with
  | Ok a => k a
  | Raise e => Raise e
  end.

(** A [for] loop that appends one computed element per item and stops at
    the first exception. *)
Fixpoint for_each_result {A B : Type} (f : A -> result B) (l : list A) : result (list B) :=
  match l with
  | [] => Ok []
  | x :: xs =>
      match f x with
      | Raise e => Raise e
      | Ok y =>
          match for_each_result f xs with
          | Raise e => Raise e
          | Ok ys => Ok (y :: ys)
          end
      end
  end.

(** ** Python strings *)

Module PyStr.

(** [str.isspace] on the code points below 256. *)
Definition is_space (c : ascii) : bool :=
  let n := N_of_ascii c in
  ((9 <=? n) && (n <=? 13))%N || ((28 <=? n) && (n <=? 32))%N
  || (n =? 133)%N || (n =? 160)%N.

(** [str.lower] on one code point below 256: A-Z and the Latin-1 capitals
    (all of 192..222 but the multiplication sign 215) move up by 32. *)
Definition lower_char (c : ascii) : ascii :=
  let n := N_of_ascii c in
  if (((65 <=? n) && (n <=? 90)) || ((192 <=? n) && (n <=? 222) && negb (n =? 215)))%N
  then ascii_of_N (n + 32)
  else c.

Fixpoint lower (s : string) : string :=
  match s with
  | EmptyString => EmptyString
  | String c s' => String (lower_char c) (lower s')
  end.

Fixpoint lstrip (s : string) : string :=
  match s with
  | EmptyString => EmptyString
  | String c s' => if is_space c then lstrip s' else s
  end.

Fixpoint rstrip (s : string) : string :=
  match s with
  | EmptyString => EmptyString
  | String c s' =>
      match rstrip s' with
      | EmptyString => if is_space c then EmptyString else String c EmptyString
      | t => String c t
      end
  end.

Definition strip (s : string) : string := rstrip (lstrip s).

(** Truth value of a [str]. *)
Definition truthy (s : string) : bool :=
  match s with
  | EmptyString => false
  | String _ _ => true
  end.

(** Truth value of a [str | None]. *)
Definition truthy_opt (o : option string) : bool :=
  match o with
  | None => false
  | Some s => truthy s
  end.

(** [needle in haystack] *)
Fixpoint contains (needle haystack : string) : bool :=
  String.prefix needle haystack
  || match haystack with
     | EmptyString => false
     | String _ rest => contains needle rest
     end.

(** [s.replace(c, "")] for a one-character [c]. *)
Fixpoint remove_char (c : ascii) (s : string) : string :=
  match s with
  | EmptyString => EmptyString
  | String x s' =>
      if Ascii.eqb x c then remove_char c s' else String x (remove_char c s')
  end.

(** [str.isascii] *)
Fixpoint is_ascii (s : string) : bool :=
  match s with
  | EmptyString => true
  | String c s' => (N_of_ascii c <? 128)%N && is_ascii s'
  end.

End PyStr.

(** ** Data model ([src/models.py]) *)

Inductive IntentionType : Type := INTENTION | APPOINTMENT.

Definition IntentionType_eqb (a b : IntentionType) : bool :=
  match a, b with
  | INTENTION, INTENTION => true
  | APPOINTMENT, APPOINTMENT => true
  | _, _ => false
  end.

Module BufferedIntention.
Record t : Type := mk {
  id : option Z;
  email : string;
  first_name : option string;
  last_name : option string;
  phone : option string;
  intention_type : IntentionType;
  salon_id : option string;
  salon_name : option string;
  stylist_id : option string;
  stylist_name : option string;
  treatment : option string;
  price : option Q;
  appointment_date : option Z;
  campaign_source : option string;
  raw_payload : option string;
  created_at : option Z;
  processed : bool
}.
End BufferedIntention.

Module ProcessedContact.
Record t : Type := mk {
  email : string;
  first_name : option string;
  last_name : option string;
  phone : option string;
  event_name : string;
  salon_id : option string;
  salon_name : option string;
  stylist_id : option string;
  stylist_name : option string;
  treatment : option string;
  price : option Q;
  appointment_date : option Z;
  campaign_source : option string;
  is_new_client : option bool;
  intention_count : Z;
  appointment_count : Z
}.
End ProcessedContact.

(** ** Values decoded from a JSON body *)

Module Json.

Local Unset Elimination Schemes.

(** What [response.json()] can return; [JNull] is [None]. *)
Inductive t : Type :=
| JNull
| JBool (b : bool)
| JNum (q : Q)
| JStr (s : string)
| JList (l : list t)
| JDict (d : list (string * t)).

Local Set Elimination Schemes.

(** Python truth value. *)
Definition truthy (v : t) : bool :=
  match v with
  | JNull => false
  | JBool b => b
  | JNum q => negb (Qnum q =? 0)
  | JStr s => PyStr.truthy s
  | JList l => match l with [] => false | _ => true end
  | JDict d => match d with [] => false | _ => true end
  end.

Fixpoint lookup (key : string) (d : list (string * t)) : option t :=
  match d with
  | [] => None
  | (k, v) :: d' => if String.eqb key k then Some v else lookup key d'
  end.

(** [v.get(key, default)]: only a dict has the method. *)
Definition get (v : t) (key : string) (default : t) : result t :=
  match v with
  | JDict d =>
      match lookup key d with
      | Some x => Ok x
      | None => Ok default
      end
  | _ => Raise AttributeError
  end.

End Json.

(** ** The world outside the process *)

(** One row of the [intentions] table, column by column as in
    [CREATE_TABLE_SQL]. [id] is the primary key and [created_at] is
    [NOT NULL] with default [datetime('now')]. *)
Module Row.
Record t : Type := mk {
  id : Z;
  email : string;
  first_name : option string;
  last_name : option string;
  phone : option string;
  intention_type : IntentionType;
  salon_id : option string;
  salon_name : option string;
  stylist_id : option string;
  stylist_name : option string;
  treatment : option string;
  price : option Q;
  appointment_date : option Z;
  campaign_source : option string;
  raw_payload : option string;
  created_at : Z;
  processed : bool
}.
End Row.

Inductive AppMode : Type := SIMPLE | EXTENDED.

(** The JSON body of a request, named by the method that builds it and the
    values it is built from; the layout of the dictionaries is left out. *)
Inductive Payload : Type :=
| NoPayload
| ProfilePayload (contact : ProcessedContact.t) (mode : AppMode)
| ListPayload (profile_id : Json.t)
| EventPayload (contact : ProcessedContact.t).

Record Request : Type := mkRequest {
  req_method : string;
  req_url : string;
  req_json : Payload
}.

(** The [Retry-After] header as [float(...)] sees it. *)
Inductive RetryAfter : Type :=
| NoHeader
| Seconds (q : Q)
| Unparsable.

Record Response : Type := mkResponse {
  status_code : Z;
  retry_after : RetryAfter;
  (** [None]: the body is not JSON and [response.json()] raises. *)
  body : option Json.t
}.

(** What [client.request(...)] does. *)
Inductive Outcome : Type :=
| Answered (response : Response)
| FailedRequest    (** raises [httpx.RequestError] *)
| FailedOtherwise. (** raises anything else *)

(** Klaviyo, seen from the client: its answer to a request, given the
    requests it received before. *)
Definition Server : Type := list Request -> Request -> Outcome.

Record World : Type := mkWorld {
  table : list Row.t;   (** the [intentions] table, in rowid order *)
  commits : nat;        (** write transactions committed so far *)
  sent : list Request;  (** requests made to Klaviyo, oldest first *)
  slept : list Q        (** arguments of [asyncio.sleep], oldest first *)
}.

(** Computations on the world that may raise. *)
Definition M (A : Type) : Type := World -> result A * World.

Definition ret {A : Type} (a : A) : M A := fun w => (Ok a, w).

Definition raise {A : Type} (e : exn) : M A := fun w => (Raise e, w).

Definition bind {A B : Type} (c : M A) (k : A -> M B) : M B :=
  fun w =>
    match c w with
    | (Ok a, w') => k a w'
    | (Raise e, w') => (Raise e, w')
    end.

Definition lift {A : Type} (r : result A) : M A := fun w => (r, w).

(** [try: body  except Exception as e: handler]. *)
Definition try_except {A : Type} (body : M A) (handler : exn -> M A) : M A :=
  fun w =>
    match body w with
    | (Ok a, w') => (Ok a, w')
    | (Raise e, w') => handler e w'
    end.

Declare Scope world_scope.
Delimit Scope world_scope with world.

Notation "x <- c ;; k" := (bind c (fun x => k))
  (at level 100, c at next level, right associativity) : world_scope.
Notation "c ;;; k" := (bind c (fun _ => k))
  (at level 100, right associativity) : world_scope.

(** ** Aggregator ([src/processor.py]) *)

Module Processor.

Module BI := BufferedIntention.
Module PC := ProcessedContact.

(** [intention.email.lower().strip()] *)
Definition normalize (s : string) : string := PyStr.strip (PyStr.lower s).

(** [by_email[key].append(intention)] on a [defaultdict(list)]: a Python
    dict keeps its keys in the order of their first insertion, and
    [by_email.items()] walks them in that order. *)
Fixpoint dict_append (key : string) (v : BI.t) (d : list (string * list BI.t))
  : list (string * list BI.t) :=
  match d with
  | [] => [(key, [v])]
  | (k, vs) :: d' =>
      if String.eqb key k then (k, vs ++ [v]) :: d'
      else (k, vs) :: dict_append key v d'
  end.

(** The grouping loop, started from the dict [d]. *)
Fixpoint group_into (d : list (string * list BI.t)) (intentions : list BI.t)
  : list (string * list BI.t) :=
  match intentions with
  | [] => d
  | intention :: rest =>
      if PyStr.truthy (BI.email intention)
      then group_into (dict_append (normalize (BI.email intention)) intention d) rest
      else group_into d rest
  end.

Definition group_by_email (intentions : list BI.t) : list (string * list BI.t) :=
  group_into [] intentions.

Definition is_kind (k : IntentionType) (r : BI.t) : bool :=
  IntentionType_eqb (BI.intention_type r) k.

(** [sum(1 for r in records if r.intention_type == k)] *)
Definition count_kind (k : IntentionType) (records : list BI.t) : Z :=
  Z.of_nat (List.length (filter (is_kind k) records)).

(** [r.created_at or r.appointment_date or r.created_at]; a [datetime]
    is always true. *)
Definition latest_key (r : BI.t) : option Z :=
  match BI.created_at r with
  | Some t => Some t
  | None =>
      match BI.appointment_date r with
      | Some d => Some d
      | None => BI.created_at r
      end
  end.

(** [val > maxval] on two [datetime | None]: comparing with [None]
    raises [TypeError]. Two datetimes compare by their instants: both are
    naive, as every timestamp of the embedding is. (Python also raises
    [TypeError] for a naive datetime against an aware one; no record read
    from the buffer carries an aware one, and a [Z] cannot.) *)
Definition py_gt (a b : option Z) : result bool :=
  match a, b with
  | Some x, Some y => Ok (x >? y)
  | _, _ => Raise TypeError
  end.

(** The loop of the builtin [max(iterable, key=...)]: the running maximum
    is replaced only by a strictly greater key. *)
Fixpoint max_loop {A : Type} (key : A -> option Z) (maxitem : A) (maxval : option Z)
         (rest : list A) : result A :=
  match rest with
  | [] => Ok maxitem
  | item :: rest' =>
      match py_gt (key item) maxval with
      | Raise e => Raise e
      | Ok true => max_loop key item (key item) rest'
      | Ok false => max_loop key maxitem maxval rest'
      end
  end.

Definition py_max {A : Type} (key : A -> option Z) (l : list A) : result A :=
  match l with
  | [] => Raise ValueError
  | x :: xs => max_loop key x (key x) xs
  end.

(** [_first_non_empty(records, field)]: walks [reversed(records)]. *)
Fixpoint first_truthy (field : BI.t -> option string) (rev_records : list BI.t)
  : option string :=
  match rev_records with
  | [] => None
  | record :: rest =>
      if PyStr.truthy_opt (field record) then field record
      else first_truthy field rest
  end.

Definition _first_non_empty (records : list BI.t) (field : BI.t -> option string)
  : option string :=
  first_truthy field (rev records).

(** [appointments[-1] if appointments else latest] *)
Definition detail_of (appointments : list BI.t) (latest : BI.t) : BI.t :=
  List.last appointments latest.

(** The body of the loop over [by_email.items()]. *)
Definition build_contact (entry : string * list BI.t) : result PC.t :=
  let (email, records) := entry in
  let intention_count := count_kind INTENTION records in
  let appointment_count := count_kind APPOINTMENT records in
  let event_name :=
    if appointment_count >? 0 then "appointmentMade" else "appointmentIntention" in
  bind_result (py_max latest_key records) (fun latest =>
  let appointments := filter (is_kind APPOINTMENT) records in
  let detail_record := detail_of appointments latest in
  Ok {| PC.email := email;
        PC.first_name := _first_non_empty records BI.first_name;
        PC.last_name := _first_non_empty records BI.last_name;
        PC.phone := _first_non_empty records BI.phone;
        PC.event_name := event_name;
        PC.salon_id := BI.salon_id detail_record;
        PC.salon_name := BI.salon_name detail_record;
        PC.stylist_id := BI.stylist_id detail_record;
        PC.stylist_name := BI.stylist_name detail_record;
        PC.treatment := BI.treatment detail_record;
        PC.price := BI.price detail_record;
        PC.appointment_date := BI.appointment_date detail_record;
        PC.campaign_source := _first_non_empty records BI.campaign_source;
        PC.is_new_client := None;
        PC.intention_count := intention_count;
        PC.appointment_count := appointment_count |}).

Definition aggregate_intentions (intentions : list BI.t) : result (list PC.t) :=
  match intentions with
  | [] => Ok []
  | _ => for_each_result build_contact (group_by_email intentions)
  end.

End Processor.

(** ** Buffer store ([src/database.py]) *)

Module Database.

Module BI := BufferedIntention.

(** SQLite's [date(created_at)]. *)
Definition date_of (t : Z) : Z := t / 86400.

(** [ORDER BY created_at ASC]; rows with equal [created_at] keep their
    rowid order. *)
Fixpoint insert_row (r : Row.t) (l : list Row.t) : list Row.t :=
  match l with
  | [] => [r]
  | x :: xs =>
      if Row.created_at r <=? Row.created_at x then r :: l
      else x :: insert_row r xs
  end.

Definition order_by_created_at (l : list Row.t) : list Row.t :=
  fold_right insert_row [] l.

(** [WHERE processed = 0 AND date(created_at) = ?], or without the date. *)
Definition selected (target_date : option Z) (r : Row.t) : bool :=
  negb (Row.processed r)
  && match target_date with
     | Some d => date_of (Row.created_at r) =? d
     | None => true
     end.

Definition to_intention (row : Row.t) : BI.t :=
  {| BI.id := Some (Row.id row);
     BI.email := Row.email row;
     BI.first_name := Row.first_name row;
     BI.last_name := Row.last_name row;
     BI.phone := Row.phone row;
     BI.intention_type := Row.intention_type row;
     BI.salon_id := Row.salon_id row;
     BI.salon_name := Row.salon_name row;
     BI.stylist_id := Row.stylist_id row;
     BI.stylist_name := Row.stylist_name row;
     BI.treatment := Row.treatment row;
     BI.price := Row.price row;
     BI.appointment_date := Row.appointment_date row;
     BI.campaign_source := Row.campaign_source row;
     BI.raw_payload := Row.raw_payload row;
     BI.created_at := Some (Row.created_at row);
     BI.processed := Row.processed row |}.

Definition get_unprocessed_intentions (target_date : option Z) : M (list BI.t) :=
  fun w =>
    let rows := order_by_created_at (filter (selected target_date) (table w)) in
    (Ok (map to_intention rows), w).

Definition id_in (ids : list Z) (i : Z) : bool := existsb (Z.eqb i) ids.

(** [SET processed = 1] on one row. *)
Definition set_processed (r : Row.t) : Row.t :=
  {| Row.id := Row.id r;
     Row.email := Row.email r;
     Row.first_name := Row.first_name r;
     Row.last_name := Row.last_name r;
     Row.phone := Row.phone r;
     Row.intention_type := Row.intention_type r;
     Row.salon_id := Row.salon_id r;
     Row.salon_name := Row.salon_name r;
     Row.stylist_id := Row.stylist_id r;
     Row.stylist_name := Row.stylist_name r;
     Row.treatment := Row.treatment r;
     Row.price := Row.price r;
     Row.appointment_date := Row.appointment_date r;
     Row.campaign_source := Row.campaign_source r;
     Row.raw_payload := Row.raw_payload r;
     Row.created_at := Row.created_at r;
     Row.processed := true |}.

(** [UPDATE intentions SET processed = 1 WHERE id IN (...)] *)
Definition update_processed (ids : list Z) (rows : list Row.t) : list Row.t :=
  map (fun r => if id_in ids (Row.id r) then set_processed r else r) rows.

Section WithLibrary.

(** The number of [?] parameters the SQLite library accepts in one
    statement, [SQLITE_LIMIT_VARIABLE_NUMBER]: 999 in a default build
    before 3.32.0, 32766 since. The program never changes it. *)
Variable max_variable_number : nat.

(** The statement carries one [?] per id. When that is more than the
    library accepts, [execute] raises [sqlite3.OperationalError] (too many
    SQL variables) before any row is touched, and the [async with] block is
    left without a commit. *)
Definition mark_as_processed (intention_ids : list Z) : M unit :=
  fun w =>
    match intention_ids with
    | [] => (Ok tt, w)
    | _ =>
        if (List.length intention_ids <=? max_variable_number)%nat
        then
          (Ok tt,
           {| table := update_processed intention_ids (table w);
              commits := S (commits w);
              sent := sent w;
              slept := slept w |})
        else (Raise OperationalError, w)
    end.

End WithLibrary.

(** The id an [INTEGER PRIMARY KEY AUTOINCREMENT] column gives the next
    row: one more than the largest id used so far. No statement of the
    program deletes a row, so that is the largest id in the table. *)
Definition next_id (rows : list Row.t) : Z :=
  1 + fold_right Z.max 0 (map Row.id rows).

(** The row an [INSERT] of [intention] creates: the fourteen listed columns
    come from the record, [id], [created_at] and [processed] from the
    column defaults. [now] is what SQLite's [datetime('now')] returns. *)
Definition inserted_row (row_id now : Z) (intention : BI.t) : Row.t :=
  {| Row.id := row_id;
     Row.email := BI.email intention;
     Row.first_name := BI.first_name intention;
     Row.last_name := BI.last_name intention;
     Row.phone := BI.phone intention;
     Row.intention_type := BI.intention_type intention;
     Row.salon_id := BI.salon_id intention;
     Row.salon_name := BI.salon_name intention;
     Row.stylist_id := BI.stylist_id intention;
     Row.stylist_name := BI.stylist_name intention;
     Row.treatment := BI.treatment intention;
     Row.price := BI.price intention;
     Row.appointment_date := BI.appointment_date intention;
     Row.campaign_source := BI.campaign_source intention;
     Row.raw_payload := BI.raw_payload intention;
     Row.created_at := now;
     Row.processed := false |}.

Definition save_intention (now : Z) (intention : BI.t) : M Z :=
  fun w =>
    let row_id := next_id (table w) in
    (Ok row_id,
     {| table := table w ++ [inserted_row row_id now intention];
        commits := S (commits w);
        sent := sent w;
        slept := slept w |}).

(** The dict [get_intention_count] returns. *)
Record Counts : Type := mkCounts {
  total : Z;
  unprocessed : Z;
  processed : Z
}.

Definition get_intention_count : M Counts :=
  fun w =>
    let unprocessed :=
      Z.of_nat (List.length (filter (fun r => negb (Row.processed r)) (table w))) in
    let total := Z.of_nat (List.length (table w)) in
    (Ok {| total := total; unprocessed := unprocessed;
           processed := total - unprocessed |}, w).

End Database.

(** ** Outbound client ([src/klaviyo_client.py]) *)

Module KlaviyoClient.

Module PC := ProcessedContact.

Local Open Scope world_scope.

Definition BASE_URL : string := "https://a.klaviyo.com/api".

Definition MAX_RETRIES : nat := 3.

Definition INITIAL_BACKOFF : Q := 1.

(** The fields [__init__] copies from the settings. *)
Record t : Type := mk {
  api_key : string;
  list_id : string;
  revision : string;
  mode : AppMode
}.

Definition is_extended (m : AppMode) : bool :=
  match m with
  | EXTENDED => true
  | SIMPLE => false
  end.

(** httpx: [raise_for_status] passes exactly the 2xx codes. *)
Definition is_success (status : Z) : bool := (200 <=? status) && (status <=? 299).

Section WithServer.

Variable server : Server.

(** [await client.request(...)]: the request reaches the server and is
    logged. *)
Definition send (req : Request) : M Outcome :=
  fun w =>
    (Ok (server (sent w) req),
     {| table := table w; commits := commits w;
        sent := sent w ++ [req]; slept := slept w |}).

(** [await asyncio.sleep(seconds)] *)
Definition sleep (seconds : Q) : M unit :=
  fun w =>
    (Ok tt,
     {| table := table w; commits := commits w;
        sent := sent w; slept := slept w ++ [seconds] |}).

(** The body of [for attempt in range(1, MAX_RETRIES + 1)], over the
    attempt numbers still to come, and the [return None] behind it. *)
Fixpoint request_loop (req : Request) (attempts : list nat) (backoff : Q)
  : M Json.t :=
  match attempts with
  | [] => ret Json.JNull
  | attempt :: rest =>
      outcome <- send req ;;
      match outcome with
      | Answered response =>
          if status_code response =? 429 then
            match retry_after response with
            | Unparsable => raise ValueError
            | NoHeader =>
                sleep backoff ;;; request_loop req rest (backoff * 2)%Q
            | Seconds q =>
                sleep q ;;; request_loop req rest (backoff * 2)%Q
            end
          else if is_success (status_code response) then
            if status_code response =? 204 then ret Json.JNull
            else
              match body response with
              | Some v => ret v
              | None => raise ValueError
              end
          else
            (* except httpx.HTTPStatusError *)
            if Nat.eqb attempt MAX_RETRIES
            then raise (HTTPStatusError (status_code response))
            else sleep backoff ;;; request_loop req rest (backoff * 2)%Q
      | FailedRequest =>
          (* except httpx.RequestError *)
          if Nat.eqb attempt MAX_RETRIES
          then raise RequestError
          else sleep backoff ;;; request_loop req rest (backoff * 2)%Q
      | FailedOtherwise => raise OtherException
      end
  end.

Definition _request (method url : string) (json_data : Payload) : M Json.t :=
  request_loop (mkRequest method url json_data) (seq 1 MAX_RETRIES) INITIAL_BACKOFF.

Variable self : t.

Definition upsert_profile (contact : PC.t) : M Json.t :=
  result <- _request "POST" (BASE_URL ++ "/profile-import")%string
                     (ProfilePayload contact (mode self)) ;;
  if Json.truthy result then
    data <- lift (Json.get result "data" (Json.JDict [])) ;;
    lift (Json.get data "id" Json.JNull)
  else ret Json.JNull.

Definition add_to_list (profile_id : Json.t) : M unit :=
  if negb (PyStr.truthy (list_id self)) then ret tt
  else
    _request "POST"
             (BASE_URL ++ "/lists/" ++ list_id self ++ "/relationships/profiles")%string
             (ListPayload profile_id) ;;;
    ret tt.

Definition create_event (contact : PC.t) : M unit :=
  if negb (is_extended (mode self)) then ret tt
  else
    _request "POST" (BASE_URL ++ "/events")%string (EventPayload contact) ;;;
    ret tt.

(** The [try] block of [process_contact]. *)
Definition process_contact_body (contact : PC.t) : M bool :=
  profile_id <- upsert_profile contact ;;
  (if Json.truthy profile_id then add_to_list profile_id else ret tt) ;;;
  create_event contact ;;;
  ret true.

Definition process_contact (contact : PC.t) : M bool :=
  try_except (process_contact_body contact) (fun _ => ret false).

(** The dict [check_connection] returns; [str(e)] is kept as [e]. *)
Inductive ConnectionStatus : Type :=
| Connected (mode : AppMode) (list_id : string)
| ConnectionError (error : exn) (mode : AppMode).

Definition check_connection : M ConnectionStatus :=
  try_except
    (_request "GET" (BASE_URL ++ "/lists")%string NoPayload ;;;
     ret (Connected (mode self)
                    (if PyStr.truthy (list_id self) then list_id self
                     else "niet geconfigureerd")))
    (fun e => ret (ConnectionError e (mode self))).

End WithServer.

End KlaviyoClient.

(** ** The JSON bodies of the outbound client ([src/klaviyo_client.py]) *)

Module Payloads.

Module PC := ProcessedContact.

(** [if value: d[key] = value] for a [str | None]: the entry the
    statement adds to the dict, if any. The keys of one dict are all
    different, so the dict is the list of its entries in program order. *)
Definition text_entry (key : string) (value : option string) : list (string * Json.t) :=
  match value with
  | Some s => if PyStr.truthy s then [(key, Json.JStr s)] else []
  | None => []
  end.

(** The [properties] dict of [upsert_profile]. *)
Definition profile_properties (contact : PC.t) : list (string * Json.t) :=
  text_entry "salon_naam" (PC.salon_name contact)
  ++ text_entry "salon_id" (PC.salon_id contact)
  ++ text_entry "kapper_naam" (PC.stylist_name contact)
  ++ text_entry "stylist_id" (PC.stylist_id contact)
  ++ match PC.is_new_client contact with
     | Some b => [("is_nieuwe_klant", Json.JBool b)]
     | None => []
     end
  ++ text_entry "laatste_behandeling" (PC.treatment contact)
  ++ text_entry "campagne_bron" (PC.campaign_source contact).

(** The [attributes] dict of [upsert_profile]. *)
Definition profile_attributes (mode : AppMode) (contact : PC.t) : list (string * Json.t) :=
  [("email", Json.JStr (PC.email contact))]
  ++ text_entry "first_name" (PC.first_name contact)
  ++ text_entry "last_name" (PC.last_name contact)
  ++ text_entry "phone_number" (PC.phone contact)
  ++ match mode with
     | EXTENDED =>
         match profile_properties contact with
         | [] => []
         | properties => [("properties", Json.JDict properties)]
         end
     | SIMPLE => []
     end.

Definition profile_body (mode : AppMode) (contact : PC.t) : Json.t :=
  Json.JDict
    [("data", Json.JDict [("type", Json.JStr "profile");
                          ("attributes", Json.JDict (profile_attributes mode contact))])].

(** The body of [add_to_list]. *)
Definition list_body (profile_id : Json.t) : Json.t :=
  Json.JDict
    [("data", Json.JList [Json.JDict [("type", Json.JStr "profile"); ("id", profile_id)]])].

Section WithClock.

(** [datetime.isoformat] *)
Variable isoformat : Z -> string.

(** What [datetime.utcnow()] returns when the event is built. *)
Variable utcnow : Z.

(** The [properties] dict of [create_event]. *)
Definition event_properties (contact : PC.t) : list (string * Json.t) :=
  [("intention_count", Json.JNum (inject_Z (PC.intention_count contact)));
   ("appointment_count", Json.JNum (inject_Z (PC.appointment_count contact)))]
  ++ text_entry "salon_naam" (PC.salon_name contact)
  ++ text_entry "salon_id" (PC.salon_id contact)
  ++ text_entry "kapper_naam" (PC.stylist_name contact)
  ++ text_entry "stylist_id" (PC.stylist_id contact)
  ++ text_entry "behandeling" (PC.treatment contact)
  ++ match PC.price contact with
     | Some price => [("prijs", Json.JNum price)]
     | None => []
     end
  ++ match PC.appointment_date contact with
     | Some d => [("afspraak_datum", Json.JStr (isoformat d))]
     | None => []
     end
  ++ text_entry "campagne_bron" (PC.campaign_source contact).

Definition event_body (contact : PC.t) : Json.t :=
  Json.JDict
    [("data",
      Json.JDict
        [("type", Json.JStr "event");
         ("attributes",
          Json.JDict
            [("metric",
              Json.JDict
                [("data",
                  Json.JDict
                    [("type", Json.JStr "metric");
                     ("attributes",
                      Json.JDict [("name", Json.JStr (PC.event_name contact))])])]);
             ("profile",
              Json.JDict
                [("data",
                  Json.JDict
                    [("type", Json.JStr "profile");
                     ("attributes",
                      Json.JDict [("email", Json.JStr (PC.email contact))])])]);
             ("properties", Json.JDict (event_properties contact));
             ("time", Json.JStr (isoformat utcnow ++ "Z")%string)])])].

(** The [json=] argument a request carries. *)
Definition body_of (payload : Payload) : Json.t :=
  match payload with
  | NoPayload => Json.JNull
  | ProfilePayload contact mode => profile_body mode contact
  | ListPayload profile_id => list_body profile_id
  | EventPayload contact => event_body contact
  end.

End WithClock.

End Payloads.

(** ** Sync orchestrator ([src/scheduler.py]) *)

Module Scheduler.

Module BI := BufferedIntention.
Module PC := ProcessedContact.

Local Open Scope world_scope.

(** The dict [run_daily_sync] returns; [date] is the day number that the
    source prints with [isoformat]. *)
Record SyncResult : Type := mkSyncResult {
  date : Z;
  intentions_found : Z;
  contacts_processed : Z;
  success : Z;
  failed : Z
}.

Section WithClient.

Variable server : Server.
Variable klaviyo_client : KlaviyoClient.t.

(** The parameter limit of the SQLite library the process runs with. *)
Variable max_variable_number : nat.

(** [for contact in contacts: ...] with its two counters. *)
Fixpoint forward_all (contacts : list PC.t) (success_count failed_count : Z)
  : M (Z * Z) :=
  match contacts with
  | [] => ret (success_count, failed_count)
  | contact :: rest =>
      ok <- KlaviyoClient.process_contact server klaviyo_client contact ;;
      if ok : bool then forward_all rest (success_count + 1) failed_count
      else forward_all rest success_count (failed_count + 1)
  end.

(** [[i.id for i in intentions if i.id is not None]] *)
Fixpoint ids_of (intentions : list BI.t) : list Z :=
  match intentions with
  | [] => []
  | i :: rest =>
      match BI.id i with
      | Some n => n :: ids_of rest
      | None => ids_of rest
      end
  end.

(** [today] is what [date.today()] returns when the run starts. *)
Definition run_daily_sync (today : Z) (target_date : option Z) : M SyncResult :=
  let target_date :=
    match target_date with
    | None => today - 1
    | Some d => d
    end in
  intentions <- Database.get_unprocessed_intentions (Some target_date) ;;
  match intentions with
  | [] =>
      ret {| date := target_date; intentions_found := 0;
             contacts_processed := 0; success := 0; failed := 0 |}
  | _ =>
      contacts <- lift (Processor.aggregate_intentions intentions) ;;
      counts <- forward_all contacts 0 0 ;;
      let all_ids := ids_of intentions in
      Database.mark_as_processed max_variable_number all_ids ;;;
      ret {| date := target_date;
             intentions_found := Z.of_nat (List.length intentions);
             contacts_processed := Z.of_nat (List.length contacts);
             success := fst counts;
             failed := snd counts |}
  end.

End WithClient.

End Scheduler.

(** ** Webhook receiver ([src/routes/webhook.py]) *)

Module Webhook.

Module BI := BufferedIntention.

Local Open Scope world_scope.

(** [SalonhubCustomer], [SalonhubAppointment] and [SalonhubWebhookPayload]
    of [src/models.py], after validation. *)
Record SalonhubCustomer : Type := mkCustomer {
  email : option string;
  first_name : option string;
  last_name : option string;
  phone : option string
}.

Record SalonhubAppointment : Type := mkAppointment {
  appointment_id : option string;
  salon_id : option string;
  salon_name : option string;
  stylist_id : option string;
  stylist_name : option string;
  treatment : option string;
  price : option Q;
  date : option Z
}.

Record SalonhubWebhookPayload : Type := mkPayload {
  event_type : option string;
  customer : option SalonhubCustomer;
  appointment : option SalonhubAppointment;
  timestamp : option Z;
  raw_data : option (list (string * Json.t))
}.

(** What [json.loads(raw_body)] does. *)
Inductive Loaded : Type :=
| Parsed (raw_json : Json.t)
| JSONDecodeError
| LoadFailed (e : exn). (** any other exception, such as a body that is not UTF-8 *)

(** What the route answers: its two dicts, or the [HTTPException] it
    raises for FastAPI to turn into an error response. *)
Inductive Reply : Type :=
| Buffered (id : Z) (type : IntentionType)
| Ignored
| HTTPException (status_code : Z).

Definition email_keys : list string :=
  ["email"; "e-mail"; "emailAddress"; "email_address"; "customerEmail"].

(** [key.lower().replace("-", "").replace("_", "")] *)
Definition squash_key (key : string) : string :=
  PyStr.remove_char "_" (PyStr.remove_char "-" (PyStr.lower key)).

Definition is_email_key (key : string) : bool :=
  existsb (String.eqb (squash_key key)) (map squash_key email_keys).

(** The loop runs over [data.items()] and descends into values that are
    dicts; anything that is not a dict gives [None]. *)
Fixpoint _extract_email_from_raw (data : Json.t) : option string :=
  match data with
  | Json.JDict d =>
      (fix items (kvs : list (string * Json.t)) : option string :=
         match kvs with
         | [] => None
         | (key, value) :: rest =>
             match (if is_email_key key then
                      match value with
                      | Json.JStr s => if PyStr.contains "@" s then Some s else None
                      | _ => None
                      end
                    else None) with
             | Some s => Some s
             | None =>
                 match value with
                 | Json.JDict _ =>
                     match _extract_email_from_raw value with
                     | Some r => if PyStr.truthy r then Some r else items rest
                     | None => items rest
                     end
                 | _ => items rest
                 end
             end
         end) d
  | _ => None
  end.

(** [hmac.compare_digest] on two [str]: both must be ASCII. *)
Definition compare_digest (a b : string) : result bool :=
  if PyStr.is_ascii a && PyStr.is_ascii b then Ok (String.eqb a b)
  else Raise TypeError.

(** The event types that count as an appointment. *)
Definition classify (event_type : option string) : IntentionType :=
  match event_type with
  | Some t =>
      if PyStr.truthy t && PyStr.contains "appointment" (PyStr.lower t) then
        if negb (PyStr.contains "cancel" (PyStr.lower t)) then APPOINTMENT
        else INTENTION
      else INTENTION
  | None => INTENTION
  end.

Section WithLibraries.

(** [settings.webhook_secret] *)
Variable webhook_secret : string.

(** [hmac.new(key, msg, hashlib.sha256).hexdigest()] *)
Variable hmac_sha256_hexdigest : string -> string -> string.

(** [json.loads] *)
Variable json_loads : string -> Loaded.

(** [SalonhubWebhookPayload.model_validate]; [None] when it raises. *)
Variable model_validate : Json.t -> option SalonhubWebhookPayload.

(** [json.dumps(raw_json, default=str)] *)
Variable json_dumps : Json.t -> string.

Definition verify_signature (payload_body : string) (signature : option string)
  : result bool :=
  if negb (PyStr.truthy webhook_secret) then Ok true
  else
    match signature with
    | None => Ok false
    | Some sg =>
        if negb (PyStr.truthy sg) then Ok false
        else
          compare_digest ("sha256=" ++ hmac_sha256_hexdigest webhook_secret payload_body)%string
                         sg
    end.

(** [SalonhubWebhookPayload(raw_data=raw_json)]: the field is
    [dict | None], anything else fails validation. *)
Definition raw_only (raw_json : Json.t) : result SalonhubWebhookPayload :=
  match raw_json with
  | Json.JDict d => Ok (mkPayload None None None None (Some d))
  | Json.JNull => Ok (mkPayload None None None None None)
  | _ => Raise ValueError
  end.

(** The email of the customer if there is one, else the email found in
    the raw data. *)
Definition find_email (payload : SalonhubWebhookPayload) (raw_json : Json.t)
  : option string :=
  let email :=
    match customer payload with
    | Some c => if PyStr.truthy_opt (email c) then email c else None
    | None => None
    end in
  if negb (PyStr.truthy_opt email) then _extract_email_from_raw raw_json else email.

Definition from_customer (payload : SalonhubWebhookPayload)
           (field : SalonhubCustomer -> option string) : option string :=
  match customer payload with
  | Some c => field c
  | None => None
  end.

Definition from_appointment {A : Type} (payload : SalonhubWebhookPayload)
           (field : SalonhubAppointment -> option A) : option A :=
  match appointment payload with
  | Some a => field a
  | None => None
  end.

(** [now] is the time SQLite stamps the row with. *)
Definition receive_salonhub_webhook (now : Z) (raw_body : string)
           (x_webhook_signature : option string) : M Reply :=
  valid <- lift (verify_signature raw_body x_webhook_signature) ;;
  if negb valid then ret (HTTPException 401)
  else
    match json_loads raw_body with
    | JSONDecodeError => ret (HTTPException 400)
    | LoadFailed e => raise e
    | Parsed raw_json =>
        payload <- lift (match model_validate raw_json with
                         | Some p => Ok p
                         | None => raw_only raw_json
                         end) ;;
        let intention_type := classify (event_type payload) in
        let email := find_email payload raw_json in
        match email with
        | None => ret Ignored
        | Some email =>
            if negb (PyStr.truthy email) then ret Ignored
            else
              let intention :=
                {| BI.id := None;
                   BI.email := email;
                   BI.first_name := from_customer payload first_name;
                   BI.last_name := from_customer payload last_name;
                   BI.phone := from_customer payload phone;
                   BI.intention_type := intention_type;
                   BI.salon_id := from_appointment payload salon_id;
                   BI.salon_name := from_appointment payload salon_name;
                   BI.stylist_id := from_appointment payload stylist_id;
                   BI.stylist_name := from_appointment payload stylist_name;
                   BI.treatment := from_appointment payload treatment;
                   BI.price := from_appointment payload price;
                   BI.appointment_date := from_appointment payload date;
                   BI.campaign_source := None;
                   BI.raw_payload := Some (json_dumps raw_json);
                   BI.created_at := None;
                   BI.processed := false |} in
              record_id <- Database.save_intention now intention ;;
              ret (Buffered record_id intention_type)
        end
    end.

End WithLibraries.

End Webhook.

(** ** Health and admin routes ([src/routes/health.py]) *)

Module Health.

Local Open Scope world_scope.

(** The dict [health_check] returns, without its two constant entries. *)
Record Report : Type := mkReport {
  klaviyo : KlaviyoClient.ConnectionStatus;
  buffer : Database.Counts
}.

Section WithClient.

Variable server : Server.
Variable klaviyo_client : KlaviyoClient.t.
Variable max_variable_number : nat.

Definition health_check : M Report :=
  klaviyo_status <- KlaviyoClient.check_connection server klaviyo_client ;;
  buffer_stats <- Database.get_intention_count ;;
  ret {| klaviyo := klaviyo_status; buffer := buffer_stats |}.

(** [today] is what [date.today()] returns when the run starts. *)
Definition trigger_daily_sync (today : Z) : M Scheduler.SyncResult :=
  Scheduler.run_daily_sync server klaviyo_client max_variable_number today None.

End WithClient.

End Health.

(** ** Vocabulary of the statements *)

Module BI := BufferedIntention.
Module PC := ProcessedContact.

(** The record takes part in the grouping and its normalized email is [key]. *)
Definition in_group (key : string) (r : BI.t) : bool :=
  PyStr.truthy (BI.email r) && String.eqb (Processor.normalize (BI.email r)) key.

(** The records of the input that contribute to the contact of [key], in
    input order. *)
Definition group_of (key : string) (intentions : list BI.t) : list BI.t :=
  filter (in_group key) intentions.

Definition has_created_at (r : BI.t) : Prop := BI.created_at r <> None.

(** [a] was created no later than [b]. *)
Definition created_le (a b : BI.t) : Prop :=
  match BI.created_at a, BI.created_at b with
  | Some x, Some y => x <= y
  | _, _ => False
  end.

(** The input order of [get_unprocessed_intentions]: creation ascending. *)
Definition chronological (intentions : list BI.t) : Prop :=
  StronglySorted created_le intentions.

(** The list stored under [key] in a dict of lists, empty when absent. *)
Fixpoint dict_get (key : string) (d : list (string * list BI.t)) : list BI.t :=
  match d with
  | [] => []
  | (k, vs) :: d' => if String.eqb key k then vs else dict_get key d'
  end.

(** [v] is the value of [field] in the newest record of [records] that has
    one, and is absent when no record has one. *)
Definition resolved_from (records : list BI.t) (field : BI.t -> option string)
           (v : option string) : Prop :=
  match v with
  | None => forall r, In r records -> PyStr.truthy_opt (field r) = false
  | Some s =>
      s <> "" /\
      exists r, In r records /\ field r = Some s /\
                forall r', In r' records -> PyStr.truthy_opt (field r') = true ->
                           created_le r' r
  end.

(** All columns but [processed] agree. *)
Definition same_columns (r r' : Row.t) : Prop :=
  Row.id r' = Row.id r /\ Row.email r' = Row.email r /\
  Row.first_name r' = Row.first_name r /\ Row.last_name r' = Row.last_name r /\
  Row.phone r' = Row.phone r /\ Row.intention_type r' = Row.intention_type r /\
  Row.salon_id r' = Row.salon_id r /\ Row.salon_name r' = Row.salon_name r /\
  Row.stylist_id r' = Row.stylist_id r /\ Row.stylist_name r' = Row.stylist_name r /\
  Row.treatment r' = Row.treatment r /\ Row.price r' = Row.price r /\
  Row.appointment_date r' = Row.appointment_date r /\
  Row.campaign_source r' = Row.campaign_source r /\
  Row.raw_payload r' = Row.raw_payload r /\ Row.created_at r' = Row.created_at r.

(** Every answer of the server is a 429 whose [Retry-After], if any, is a
    number. *)
Definition always_rate_limited (server : Server) : Prop :=
  forall history req, exists response,
    server history req = Answered response /\
    status_code response = 429 /\
    retry_after response <> Unparsable.

(** The day a run works on: the given one, or yesterday. *)
Definition effective_date (today : Z) (target_date : option Z) : Z :=
  match target_date with
  | None => today - 1
  | Some d => d
  end.

(** The number of records a run for the day [day] fetches. *)
Definition day_size (day : Z) (w : World) : nat :=
  List.length (filter (Database.selected (Some day)) (table w)).

(** A computation that leaves the SQLite file alone. *)
Definition keeps_store {A : Type} (c : M A) : Prop :=
  forall w, table (snd (c w)) = table w /\ commits (snd (c w)) = commits w.

Create HintDb store.

(** ** Sample data *)

Module Fixtures.

(** A buffered record with the given email, kind, creation time, first
    name, phone and treatment, and nothing else. *)
Definition sample (email : string) (kind : IntentionType) (created : Z)
           (first_name phone treatment : option string) : BI.t :=
  {| BI.id := None; BI.email := email; BI.first_name := first_name;
     BI.last_name := None; BI.phone := phone; BI.intention_type := kind;
     BI.salon_id := None; BI.salon_name := None; BI.stylist_id := None;
     BI.stylist_name := None; BI.treatment := treatment; BI.price := None;
     BI.appointment_date := None; BI.campaign_source := None;
     BI.raw_payload := None; BI.created_at := Some created;
     BI.processed := false |}.

(** The two records of the end-to-end scenario. *)
Definition scenario : list BI.t :=
  [ sample "A@x.com" INTENTION 100 None None None;
    sample "a@x.com " APPOINTMENT 200 None None (Some "cut") ].

(** An older record with only a phone, a newer one with only a name. *)
Definition phone_then_name : list BI.t :=
  [ sample "a@x.com" INTENTION 100 None (Some "0612345678") None;
    sample "a@x.com" INTENTION 200 (Some "Ann") None None ].

(** Two intentions of one customer stored within the same second. *)
Definition tie_first : BI.t :=
  sample "a@x.com" INTENTION 100 None None (Some "cut").
Definition tie_second : BI.t :=
  sample "a@x.com" INTENTION 100 None None (Some "colour").

(** Records that carry no email. *)
Definition anonymous : list BI.t :=
  [ sample "" INTENTION 100 (Some "Ann") None None;
    sample "" APPOINTMENT 200 None None (Some "cut") ].

(** A row of the table with the given id, email, kind, creation time and
    flag. *)
Definition sample_row (id : Z) (email : string) (kind : IntentionType)
           (created : Z) (processed : bool) : Row.t :=
  {| Row.id := id; Row.email := email; Row.first_name := None;
     Row.last_name := None; Row.phone := None; Row.intention_type := kind;
     Row.salon_id := None; Row.salon_name := None; Row.stylist_id := None;
     Row.stylist_name := None; Row.treatment := None; Row.price := None;
     Row.appointment_date := None; Row.campaign_source := None;
     Row.raw_payload := None; Row.created_at := created;
     Row.processed := processed |}.

(** Day 1 holds rows 1 and 2 (unprocessed) and row 3 (processed); row 4
    belongs to day 2. *)
Definition sample_world : World :=
  {| table := [ sample_row 1 "A@x.com" INTENTION 86400 false;
                sample_row 2 "a@x.com " APPOINTMENT 86460 false;
                sample_row 3 "b@x.com" INTENTION 90000 true;
                sample_row 4 "c@x.com" INTENTION 172800 false ];
     commits := 0; sent := []; slept := [] |}.

(** The parameter limit of a default build of SQLite since 3.32.0. *)
Definition sqlite_limit : nat := Z.to_nat 32766.

(** A day on which the webhook buffered one record more than that: row
    [i] was stored in second [i] of day 1, for [i] from 1 to 32767. *)
Definition busy_day : World :=
  {| table := map (fun i => sample_row (Z.of_nat i) "a@x.com" INTENTION
                                       (86400 + Z.of_nat i) false)
                  (seq 1 (S sqlite_limit));
     commits := 0; sent := []; slept := [] |}.

(** A world whose table has nothing left to process on day 1. *)
Definition drained_world : World :=
  {| table := [ sample_row 3 "b@x.com" INTENTION 90000 true;
                sample_row 4 "c@x.com" INTENTION 172800 false ];
     commits := 0; sent := []; slept := [] |}.

(** A server that answers every request with 429 and no [Retry-After]. *)
Definition rate_limiting_server : Server :=
  fun _ _ => Answered {| status_code := 429; retry_after := NoHeader; body := None |}.

(** A server that refuses every connection. *)
Definition unreachable_server : Server := fun _ _ => FailedRequest.

Definition simple_client : KlaviyoClient.t :=
  {| KlaviyoClient.api_key := "pk_test"; KlaviyoClient.list_id := "";
     KlaviyoClient.revision := "2024-10-15"; KlaviyoClient.mode := SIMPLE |}.

Definition extended_client : KlaviyoClient.t :=
  {| KlaviyoClient.api_key := "pk_test"; KlaviyoClient.list_id := "L1";
     KlaviyoClient.revision := "2024-10-15"; KlaviyoClient.mode := EXTENDED |}.

Definition sample_contact : PC.t :=
  {| PC.email := "a@x.com"; PC.first_name := Some "Ann"; PC.last_name := None;
     PC.phone := None; PC.event_name := "appointmentMade"; PC.salon_id := None;
     PC.salon_name := None; PC.stylist_id := None; PC.stylist_name := None;
     PC.treatment := Some "cut"; PC.price := None; PC.appointment_date := None;
     PC.campaign_source := None; PC.is_new_client := None;
     PC.intention_count := 1; PC.appointment_count := 1 |}.

End Fixtures.

(** ** Vocabulary of the further statements *)

(** The world after one more request, and after one more sleep. *)
Definition after_send (req : Request) (w : World) : World :=
  {| table := table w; commits := commits w;
     sent := sent w ++ [req]; slept := slept w |}.

Definition after_sleep (seconds : Q) (w : World) : World :=
  {| table := table w; commits := commits w;
     sent := sent w; slept := slept w ++ [seconds] |}.

(** The server's answer to the [i]-th repetition of [req] (counting from
    0) when the repetitions start in world [w]. *)
Definition answer (server : Server) (w : World) (req : Request) (i : nat) : Outcome :=
  server (sent w ++ repeat req i) req.

(** A 429 whose [Retry-After], if any, is a number. *)
Definition rate_limited (o : Outcome) : bool :=
  match o with
  | Answered r =>
      (status_code r =? 429)
      && match retry_after r with
         | Unparsable => false
         | _ => true
         end
  | _ => false
  end.

(** A connection error, or an answer that is neither 2xx nor 429. *)
Definition failed (o : Outcome) : bool :=
  match o with
  | FailedRequest => true
  | Answered r =>
      negb (status_code r =? 429) && negb (KlaviyoClient.is_success (status_code r))
  | FailedOtherwise => false
  end.

(** The exception a failed attempt stands for. *)
Definition failure_of (o : Outcome) : exn :=
  match o with
  | Answered r => HTTPStatusError (status_code r)
  | FailedRequest => RequestError
  | FailedOtherwise => OtherException
  end.

(** What a 2xx answer gives the caller. *)
Definition decoded (r : Response) : result Json.t :=
  if status_code r =? 204 then Ok Json.JNull
  else
    match body r with
    | Some v => Ok v
    | None => Raise ValueError
    end.

(** How long the client waits after an unsuccessful attempt. *)
Definition pause (backoff : Q) (o : Outcome) : Q :=
  match o with
  | Answered r =>
      if status_code r =? 429 then
        match retry_after r with
        | Seconds q => q
        | _ => backoff
        end
      else backoff
  | _ => backoff
  end.

(** The waits after the first [count] answers. *)
Fixpoint pauses (answers : nat -> Outcome) (backoff : Q) (count : nat) : list Q :=
  match count with
  | O => []
  | S n => pause backoff (answers O) :: pauses (fun i => answers (S i)) (backoff * 2)%Q n
  end.

(** A computation that adds at most [n] requests to the log and removes
    none. *)
Definition sends_at_most {A : Type} (n : nat) (c : M A) : Prop :=
  forall w, exists l,
    sent (snd (c w)) = sent w ++ l /\ (List.length l <= n)%nat.

(** The fourteen columns an [INSERT] writes agree. *)
Definition same_data (a b : BI.t) : Prop :=
  BI.email a = BI.email b /\ BI.first_name a = BI.first_name b /\
  BI.last_name a = BI.last_name b /\ BI.phone a = BI.phone b /\
  BI.intention_type a = BI.intention_type b /\
  BI.salon_id a = BI.salon_id b /\ BI.salon_name a = BI.salon_name b /\
  BI.stylist_id a = BI.stylist_id b /\ BI.stylist_name a = BI.stylist_name b /\
  BI.treatment a = BI.treatment b /\ BI.price a = BI.price b /\
  BI.appointment_date a = BI.appointment_date b /\
  BI.campaign_source a = BI.campaign_source b /\
  BI.raw_payload a = BI.raw_payload b.

(** The records the unfiltered query returns in world [w]. *)
Definition backlog (w : World) : list BI.t :=
  map Database.to_intention
      (Database.order_by_created_at (filter (Database.selected None) (table w))).

(** Every answer of the server is a connection error or a status that is
    neither 2xx nor 429. *)
Definition always_failing (server : Server) : Prop :=
  forall history req, failed (server history req) = true.

(** Every row of the table carries an email. *)
Definition addressed (w : World) : Prop :=
  Forall (fun r => Row.email r <> "") (table w).

(** The primary key: no two rows share an id. *)
Definition unique_ids (w : World) : Prop := NoDup (map Row.id (table w)).

(** The record [get_unprocessed_intentions] builds for a row that
    [save_intention] has just inserted. *)
Definition as_stored (row_id now : Z) (intention : BI.t) : BI.t :=
  Database.to_intention (Database.inserted_row row_id now intention).

(** The keys of the dict, in the order of first insertion: the normalized
    emails of the input without repetitions. *)
Fixpoint first_occurrences (keys seen : list string) : list string :=
  match keys with
  | [] => []
  | k :: rest =>
      if existsb (String.eqb k) seen then first_occurrences rest seen
      else k :: first_occurrences rest (seen ++ [k])
  end.

Definition grouped_keys (intentions : list BI.t) : list string :=
  map (fun r => Processor.normalize (BI.email r))
      (filter (fun r => PyStr.truthy (BI.email r)) intentions).

Fixpoint sum_Z (l : list Z) : Z :=
  match l with
  | [] => 0
  | x :: xs => x + sum_Z xs
  end.

(** More sample data. *)
Module MoreFixtures.

(** Answers the first request it sees with 429 and [Retry-After: 7], the
    second with 503, and every later one with 200 and a profile id. *)
Definition flaky_server : Server :=
  fun history _ =>
    match history with
    | [] => Answered {| status_code := 429; retry_after := Seconds 7; body := None |}
    | [_] => Answered {| status_code := 503; retry_after := NoHeader; body := None |}
    | _ =>
        Answered {| status_code := 200; retry_after := NoHeader;
                    body := Some (Json.JDict
                                    [("data", Json.JDict [("id", Json.JStr "01HXYZ")])]) |}
    end.

(** Answers the profile import with 200 and a profile id and everything
    else with 204. *)
Definition healthy_server : Server :=
  fun _ req =>
    if String.eqb (req_url req) "https://a.klaviyo.com/api/profile-import"
    then Answered {| status_code := 200; retry_after := NoHeader;
                     body := Some (Json.JDict
                                     [("data", Json.JDict [("id", Json.JStr "01HXYZ")])]) |}
    else Answered {| status_code := 204; retry_after := NoHeader; body := None |}.

Definition listing_client : KlaviyoClient.t :=
  {| KlaviyoClient.api_key := "pk_test"; KlaviyoClient.list_id := "L1";
     KlaviyoClient.revision := "2024-10-15"; KlaviyoClient.mode := SIMPLE |}.

(** Answers 404 to everything. *)
Definition not_found_server : Server :=
  fun _ _ => Answered {| status_code := 404; retry_after := NoHeader; body := None |}.

(** Stand-ins for the libraries the webhook route calls: a digest that is
    always the same thirty-two hex digits, a parser that knows one body, a
    model that accepts nothing, and a serializer that prints a mark. *)
Definition fixed_digest : string -> string -> string :=
  fun _ _ => "00112233445566778899aabbccddeeff".

Definition nested_body : Json.t :=
  Json.JDict [("event", Json.JStr "intention");
              ("items", Json.JList [Json.JDict [("email", Json.JStr "list@x.com")]]);
              ("Customer", Json.JDict [("Name", Json.JStr "Ann");
                                       ("E-Mail", Json.JStr "Ann@X.com")])].

Definition one_body_parser : string -> Webhook.Loaded :=
  fun raw_body =>
    if String.eqb raw_body "nested" then Webhook.Parsed nested_body
    else Webhook.JSONDecodeError.

(** A parser for which every body is the JSON array [[1]]. *)
Definition array_parser : string -> Webhook.Loaded :=
  fun _ => Webhook.Parsed (Json.JList [Json.JNum 1]).

Definition strict_model : Json.t -> option Webhook.SalonhubWebhookPayload :=
  fun _ => None.

Definition marking_dumps : Json.t -> string := fun _ => "<raw>".

Definition empty_world : World :=
  {| table := []; commits := 0; sent := []; slept := [] |}.

Definition list_request : Request :=
  mkRequest "GET" "https://a.klaviyo.com/api/lists" NoPayload.

End MoreFixtures.

(** ** Grouping *)

Section Grouping.

Implicit Types (d : list (string * list BI.t)) (l : list BI.t) (k key : string).

Lemma dict_get_append key k v d :
  dict_get key (Processor.dict_append k v d) =
  if String.eqb key k then dict_get key d ++ [v] else dict_get key d.
Proof.
  induction d as [|[k0 vs] d IH]; simpl.
  - destruct (String.eqb key k); reflexivity.
  - destruct (String.eqb_spec k k0) as [->|Hne]; simpl.
    + destruct (String.eqb key k0); reflexivity.
    + destruct (String.eqb_spec key k0) as [->|Hne'].
      * destruct (String.eqb_spec k0 k) as [->|_]; [congruence|reflexivity].
      * exact IH.
Qed.

Lemma keys_append_in k v d :
  In k (map fst d) -> map fst (Processor.dict_append k v d) = map fst d.
Proof.
  induction d as [|[k0 vs] d IH]; simpl; [tauto|].
  intros Hin. destruct (String.eqb_spec k k0) as [->|Hne]; simpl; [reflexivity|].
  f_equal. apply IH. destruct Hin; congruence.
Qed.

Lemma keys_append_fresh k v d :
  ~ In k (map fst d) -> map fst (Processor.dict_append k v d) = map fst d ++ [k].
Proof.
  induction d as [|[k0 vs] d IH]; simpl; [reflexivity|].
  intros Hnin. destruct (String.eqb_spec k k0) as [->|Hne]; simpl; [tauto|].
  f_equal. apply IH. tauto.
Qed.

Lemma keys_append_cases k v d :
  map fst (Processor.dict_append k v d) = map fst d \/
  (~ In k (map fst d) /\ map fst (Processor.dict_append k v d) = map fst d ++ [k]).
Proof.
  destruct (in_dec string_dec k (map fst d)) as [Hin|Hnin].
  - left. now apply keys_append_in.
  - right. split; [assumption|]. now apply keys_append_fresh.
Qed.

Lemma keys_append_nodup k v d :
  NoDup (map fst d) -> NoDup (map fst (Processor.dict_append k v d)).
Proof.
  intros Hd. destruct (keys_append_cases k v d) as [->|[Hnin ->]]; [assumption|].
  apply NoDup_app; [assumption|repeat constructor; simpl; tauto|].
  intros x Hx [<-|[]]. exact (Hnin Hx).
Qed.

Lemma keys_append_mem key k v d :
  In key (map fst (Processor.dict_append k v d)) <-> In key (map fst d) \/ key = k.
Proof.
  destruct (in_dec string_dec k (map fst d)) as [Hin|Hnin].
  - rewrite keys_append_in by assumption. split; [tauto|].
    intros [H| ->]; assumption.
  - rewrite keys_append_fresh by assumption. rewrite in_app_iff. simpl.
    split.
    + intros [H|[<-|[]]]; auto.
    + intros [H| ->]; auto.
Qed.

Lemma dict_get_absent key d : ~ In key (map fst d) -> dict_get key d = [].
Proof.
  induction d as [|[k0 vs] d IH]; simpl; [reflexivity|].
  intros Hnin. destruct (String.eqb_spec key k0) as [->|Hne]; [tauto|].
  apply IH. tauto.
Qed.

Lemma dict_get_entry key vs d :
  NoDup (map fst d) -> In (key, vs) d -> dict_get key d = vs.
Proof.
  induction d as [|[k0 vs0] d IH]; simpl; [tauto|].
  intros Hnd [Heq|Hin].
  - inversion Heq; subst. now rewrite String.eqb_refl.
  - inversion Hnd as [|? ? Hnotin Hnd']; subst.
    destruct (String.eqb_spec key k0) as [->|Hne].
    + exfalso. apply Hnotin. change k0 with (fst (k0, vs)). now apply in_map.
    + now apply IH.
Qed.

Lemma dict_get_present key d :
  Forall (fun e => snd e <> []) d -> In key (map fst d) -> dict_get key d <> [].
Proof.
  induction d as [|[k0 vs0] d IH]; simpl; [tauto|].
  intros Hne Hin. inversion Hne as [|? ? Hhd Htl]; subst. simpl in Hhd.
  destruct (String.eqb_spec key k0) as [->|Hneq]; [assumption|].
  apply IH; [assumption|]. destruct Hin; congruence.
Qed.

Lemma dict_append_nonempty k v d :
  Forall (fun e => snd e <> []) d ->
  Forall (fun e => snd e <> []) (Processor.dict_append k v d).
Proof.
  induction d as [|[k0 vs0] d IH]; simpl; intros Hne.
  - constructor; [simpl; discriminate|constructor].
  - inversion Hne as [|? ? Hhd Htl]; subst.
    destruct (String.eqb k k0); constructor; simpl; auto.
    destruct vs0; discriminate.
Qed.

(** The grouping loop keeps the keys distinct and the lists non-empty, and
    extends the list of every key by the records of the input that
    normalize to it. *)
Lemma group_into_spec l : forall d,
  NoDup (map fst d) -> Forall (fun e => snd e <> []) d ->
  NoDup (map fst (Processor.group_into d l)) /\
  Forall (fun e => snd e <> []) (Processor.group_into d l) /\
  (forall key, dict_get key (Processor.group_into d l) = dict_get key d ++ group_of key l) /\
  (forall key, In key (map fst (Processor.group_into d l)) <->
               In key (map fst d) \/ exists r, In r l /\ in_group key r = true).
Proof.
  induction l as [|r l IH]; intros d Hnd Hne; simpl.
  - repeat split; auto.
    + intros key. now rewrite app_nil_r.
    + intros [H|[r [[] _]]]. assumption.
  - unfold group_of in *. simpl. unfold in_group at 1 3.
    destruct (PyStr.truthy (BI.email r)) eqn:Htr; simpl.
    + destruct (IH (Processor.dict_append (Processor.normalize (BI.email r)) r d))
        as (Hnd' & Hne' & Hget & Hmem).
      { now apply keys_append_nodup. }
      { now apply dict_append_nonempty. }
      repeat split; auto.
      * intros key. rewrite Hget, dict_get_append.
        rewrite (String.eqb_sym (Processor.normalize (BI.email r)) key).
        destruct (String.eqb key (Processor.normalize (BI.email r)));
          [now rewrite <- app_assoc|reflexivity].
      * rewrite Hmem, keys_append_mem. intros [[H|H]|[r' [Hin Hg]]]; auto.
        -- right. exists r. split; [now left|]. unfold in_group.
           rewrite Htr, H. simpl. apply String.eqb_refl.
        -- right. exists r'. split; [now right|assumption].
      * rewrite Hmem, keys_append_mem. intros [H|[r' [[<-|Hin] Hg]]]; auto.
        -- left. right. unfold in_group in Hg. rewrite Htr in Hg. simpl in Hg.
           symmetry. now apply String.eqb_eq.
        -- right. exists r'. auto.
    + destruct (IH d Hnd Hne) as (Hnd' & Hne' & Hget & Hmem).
      repeat split; auto.
      * rewrite Hmem. intros [H|[r' [Hin Hg]]]; auto.
        right. exists r'. split; [now right|assumption].
      * rewrite Hmem. intros [H|[r' [[<-|Hin] Hg]]]; auto.
        -- unfold in_group in Hg. rewrite Htr in Hg. discriminate.
        -- right. exists r'. auto.
Qed.

Lemma group_by_email_keys l :
  NoDup (map fst (Processor.group_by_email l)) /\
  (forall key, In key (map fst (Processor.group_by_email l)) <->
               exists r, In r l /\ in_group key r = true).
Proof.
  destruct (group_into_spec l [] (NoDup_nil _) (Forall_nil _)) as (Hnd & _ & _ & Hmem).
  split; [exact Hnd|]. intros key. unfold Processor.group_by_email.
  rewrite Hmem. simpl. tauto.
Qed.

Lemma group_by_email_entry l key records :
  In (key, records) (Processor.group_by_email l) ->
  records = group_of key l /\ records <> [].
Proof.
  intros Hin.
  destruct (group_into_spec l [] (NoDup_nil _) (Forall_nil _)) as (Hnd & Hne & Hget & _).
  fold (Processor.group_by_email l) in *.
  split.
  - rewrite <- (dict_get_entry key records _ Hnd Hin). now rewrite Hget.
  - rewrite Forall_forall in Hne. exact (Hne _ Hin).
Qed.

End Grouping.

(** ** One contact per group *)

Section Contacts.

Implicit Types (l intentions records : list BI.t) (c : PC.t) (key : string).

Lemma for_each_result_ok {A B : Type} (f : A -> result B) (xs : list A) :
  (forall x, In x xs -> exists y, f x = Ok y) ->
  exists ys, for_each_result f xs = Ok ys.
Proof.
  induction xs as [|x xs IH]; intros Hall; simpl.
  - now exists [].
  - destruct (Hall x (or_introl eq_refl)) as [y ->].
    destruct IH as [ys ->]; [intros x' Hx'; apply Hall; now right|].
    now exists (y :: ys).
Qed.

Lemma for_each_result_inv {A B : Type} (f : A -> result B) (xs : list A) :
  forall ys, for_each_result f xs = Ok ys -> Forall2 (fun x y => f x = Ok y) xs ys.
Proof.
  induction xs as [|x xs IH]; simpl; intros ys Hrun.
  - inversion Hrun. constructor.
  - destruct (f x) as [y|e] eqn:Hfx; [|discriminate].
    destruct (for_each_result f xs) as [ys'|e]; [|discriminate].
    inversion Hrun; subst. constructor; auto.
Qed.

Lemma max_loop_total {A : Type} (key : A -> option Z) (rest : list A) :
  Forall (fun x => key x <> None) rest ->
  forall maxitem t, exists m, Processor.max_loop key maxitem (Some t) rest = Ok m.
Proof.
  induction 1 as [|x rest Hx _ IH]; intros maxitem t; simpl.
  - now exists maxitem.
  - destruct (key x) as [kx|] eqn:Hk; [|congruence]. simpl.
    destruct (kx >? t); apply IH.
Qed.

Lemma py_max_total records :
  records <> [] -> Forall has_created_at records ->
  exists latest, Processor.py_max Processor.latest_key records = Ok latest.
Proof.
  intros Hne Hall. destruct records as [|r rest]; [congruence|].
  inversion Hall as [|? ? Hr Hrest]; subst. unfold Processor.py_max.
  assert (Hkey : forall x, has_created_at x -> Processor.latest_key x <> None).
  { intros x Hx. unfold Processor.latest_key, has_created_at in *.
    destruct (BI.created_at x); congruence. }
  destruct (Processor.latest_key r) as [t|] eqn:Hk; [|now apply Hkey in Hr].
  apply max_loop_total. eapply Forall_impl; [|exact Hrest]. exact Hkey.
Qed.

(** What a contact says about the group it was built from. *)
Lemma build_contact_inv key records c :
  Processor.build_contact (key, records) = Ok c ->
  PC.email c = key /\
  PC.intention_count c = Processor.count_kind INTENTION records /\
  PC.appointment_count c = Processor.count_kind APPOINTMENT records /\
  PC.event_name c =
    (if Processor.count_kind APPOINTMENT records >? 0
     then "appointmentMade" else "appointmentIntention") /\
  PC.first_name c = Processor._first_non_empty records BI.first_name /\
  PC.last_name c = Processor._first_non_empty records BI.last_name /\
  PC.phone c = Processor._first_non_empty records BI.phone /\
  PC.campaign_source c = Processor._first_non_empty records BI.campaign_source.
Proof.
  unfold Processor.build_contact.
  destruct (Processor.py_max Processor.latest_key records) as [latest|e]; simpl;
    [|discriminate].
  intros Hc. inversion Hc; subst; simpl. repeat split; reflexivity.
Qed.

Lemma build_contact_total key records :
  records <> [] -> Forall has_created_at records ->
  exists c, Processor.build_contact (key, records) = Ok c.
Proof.
  intros Hne Hall. destruct (py_max_total records Hne Hall) as [latest Hmax].
  unfold Processor.build_contact. rewrite Hmax. simpl. eauto.
Qed.

Lemma group_of_has_created_at key l :
  Forall has_created_at l -> Forall has_created_at (group_of key l).
Proof.
  rewrite !Forall_forall. intros Hall r Hin. apply Hall.
  unfold group_of in Hin. apply filter_In in Hin. tauto.
Qed.

(** The aggregator returns on every input whose records carry a creation
    timestamp, as all rows of the buffer do. *)
Lemma aggregate_total l :
  Forall has_created_at l -> exists contacts, Processor.aggregate_intentions l = Ok contacts.
Proof.
  intros Hall.
  assert (Hrun : exists contacts,
             for_each_result Processor.build_contact (Processor.group_by_email l)
             = Ok contacts).
  { apply for_each_result_ok. intros [key records] Hin.
    destruct (group_by_email_entry l key records Hin) as [-> Hne].
    apply build_contact_total; [assumption|]. now apply group_of_has_created_at. }
  destruct l; [now exists []|exact Hrun].
Qed.

Lemma aggregate_inv l contacts :
  Processor.aggregate_intentions l = Ok contacts ->
  Forall2 (fun e c => Processor.build_contact e = Ok c) (Processor.group_by_email l) contacts.
Proof.
  intros Hrun. apply for_each_result_inv. destruct l; [|exact Hrun].
  simpl in *. exact Hrun.
Qed.

Lemma Forall2_in_right {A B : Type} (R : A -> B -> Prop) xs ys :
  Forall2 R xs ys -> forall y, In y ys -> exists x, In x xs /\ R x y.
Proof.
  induction 1 as [|x y xs ys Hxy _ IH]; intros y0 Hin; [destruct Hin|].
  destruct Hin as [<-|Hin].
  - exists x. split; [now left|assumption].
  - destruct (IH y0 Hin) as [x0 [Hx0 HR]]. exists x0. split; [now right|assumption].
Qed.

Lemma Forall2_in_left {A B : Type} (R : A -> B -> Prop) xs ys :
  Forall2 R xs ys -> forall x, In x xs -> exists y, In y ys /\ R x y.
Proof.
  induction 1 as [|x y xs ys Hxy _ IH]; intros x0 Hin; [destruct Hin|].
  destruct Hin as [<-|Hin].
  - exists y. split; [now left|assumption].
  - destruct (IH x0 Hin) as [y0 [Hy0 HR]]. exists y0. split; [now right|assumption].
Qed.

(** Every contact of the output was built from the group of its email. *)
Lemma aggregate_contact_group l contacts c :
  Processor.aggregate_intentions l = Ok contacts -> In c contacts ->
  group_of (PC.email c) l <> [] /\
  Processor.build_contact (PC.email c, group_of (PC.email c) l) = Ok c.
Proof.
  intros Hrun Hin.
  destruct (Forall2_in_right _ _ _ (aggregate_inv l contacts Hrun) c Hin)
    as [[key records] [Hentry Hbuild]].
  destruct (build_contact_inv key records c Hbuild) as [Hemail _].
  destruct (group_by_email_entry l key records Hentry) as [Hrec Hne].
  subst. split; assumption.
Qed.

(** The emails of the output are the keys of the dict, in its order. *)
Lemma aggregate_emails l contacts :
  Processor.aggregate_intentions l = Ok contacts ->
  map PC.email contacts = map fst (Processor.group_by_email l).
Proof.
  intros Hrun. pose proof (aggregate_inv l contacts Hrun) as Hall. clear Hrun.
  generalize dependent (Processor.group_by_email l). intros groups Hall.
  induction Hall as [|[key records] c gs cs Hbuild _ IH]; simpl; [reflexivity|].
  destruct (build_contact_inv key records c Hbuild) as [-> _]. now rewrite IH.
Qed.

Lemma count_kind_positive k records :
  (Processor.count_kind k records >? 0) = true <->
  exists r, In r records /\ BI.intention_type r = k.
Proof.
  unfold Processor.count_kind. split.
  - intros Hpos. destruct (filter (Processor.is_kind k) records) as [|r rs] eqn:Hf.
    + simpl in Hpos. discriminate.
    + assert (Hin : In r (filter (Processor.is_kind k) records))
        by (rewrite Hf; now left).
      apply filter_In in Hin. destruct Hin as [Hin Hk]. exists r. split; [assumption|].
      unfold Processor.is_kind in Hk.
      destruct (BI.intention_type r), k; simpl in Hk; congruence.
  - intros [r [Hin Hk]].
    assert (Hf : In r (filter (Processor.is_kind k) records)).
    { apply filter_In. split; [assumption|]. unfold Processor.is_kind.
      rewrite Hk. destruct k; reflexivity. }
    destruct (filter (Processor.is_kind k) records); [destruct Hf|].
    simpl. apply Z.gtb_lt. lia.
Qed.

Lemma filter_filter {A : Type} (p q : A -> bool) (xs : list A) :
  filter p (filter q xs) = filter (fun x => q x && p x) xs.
Proof.
  induction xs as [|x xs IH]; simpl; [reflexivity|].
  destruct (q x); simpl; [destruct (p x)|]; now rewrite IH.
Qed.

Lemma group_into_skips_empty l : forall d,
  Processor.group_into d l =
  Processor.group_into d (filter (fun r => PyStr.truthy (BI.email r)) l).
Proof.
  induction l as [|r l IH]; intros d; simpl; [reflexivity|].
  destruct (PyStr.truthy (BI.email r)) eqn:Htr; simpl.
  - rewrite Htr. apply IH.
  - apply IH.
Qed.

End Contacts.

(** ** Properties of the aggregator *)

Section AggregatorProperties.

Implicit Types (intentions records : list BI.t) (c : PC.t) (key : string).

(** C3. On every input read from the buffer the aggregator returns, every
    group gets a contact, and a contact's event is "appointmentMade"
    exactly when its group holds a record of kind appointment and
    "appointmentIntention" exactly when it holds none. *)
Theorem aggregate_classification intentions :
  Forall has_created_at intentions ->
  exists contacts,
    Processor.aggregate_intentions intentions = Ok contacts /\
    (forall key, group_of key intentions <> [] ->
                 exists c, In c contacts /\ PC.email c = key) /\
    (forall c, In c contacts ->
       (PC.event_name c = "appointmentMade" <->
        exists r, In r (group_of (PC.email c) intentions) /\
                  BI.intention_type r = APPOINTMENT) /\
       (PC.event_name c = "appointmentIntention" <->
        ~ exists r, In r (group_of (PC.email c) intentions) /\
                    BI.intention_type r = APPOINTMENT)).
Proof.
  intros Hall. destruct (aggregate_total intentions Hall) as [contacts Hrun].
  exists contacts. split; [exact Hrun|]. split.
  - intros key Hne.
    assert (Hkey : In key (map PC.email contacts)).
    { rewrite (aggregate_emails _ _ Hrun).
      apply (proj2 (group_by_email_keys intentions)).
      unfold group_of in Hne.
      destruct (filter (in_group key) intentions) as [|r rs] eqn:Hf; [congruence|].
      assert (Hin : In r (filter (in_group key) intentions)) by (rewrite Hf; now left).
      apply filter_In in Hin. exists r. exact Hin. }
    apply in_map_iff in Hkey. destruct Hkey as [c [Hemail Hin]]. eauto.
  - intros c Hin.
    destruct (aggregate_contact_group _ _ _ Hrun Hin) as [_ Hbuild].
    apply build_contact_inv in Hbuild.
    destruct Hbuild as (_ & _ & _ & Hevent & _).
    rewrite Hevent. rewrite <- count_kind_positive.
    destruct (Processor.count_kind APPOINTMENT (group_of (PC.email c) intentions) >? 0);
      split; split; intros H; try reflexivity; try discriminate; congruence.
Qed.

Lemma aggregate_classification_witness :
  exists contacts,
    Processor.aggregate_intentions Fixtures.scenario = Ok contacts /\
    (forall key, group_of key Fixtures.scenario <> [] ->
                 exists c, In c contacts /\ PC.email c = key) /\
    (forall c, In c contacts ->
       (PC.event_name c = "appointmentMade" <->
        exists r, In r (group_of (PC.email c) Fixtures.scenario) /\
                  BI.intention_type r = APPOINTMENT) /\
       (PC.event_name c = "appointmentIntention" <->
        ~ exists r, In r (group_of (PC.email c) Fixtures.scenario) /\
                    BI.intention_type r = APPOINTMENT)).
Proof.
  apply (aggregate_classification Fixtures.scenario).
  repeat constructor; unfold has_created_at; simpl; discriminate.
Defined.

(** C4. On every input whose records all carry an email, the output has
    exactly one contact per distinct normalized email of the input, and
    the two counts of a contact are the numbers of input records of that
    kind with its email; the empty input gives the empty output. *)
Theorem aggregate_one_contact_per_key :
  Processor.aggregate_intentions [] = Ok [] /\
  forall intentions,
    Forall (fun r => BI.email r <> "") intentions ->
    Forall has_created_at intentions ->
    exists contacts,
      Processor.aggregate_intentions intentions = Ok contacts /\
      NoDup (map PC.email contacts) /\
      (forall key, In key (map PC.email contacts) <->
                   exists r, In r intentions /\ Processor.normalize (BI.email r) = key) /\
      (forall c, In c contacts ->
         PC.intention_count c =
           Z.of_nat (List.length (filter (fun r =>
             String.eqb (Processor.normalize (BI.email r)) (PC.email c)
             && Processor.is_kind INTENTION r) intentions)) /\
         PC.appointment_count c =
           Z.of_nat (List.length (filter (fun r =>
             String.eqb (Processor.normalize (BI.email r)) (PC.email c)
             && Processor.is_kind APPOINTMENT r) intentions))).
Proof.
  split; [reflexivity|]. intros intentions Hemail Hall.
  assert (Htruthy : forall r, In r intentions -> PyStr.truthy (BI.email r) = true).
  { rewrite Forall_forall in Hemail. intros r Hin. specialize (Hemail r Hin).
    destruct (BI.email r); [congruence|reflexivity]. }
  destruct (aggregate_total intentions Hall) as [contacts Hrun].
  exists contacts. split; [exact Hrun|].
  destruct (group_by_email_keys intentions) as [Hnd Hmem].
  rewrite (aggregate_emails _ _ Hrun). split; [exact Hnd|]. split.
  - intros key. rewrite Hmem. split; intros [r [Hin Hg]]; exists r; split; auto.
    + unfold in_group in Hg. apply andb_prop in Hg. now apply String.eqb_eq.
    + unfold in_group. rewrite (Htruthy r Hin). simpl. now apply String.eqb_eq.
  - intros c Hin.
    destruct (aggregate_contact_group _ _ _ Hrun Hin) as [_ Hbuild].
    apply build_contact_inv in Hbuild.
    destruct Hbuild as (_ & Hint & Happ & _).
    rewrite Hint, Happ. unfold Processor.count_kind, group_of.
    rewrite !filter_filter.
    split; do 2 f_equal; apply filter_ext_in; intros r Hr;
      unfold in_group; now rewrite (Htruthy r Hr).
Qed.

Lemma aggregate_one_contact_per_key_witness :
  exists contacts,
    Processor.aggregate_intentions Fixtures.scenario = Ok contacts /\
    NoDup (map PC.email contacts) /\
    (forall key, In key (map PC.email contacts) <->
                 exists r, In r Fixtures.scenario /\
                           Processor.normalize (BI.email r) = key) /\
    (forall c, In c contacts ->
       PC.intention_count c =
         Z.of_nat (List.length (filter (fun r =>
           String.eqb (Processor.normalize (BI.email r)) (PC.email c)
           && Processor.is_kind INTENTION r) Fixtures.scenario)) /\
       PC.appointment_count c =
         Z.of_nat (List.length (filter (fun r =>
           String.eqb (Processor.normalize (BI.email r)) (PC.email c)
           && Processor.is_kind APPOINTMENT r) Fixtures.scenario))).
Proof.
  apply (proj2 aggregate_one_contact_per_key Fixtures.scenario).
  - repeat constructor; simpl; discriminate.
  - repeat constructor; unfold has_created_at; simpl; discriminate.
Defined.

(** C10. Records whose email is empty never reach a group: the aggregator
    gives, on every input, the result it gives with those records removed,
    and on an input made only of such records it returns the empty list. *)
Theorem aggregate_skips_empty_email intentions :
  Processor.aggregate_intentions intentions =
  Processor.aggregate_intentions (filter (fun r => PyStr.truthy (BI.email r)) intentions)
  /\ (Forall (fun r => BI.email r = "") intentions ->
      Processor.aggregate_intentions intentions = Ok []).
Proof.
  assert (Hgroups : Processor.group_by_email intentions =
                    Processor.group_by_email
                      (filter (fun r => PyStr.truthy (BI.email r)) intentions))
    by apply group_into_skips_empty.
  assert (Hfirst : Processor.aggregate_intentions intentions =
                   Processor.aggregate_intentions
                     (filter (fun r => PyStr.truthy (BI.email r)) intentions)).
  { unfold Processor.aggregate_intentions at 1 2. rewrite Hgroups.
    destruct intentions as [|r rest]; [reflexivity|].
    destruct (filter (fun r0 => PyStr.truthy (BI.email r0)) (r :: rest));
      reflexivity. }
  split; [exact Hfirst|]. intros Hempty. rewrite Hfirst.
  replace (filter (fun r => PyStr.truthy (BI.email r)) intentions) with (@nil BI.t);
    [reflexivity|].
  clear Hgroups Hfirst. induction Hempty as [|r rest Hr _ IH]; simpl; [reflexivity|].
  rewrite Hr. simpl. exact IH.
Qed.

Lemma aggregate_skips_empty_email_witness :
  Processor.aggregate_intentions Fixtures.anonymous = Ok [].
Proof.
  apply (proj2 (aggregate_skips_empty_email Fixtures.anonymous)).
  repeat constructor.
Defined.

End AggregatorProperties.

(** ** Which record a field comes from *)

Section FieldResolution.

Implicit Types (intentions records : list BI.t) (field : BI.t -> option string).

Lemma sorted_filter {A : Type} (R : A -> A -> Prop) (p : A -> bool) (xs : list A) :
  StronglySorted R xs -> StronglySorted R (filter p xs).
Proof.
  induction 1 as [|x xs _ IH Hx]; simpl; [constructor|].
  destruct (p x); [|exact IH]. constructor; [exact IH|].
  rewrite Forall_forall in *. intros y Hy. apply Hx.
  apply filter_In in Hy. tauto.
Qed.

Lemma sorted_before {A : Type} (R : A -> A -> Prop) (xs : list A) :
  forall r ys, StronglySorted R (xs ++ r :: ys) -> forall x, In x xs -> R x r.
Proof.
  induction xs as [|x0 xs IH]; intros r ys Hs x Hin; [destruct Hin|].
  simpl in Hs. apply StronglySorted_inv in Hs. destruct Hs as [Hs Hall].
  destruct Hin as [<-|Hin].
  - rewrite Forall_forall in Hall. apply Hall. apply in_or_app. right. now left.
  - eapply IH; eassumption.
Qed.

Lemma first_truthy_none field records :
  Processor.first_truthy field records = None ->
  forall r, In r records -> PyStr.truthy_opt (field r) = false.
Proof.
  induction records as [|x xs IH]; simpl; intros Hnone r Hin; [destruct Hin|].
  destruct (PyStr.truthy_opt (field x)) eqn:Htr.
  - destruct (field x); simpl in Htr; congruence.
  - destruct Hin as [<-|Hin]; [assumption|now apply IH].
Qed.

Lemma first_truthy_some field records s :
  Processor.first_truthy field records = Some s ->
  s <> "" /\
  exists skipped r rest,
    records = skipped ++ r :: rest /\ field r = Some s /\
    forall x, In x skipped -> PyStr.truthy_opt (field x) = false.
Proof.
  induction records as [|x xs IH]; simpl; intros Hsome; [discriminate|].
  destruct (PyStr.truthy_opt (field x)) eqn:Htr.
  - split.
    + intros ->. rewrite Hsome in Htr. discriminate.
    + exists [], x, xs. repeat split; auto. intros y [].
  - destruct (IH Hsome) as (Hne & skipped & r & rest & -> & Hr & Hskip).
    split; [assumption|]. exists (x :: skipped), r, rest.
    repeat split; auto. intros y [<-|Hy]; auto.
Qed.

Lemma created_le_refl r : has_created_at r -> created_le r r.
Proof.
  unfold has_created_at, created_le. destruct (BI.created_at r); [lia|congruence].
Qed.

(** On a creation-ascending group, [_first_non_empty] returns the value of
    the newest record that has one. *)
Lemma first_non_empty_resolved field records :
  chronological records -> Forall has_created_at records ->
  resolved_from records field (Processor._first_non_empty records field).
Proof.
  intros Hsorted Hall. unfold Processor._first_non_empty, resolved_from.
  destruct (Processor.first_truthy field (rev records)) as [s|] eqn:Hscan.
  - destruct (first_truthy_some _ _ _ Hscan) as (Hne & skipped & r & rest & Hrev & Hr & Hskip).
    split; [assumption|].
    assert (Hrecords : records = rev rest ++ r :: rev skipped).
    { rewrite <- (rev_involutive records), Hrev, rev_app_distr. simpl.
      now rewrite <- app_assoc. }
    exists r. split; [|split; [assumption|]].
    + rewrite Hrecords. apply in_or_app. right. now left.
    + intros r' Hin Htr. rewrite Hrecords in Hin.
      apply in_app_or in Hin. destruct Hin as [Hin|[<-|Hin]].
      * unfold chronological in Hsorted. rewrite Hrecords in Hsorted.
        eapply sorted_before; eassumption.
      * apply created_le_refl. rewrite Forall_forall in Hall. apply Hall.
        rewrite Hrecords. apply in_or_app. right. now left.
      * apply in_rev in Hin. rewrite (Hskip r' Hin) in Htr. discriminate.
  - intros r Hin. eapply first_truthy_none; [eassumption|]. now apply in_rev in Hin.
Qed.

(** C5. First name, last name, phone and campaign source of a contact are
    resolved one by one, each from the newest record of the group that has
    a non-empty value for it, and are absent when no record has one; an
    older record with only a phone and a newer one with only a name give a
    contact that carries both. *)
Theorem aggregate_field_resolution :
  (forall intentions,
     chronological intentions -> Forall has_created_at intentions ->
     exists contacts,
       Processor.aggregate_intentions intentions = Ok contacts /\
       forall c, In c contacts ->
         let records := group_of (PC.email c) intentions in
         resolved_from records BI.first_name (PC.first_name c) /\
         resolved_from records BI.last_name (PC.last_name c) /\
         resolved_from records BI.phone (PC.phone c) /\
         resolved_from records BI.campaign_source (PC.campaign_source c))
  /\
  (forall r1 r2 t1 t2 name number,
     BI.email r1 <> "" -> BI.email r2 <> "" ->
     Processor.normalize (BI.email r1) = Processor.normalize (BI.email r2) ->
     BI.created_at r1 = Some t1 -> BI.created_at r2 = Some t2 -> t1 < t2 ->
     BI.phone r1 = Some number -> number <> "" ->
     PyStr.truthy_opt (BI.first_name r1) = false ->
     BI.first_name r2 = Some name -> name <> "" ->
     PyStr.truthy_opt (BI.phone r2) = false ->
     exists c,
       Processor.aggregate_intentions [r1; r2] = Ok [c] /\
       PC.first_name c = Some name /\ PC.phone c = Some number).
Proof.
  split.
  - intros intentions Hsorted Hall.
    destruct (aggregate_total intentions Hall) as [contacts Hrun].
    exists contacts. split; [exact Hrun|]. intros c Hin records.
    destruct (aggregate_contact_group _ _ _ Hrun Hin) as [_ Hbuild].
    apply build_contact_inv in Hbuild.
    destruct Hbuild as (_ & _ & _ & _ & Hfirst & Hlast & Hphone & Hsource).
    rewrite Hfirst, Hlast, Hphone, Hsource.
    assert (Hs : chronological records) by (now apply sorted_filter).
    assert (Ha : Forall has_created_at records) by (now apply group_of_has_created_at).
    repeat split; now apply first_non_empty_resolved.
  - intros r1 r2 t1 t2 name number He1 He2 Hkey Ht1 Ht2 Hlt Hp1 Hnum Hf1 Hf2 Hname Hp2.
    assert (Htr1 : PyStr.truthy (BI.email r1) = true)
      by (destruct (BI.email r1); [congruence|reflexivity]).
    assert (Htr2 : PyStr.truthy (BI.email r2) = true)
      by (destruct (BI.email r2); [congruence|reflexivity]).
    assert (Hgroups : Processor.group_by_email [r1; r2] =
                      [(Processor.normalize (BI.email r1), [r1; r2])]).
    { unfold Processor.group_by_email. simpl. rewrite Htr1, Htr2. simpl.
      now rewrite <- Hkey, String.eqb_refl. }
    destruct (build_contact_total (Processor.normalize (BI.email r1)) [r1; r2])
      as [c Hbuild].
    { discriminate. }
    { repeat constructor; unfold has_created_at; congruence. }
    exists c. split.
    + unfold Processor.aggregate_intentions. rewrite Hgroups.
      cbn [for_each_result]. now rewrite Hbuild.
    + apply build_contact_inv in Hbuild.
      destruct Hbuild as (_ & _ & _ & _ & Hfirst & _ & Hphone & _).
      rewrite Hfirst, Hphone. unfold Processor._first_non_empty. simpl.
      rewrite Hf2, Hp2, Hp1. simpl.
      destruct name; [congruence|]. destruct number; [congruence|]. now split.
Qed.

Lemma aggregate_field_resolution_witness :
  (exists contacts,
     Processor.aggregate_intentions Fixtures.phone_then_name = Ok contacts /\
     forall c, In c contacts ->
       let records := group_of (PC.email c) Fixtures.phone_then_name in
       resolved_from records BI.first_name (PC.first_name c) /\
       resolved_from records BI.last_name (PC.last_name c) /\
       resolved_from records BI.phone (PC.phone c) /\
       resolved_from records BI.campaign_source (PC.campaign_source c))
  /\
  (exists c,
     Processor.aggregate_intentions Fixtures.phone_then_name = Ok [c] /\
     PC.first_name c = Some "Ann" /\ PC.phone c = Some "0612345678").
Proof.
  split.
  - apply (proj1 aggregate_field_resolution Fixtures.phone_then_name).
    + repeat constructor; unfold created_le; simpl; lia.
    + repeat constructor; unfold has_created_at; simpl; discriminate.
  - apply (proj2 aggregate_field_resolution
                 (Fixtures.sample "a@x.com" INTENTION 100 None (Some "0612345678") None)
                 (Fixtures.sample "a@x.com" INTENTION 200 (Some "Ann") None None)
                 100 200 "Ann" "0612345678");
      simpl; try reflexivity; try discriminate; lia.
Defined.

End FieldResolution.

(** ** Which record the business context comes from *)

Section LatestRecord.

Implicit Types (records : list BI.t).

(** [max] returns the first record that carries the greatest key: every
    record before it has a strictly smaller key, every record after it a
    key that is no greater. *)
Lemma max_loop_first_maximal {A : Type} (key : A -> option Z) (rest : list A) :
  forall maxitem t m,
    Processor.max_loop key maxitem (Some t) rest = Ok m ->
    (m = maxitem /\
     forall x, In x rest -> exists tx, key x = Some tx /\ tx <= t)
    \/
    (exists before after tm,
       rest = before ++ m :: after /\ key m = Some tm /\ t < tm /\
       (forall x, In x before -> exists tx, key x = Some tx /\ tx < tm) /\
       (forall x, In x after -> exists tx, key x = Some tx /\ tx <= tm)).
Proof.
  induction rest as [|x rest IH]; intros maxitem t m Hrun; simpl in Hrun.
  - left. inversion Hrun. split; [reflexivity|]. intros x [].
  - destruct (key x) as [tx|] eqn:Hk; simpl in Hrun; [|discriminate].
    destruct (tx >? t) eqn:Hgt.
    + apply Z.gtb_lt in Hgt.
      destruct (IH x tx m Hrun) as [[-> Hrest]|(before & after & tm & -> & Hm & Hlt & Hb & Ha)].
      * right. exists [], rest, tx. repeat split; auto. intros y [].
      * right. exists (x :: before), after, tm. repeat split; auto; try lia.
        intros y [<-|Hy]; [exists tx; split; [assumption|lia]|now apply Hb].
    + assert (Hle : tx <= t) by (rewrite Z.gtb_ltb in Hgt; apply Z.ltb_ge in Hgt; lia).
      destruct (IH maxitem t m Hrun) as [[-> Hrest]|(before & after & tm & -> & Hm & Hlt & Hb & Ha)].
      * left. split; [reflexivity|]. intros y [<-|Hy]; [eauto|now apply Hrest].
      * right. exists (x :: before), after, tm. repeat split; auto.
        intros y [<-|Hy]; [exists tx; split; [assumption|lia]|now apply Hb].
Qed.

Lemma py_max_first_maximal records latest :
  Forall has_created_at records ->
  Processor.py_max Processor.latest_key records = Ok latest ->
  exists before after,
    records = before ++ latest :: after /\
    (forall r, In r before -> created_le r latest /\ ~ created_le latest r) /\
    (forall r, In r after -> created_le r latest).
Proof.
  intros Hall Hmax. destruct records as [|r0 rest]; [discriminate|].
  assert (Hkey : forall r t, Processor.latest_key r = Some t -> has_created_at r ->
                             BI.created_at r = Some t).
  { intros r t Hk Hr. unfold Processor.latest_key, has_created_at in *.
    destruct (BI.created_at r); [assumption|congruence]. }
  assert (Hin : forall r, In r (r0 :: rest) -> has_created_at r)
    by (now apply Forall_forall).
  unfold Processor.py_max in Hmax.
  destruct (Processor.latest_key r0) as [t0|] eqn:Hk0.
  2:{ exfalso. assert (H0 : has_created_at r0) by (apply Hin; now left).
      unfold Processor.latest_key, has_created_at in *.
      destruct (BI.created_at r0); congruence. }
  assert (Hc0 : BI.created_at r0 = Some t0) by (apply Hkey; [assumption|apply Hin; now left]).
  destruct (max_loop_first_maximal _ _ _ _ _ Hmax)
    as [[-> Hrest]|(before & after & tm & -> & Hm & Hlt & Hb & Ha)].
  - exists [], rest. split; [reflexivity|]. split; [intros r []|].
    intros r Hr. destruct (Hrest r Hr) as (tx & Hx & Hle).
    apply Hkey in Hx; [|apply Hin; now right].
    unfold created_le. now rewrite Hx, Hc0.
  - assert (Hcm : BI.created_at latest = Some tm).
    { apply Hkey; [assumption|]. apply Hin. right. apply in_or_app. right. now left. }
    exists (r0 :: before), after. split; [reflexivity|]. split.
    + intros r [<-|Hr].
      * unfold created_le. rewrite Hc0, Hcm. lia.
      * destruct (Hb r Hr) as (tx & Hx & Hltx).
        apply Hkey in Hx; [|apply Hin; right; apply in_or_app; now left].
        unfold created_le. rewrite Hx, Hcm. lia.
    + intros r Hr. destruct (Ha r Hr) as (tx & Hx & Hle).
      apply Hkey in Hx; [|apply Hin; right; apply in_or_app; right; now right].
      unfold created_le. now rewrite Hx, Hcm.
Qed.

(** The business context of a contact: from the last appointment of the
    group in input order if there is one, else from the record [max]
    picked. *)
Lemma build_contact_details key records c :
  Processor.build_contact (key, records) = Ok c ->
  exists latest,
    Processor.py_max Processor.latest_key records = Ok latest /\
    let detail_record :=
      List.last (filter (Processor.is_kind APPOINTMENT) records) latest in
    PC.salon_id c = BI.salon_id detail_record /\
    PC.salon_name c = BI.salon_name detail_record /\
    PC.stylist_id c = BI.stylist_id detail_record /\
    PC.stylist_name c = BI.stylist_name detail_record /\
    PC.treatment c = BI.treatment detail_record /\
    PC.price c = BI.price detail_record /\
    PC.appointment_date c = BI.appointment_date detail_record.
Proof.
  unfold Processor.build_contact.
  destruct (Processor.py_max Processor.latest_key records) as [latest|e]; simpl;
    [|discriminate].
  intros Hc. inversion Hc; subst; simpl. exists latest.
  unfold Processor.detail_of. repeat split; reflexivity.
Qed.

(** C6, at the input where it fails: two intentions of one customer with
    the same creation time and no appointment. The contact takes its
    treatment from the first of the two, not from the one that comes
    later in the input. *)
Theorem latest_tie_keeps_first_record :
  exists c,
    Processor.aggregate_intentions [Fixtures.tie_first; Fixtures.tie_second] = Ok [c] /\
    BI.created_at Fixtures.tie_first = BI.created_at Fixtures.tie_second /\
    PC.treatment c = BI.treatment Fixtures.tie_first /\
    PC.treatment c <> BI.treatment Fixtures.tie_second.
Proof.
  eexists. split; [vm_compute; reflexivity|].
  split; [reflexivity|]. split; [reflexivity|]. simpl. discriminate.
Qed.


(** The end-to-end scenario: two spellings of one email, an intention and
    a later appointment for a cut. *)
Lemma aggregate_scenario :
  exists c,
    Processor.aggregate_intentions Fixtures.scenario = Ok [c] /\
    PC.email c = "a@x.com" /\ PC.event_name c = "appointmentMade" /\
    PC.intention_count c = 1 /\ PC.appointment_count c = 1 /\
    PC.treatment c = Some "cut".
Proof. eexists. split; [vm_compute; reflexivity|]. repeat split. Qed.

End LatestRecord.

(** ** Properties of the buffer store *)

Section StoreProperties.

Variable max_variable_number : nat.

Implicit Types (ids : list Z) (rows : list Row.t) (w : World).

Lemma id_in_spec ids i : Database.id_in ids i = true <-> In i ids.
Proof.
  unfold Database.id_in. rewrite existsb_exists. split.
  - intros [x [Hin Heq]]. apply Z.eqb_eq in Heq. now subst.
  - intros Hin. exists i. split; [assumption|apply Z.eqb_refl].
Qed.

Lemma update_processed_twice ids rows :
  Database.update_processed ids (Database.update_processed ids rows) =
  Database.update_processed ids rows.
Proof.
  unfold Database.update_processed. rewrite map_map. apply map_ext. intros r.
  destruct (Database.id_in ids (Row.id r)) eqn:Hin; simpl; rewrite Hin; reflexivity.
Qed.

Lemma update_processed_rows ids rows :
  Forall2 (fun r r' =>
             same_columns r r' /\
             (In (Row.id r) ids -> Row.processed r' = true) /\
             (~ In (Row.id r) ids -> r' = r))
          rows (Database.update_processed ids rows).
Proof.
  induction rows as [|r rows IH]; simpl; constructor; [|exact IH].
  destruct (Database.id_in ids (Row.id r)) eqn:Hin.
  - apply id_in_spec in Hin. unfold same_columns. simpl.
    repeat split; try reflexivity. tauto.
  - assert (Hnot : ~ In (Row.id r) ids)
      by (rewrite <- id_in_spec; congruence).
    unfold same_columns. repeat split; try reflexivity. tauto.
Qed.

Lemma update_processed_nil rows : Database.update_processed [] rows = rows.
Proof.
  unfold Database.update_processed. induction rows as [|r rows IH]; cbn; [reflexivity|].
  cbn in IH. now rewrite IH.
Qed.

(** A mark of more ids than the library takes parameters raises and
    leaves the world as it was. *)
Lemma mark_as_processed_beyond ids w :
  (max_variable_number < List.length ids)%nat ->
  Database.mark_as_processed max_variable_number ids w = (Raise OperationalError, w).
Proof.
  intros Hlt. unfold Database.mark_as_processed.
  destruct ids as [|i ids]; [cbn in Hlt; lia|].
  apply Nat.leb_gt in Hlt. now rewrite Hlt.
Qed.

(** Within the limit it returns, and writes when there is an id. *)
Lemma mark_as_processed_within ids w :
  (List.length ids <= max_variable_number)%nat ->
  Database.mark_as_processed max_variable_number ids w =
  (Ok tt, match ids with
          | [] => w
          | _ => {| table := Database.update_processed ids (table w);
                    commits := S (commits w);
                    sent := sent w;
                    slept := slept w |}
          end).
Proof.
  intros Hle. unfold Database.mark_as_processed.
  destruct ids as [|i ids]; [reflexivity|].
  apply Nat.leb_le in Hle. now rewrite Hle.
Qed.

(** The table a mark leaves: updated when the call returns, as it was when
    the call raises. *)
Lemma table_after_mark ids w :
  table (snd (Database.mark_as_processed max_variable_number ids w)) =
  if (List.length ids <=? max_variable_number)%nat
  then Database.update_processed ids (table w)
  else table w.
Proof.
  destruct (List.length ids <=? max_variable_number)%nat eqn:Hfit.
  - apply Nat.leb_le in Hfit. rewrite (mark_as_processed_within ids w Hfit).
    destruct ids; cbn [snd table]; [now rewrite update_processed_nil|reflexivity].
  - apply Nat.leb_gt in Hfit. now rewrite (mark_as_processed_beyond ids w Hfit).
Qed.

Lemma unchanged_rows ids rows :
  Forall2 (fun r r' =>
             same_columns r r' /\
             (~ In (Row.id r) ids -> r' = r) /\
             (Row.processed r' = Row.processed r \/
              In (Row.id r) ids /\ Row.processed r' = true))
          rows rows.
Proof.
  induction rows as [|r rows IH]; constructor; [|exact IH].
  unfold same_columns. repeat split; try reflexivity. now left.
Qed.

Lemma update_processed_changes ids rows :
  Forall2 (fun r r' =>
             same_columns r r' /\
             (~ In (Row.id r) ids -> r' = r) /\
             (Row.processed r' = Row.processed r \/
              In (Row.id r) ids /\ Row.processed r' = true))
          rows (Database.update_processed ids rows).
Proof.
  induction rows as [|r rows IH]; simpl; constructor; [|exact IH].
  destruct (Database.id_in ids (Row.id r)) eqn:Hin.
  - apply id_in_spec in Hin. unfold same_columns. simpl.
    repeat split; try reflexivity; [tauto|]. right. now split.
  - unfold same_columns. repeat split; try reflexivity. now left.
Qed.

Lemma update_processed_marks ids rows :
  Forall2 (fun r r' => In (Row.id r) ids -> Row.processed r' = true)
          rows (Database.update_processed ids rows).
Proof.
  induction rows as [|r rows IH]; simpl; constructor; [|exact IH].
  destruct (Database.id_in ids (Row.id r)) eqn:Hin; [reflexivity|].
  intros Hmem. apply id_in_spec in Hmem. congruence.
Qed.

(** C8. Marking the same ids twice leaves the table as marking them once;
    marking no id returns without touching the world, so nothing is
    written; and whatever the call does, row by row the table keeps every
    column but the processed flag, a row whose id is not listed is
    unchanged, and a flag that changed is now set and belongs to a listed
    id. A call with no more ids than SQLite takes parameters returns and
    leaves every listed row processed; a call with more raises
    [sqlite3.OperationalError] and leaves the world as it was. *)
Theorem mark_as_processed_idempotent ids w :
  table (snd (Database.mark_as_processed max_variable_number ids
                (snd (Database.mark_as_processed max_variable_number ids w)))) =
  table (snd (Database.mark_as_processed max_variable_number ids w))
  /\ Database.mark_as_processed max_variable_number [] w = (Ok tt, w)
  /\ Forall2 (fun r r' =>
                same_columns r r' /\
                (~ In (Row.id r) ids -> r' = r) /\
                (Row.processed r' = Row.processed r \/
                 In (Row.id r) ids /\ Row.processed r' = true))
             (table w) (table (snd (Database.mark_as_processed max_variable_number ids w)))
  /\ ((List.length ids <= max_variable_number)%nat ->
      fst (Database.mark_as_processed max_variable_number ids w) = Ok tt /\
      Forall2 (fun r r' => In (Row.id r) ids -> Row.processed r' = true)
              (table w) (table (snd (Database.mark_as_processed max_variable_number ids w))))
  /\ ((max_variable_number < List.length ids)%nat ->
      Database.mark_as_processed max_variable_number ids w = (Raise OperationalError, w)).
Proof.
  split; [|split; [reflexivity|split; [|split]]].
  - rewrite !table_after_mark.
    destruct (List.length ids <=? max_variable_number)%nat;
      [apply update_processed_twice|reflexivity].
  - rewrite table_after_mark.
    destruct (List.length ids <=? max_variable_number)%nat;
      [apply update_processed_changes|apply unchanged_rows].
  - intros Hfit. rewrite table_after_mark, (mark_as_processed_within ids w Hfit).
    apply Nat.leb_le in Hfit. rewrite Hfit.
    split; [reflexivity|apply update_processed_marks].
  - apply mark_as_processed_beyond.
Qed.

Lemma in_insert_row r x rows :
  In x (Database.insert_row r rows) <-> x = r \/ In x rows.
Proof.
  induction rows as [|y rows IH]; simpl.
  - split; intros [H|H]; auto.
  - destruct (Row.created_at r <=? Row.created_at y); simpl.
    + split; intros [H|H]; auto.
    + rewrite IH. split; intros H; intuition auto.
Qed.

Lemma in_order_by_created_at x rows :
  In x (Database.order_by_created_at rows) <-> In x rows.
Proof.
  induction rows as [|r rows IH]; simpl; [tauto|].
  rewrite in_insert_row, IH. split; intros [H|H]; auto.
Qed.

(** A row is fetched exactly when the query selects it. *)
Lemma fetched_rows target_date w :
  fst (Database.get_unprocessed_intentions target_date w) =
  Ok (map Database.to_intention
          (Database.order_by_created_at
             (filter (Database.selected target_date) (table w)))).
Proof. reflexivity. Qed.

Lemma to_intention_has_created_at rows :
  Forall has_created_at (map Database.to_intention rows).
Proof.
  induction rows as [|r rows IH]; simpl; constructor; [|exact IH].
  unfold has_created_at. simpl. discriminate.
Qed.

Lemma insert_row_sorted r rows :
  StronglySorted (fun a b => Row.created_at a <= Row.created_at b) rows ->
  StronglySorted (fun a b => Row.created_at a <= Row.created_at b)
                 (Database.insert_row r rows).
Proof.
  induction 1 as [|x rows Hsorted IH Hx]; simpl.
  - repeat constructor.
  - destruct (Row.created_at r <=? Row.created_at x) eqn:Hle.
    + apply Z.leb_le in Hle. constructor; [now constructor|].
      constructor; [assumption|]. rewrite Forall_forall in *.
      intros y Hy. specialize (Hx y Hy). simpl in Hx. lia.
    + apply Z.leb_gt in Hle. constructor; [exact IH|].
      rewrite Forall_forall in *. intros y Hy. apply in_insert_row in Hy.
      destruct Hy as [->|Hy]; [lia|now apply Hx].
Qed.

(** What the query returns is in creation-ascending order. *)
Lemma fetched_chronological target_date w fetched :
  fst (Database.get_unprocessed_intentions target_date w) = Ok fetched ->
  chronological fetched /\ Forall has_created_at fetched.
Proof.
  rewrite fetched_rows. intros Heq. inversion Heq; subst. clear Heq.
  split; [|apply to_intention_has_created_at].
  assert (Hsorted : StronglySorted (fun a b => Row.created_at a <= Row.created_at b)
                      (Database.order_by_created_at
                         (filter (Database.selected target_date) (table w)))).
  { induction (filter (Database.selected target_date) (table w)) as [|r rows IH]; simpl.
    - constructor.
    - now apply insert_row_sorted. }
  unfold chronological.
  induction Hsorted as [|x rows _ IH Hx]; simpl; constructor; [exact IH|].
  rewrite Forall_forall in *. intros y Hy. apply in_map_iff in Hy.
  destruct Hy as [row [<- Hrow]]. unfold created_le. simpl. now apply Hx.
Qed.

(** Rows that are in creation order already come back as they are. *)
Lemma order_by_created_at_ascending rows :
  StronglySorted (fun a b => Row.created_at a <= Row.created_at b) rows ->
  Database.order_by_created_at rows = rows.
Proof.
  unfold Database.order_by_created_at.
  induction 1 as [|r rows Hrows IH Hr]; cbn [fold_right]; [reflexivity|].
  rewrite IH. destruct Hr as [|x rows' Hx _]; cbn [Database.insert_row]; [reflexivity|].
  apply Z.leb_le in Hx. now rewrite Hx.
Qed.

Lemma map_seq_ascending (f : nat -> Row.t) (len : nat) :
  (forall i j, (i <= j)%nat -> Row.created_at (f i) <= Row.created_at (f j)) ->
  forall start,
    StronglySorted (fun a b => Row.created_at a <= Row.created_at b)
                   (map f (seq start len)).
Proof.
  intros Hmono. induction len as [|len IH]; intros start; cbn [seq map]; constructor.
  - apply IH.
  - apply Forall_forall. intros r Hr. apply in_map_iff in Hr.
    destruct Hr as [j [<- Hj]]. apply in_seq in Hj. apply Hmono. lia.
Qed.

Lemma filter_all {A : Type} (f : A -> bool) (l : list A) :
  Forall (fun x => f x = true) l -> filter f l = l.
Proof.
  induction 1 as [|x l Hx Hl IH]; cbn [filter]; [reflexivity|]. now rewrite Hx, IH.
Qed.

End StoreProperties.

(** With the parameter limit of a default SQLite build: a mark of rows 1
    and 2 returns and leaves both processed, a mark of as many ids as the
    limit plus one raises and changes nothing. *)
Lemma mark_as_processed_idempotent_witness :
  (fst (Database.mark_as_processed Fixtures.sqlite_limit [1; 2] Fixtures.sample_world) = Ok tt /\
   map Row.processed
       (table (snd (Database.mark_as_processed Fixtures.sqlite_limit [1; 2]
                                               Fixtures.sample_world)))
   = [true; true; true; false]) /\
  Database.mark_as_processed Fixtures.sqlite_limit
    (map Z.of_nat (seq 1 (S Fixtures.sqlite_limit))) Fixtures.sample_world
  = (Raise OperationalError, Fixtures.sample_world).
Proof.
  split.
  - destruct (mark_as_processed_idempotent Fixtures.sqlite_limit [1; 2] Fixtures.sample_world)
      as (_ & _ & _ & Hfit & _).
    destruct Hfit as [Hok _]; [apply Nat.leb_le; reflexivity|].
    split; [exact Hok|].
    rewrite (mark_as_processed_within Fixtures.sqlite_limit)
      by (apply Nat.leb_le; reflexivity).
    reflexivity.
  - destruct (mark_as_processed_idempotent Fixtures.sqlite_limit
                (map Z.of_nat (seq 1 (S Fixtures.sqlite_limit))) Fixtures.sample_world)
      as (_ & _ & _ & _ & Hover).
    apply Hover. rewrite length_map, length_seq. apply Nat.lt_succ_diag_r.
Defined.

(** ** Properties of the outbound client *)

Section ClientProperties.

Variable server : Server.

Implicit Types (self : KlaviyoClient.t) (contact : PC.t) (w : World) (req : Request).

Lemma keeps_store_ret {A : Type} (a : A) : keeps_store (ret a).
Proof. intros w. split; reflexivity. Qed.

Lemma keeps_store_raise {A : Type} (e : exn) : keeps_store (@raise A e).
Proof. intros w. split; reflexivity. Qed.

Lemma keeps_store_lift {A : Type} (r : result A) : keeps_store (lift r).
Proof. intros w. split; reflexivity. Qed.

Lemma keeps_store_bind {A B : Type} (c : M A) (k : A -> M B) :
  keeps_store c -> (forall a, keeps_store (k a)) -> keeps_store (bind c k).
Proof.
  intros Hc Hk w. unfold bind. specialize (Hc w).
  destruct (c w) as [[a|e] w1]; simpl in *.
  - destruct (Hk a w1) as [Ht Hn]. destruct Hc as [Ht1 Hn1]. split; congruence.
  - exact Hc.
Qed.

Lemma keeps_store_try {A : Type} (c : M A) (h : exn -> M A) :
  keeps_store c -> (forall e, keeps_store (h e)) -> keeps_store (try_except c h).
Proof.
  intros Hc Hh w. unfold try_except. specialize (Hc w).
  destruct (c w) as [[a|e] w1]; simpl in *.
  - exact Hc.
  - destruct (Hh e w1) as [Ht Hn]. destruct Hc as [Ht1 Hn1]. split; congruence.
Qed.

Lemma keeps_store_send req : keeps_store (KlaviyoClient.send server req).
Proof. intros w. split; reflexivity. Qed.

Lemma keeps_store_sleep q : keeps_store (KlaviyoClient.sleep q).
Proof. intros w. split; reflexivity. Qed.

#[local] Hint Resolve keeps_store_ret keeps_store_raise keeps_store_lift keeps_store_send
     keeps_store_sleep : store.

Lemma keeps_store_request_loop req attempts :
  forall backoff, keeps_store (KlaviyoClient.request_loop server req attempts backoff).
Proof.
  induction attempts as [|attempt rest IH]; intros backoff;
    cbn [KlaviyoClient.request_loop]; auto with store.
  apply keeps_store_bind; auto with store.
  intros [response| |]; auto with store.
  - destruct (status_code response =? 429).
    + destruct (retry_after response); auto with store;
        apply keeps_store_bind; auto with store.
    + destruct (KlaviyoClient.is_success (status_code response)).
      * destruct (status_code response =? 204); auto with store.
        destruct (body response); auto with store.
      * destruct (Nat.eqb attempt KlaviyoClient.MAX_RETRIES); auto with store.
        apply keeps_store_bind; auto with store.
  - destruct (Nat.eqb attempt KlaviyoClient.MAX_RETRIES); auto with store.
    apply keeps_store_bind; auto with store.
Qed.

Lemma keeps_store_request method url json_data :
  keeps_store (KlaviyoClient._request server method url json_data).
Proof. apply keeps_store_request_loop. Qed.

Lemma keeps_store_process_contact self contact :
  keeps_store (KlaviyoClient.process_contact server self contact).
Proof.
  unfold KlaviyoClient.process_contact, KlaviyoClient.process_contact_body.
  apply keeps_store_try; auto with store.
  apply keeps_store_bind.
  - unfold KlaviyoClient.upsert_profile.
    apply keeps_store_bind; [apply keeps_store_request|].
    intros result. destruct (Json.truthy result); auto with store.
    apply keeps_store_bind; auto with store.
  - intros profile_id. apply keeps_store_bind.
    + destruct (Json.truthy profile_id); auto with store.
      unfold KlaviyoClient.add_to_list.
      destruct (negb (PyStr.truthy (KlaviyoClient.list_id self))); auto with store.
      apply keeps_store_bind; [apply keeps_store_request|auto with store].
    + intros _. apply keeps_store_bind; auto with store.
      unfold KlaviyoClient.create_event.
      destruct (negb (KlaviyoClient.is_extended (KlaviyoClient.mode self)));
        auto with store.
      apply keeps_store_bind; [apply keeps_store_request|auto with store].
Qed.

(** [process_contact] hands a boolean to its caller, whatever the server
    does. *)
Lemma process_contact_returns self contact w :
  exists ok w', KlaviyoClient.process_contact server self contact w = (Ok ok, w').
Proof.
  unfold KlaviyoClient.process_contact, try_except.
  destruct (KlaviyoClient.process_contact_body server self contact w) as [[ok|e] w'];
    unfold ret; eauto.
Qed.

(** Against a server that only answers 429 the loop sends once per attempt
    number and then falls through to [return None]. *)
Lemma request_loop_rate_limited req attempts :
  always_rate_limited server ->
  forall backoff w,
  exists w',
    KlaviyoClient.request_loop server req attempts backoff w = (Ok Json.JNull, w') /\
    sent w' = sent w ++ repeat req (List.length attempts).
Proof.
  intros Hlimited. induction attempts as [|attempt rest IH]; intros backoff w.
  - exists w. split; [reflexivity|]. simpl. now rewrite app_nil_r.
  - cbn [KlaviyoClient.request_loop]. unfold bind at 1. unfold KlaviyoClient.send.
    destruct (Hlimited (sent w) req) as (response & -> & Hstatus & Hheader).
    rewrite Hstatus. cbn [Z.eqb Pos.eqb].
    set (w1 := {| table := table w; commits := commits w;
                  sent := sent w ++ [req]; slept := slept w |}).
    destruct (retry_after response) as [|q|]; [| |congruence].
    + unfold bind, KlaviyoClient.sleep.
      match goal with
      | |- context [KlaviyoClient.request_loop server req rest ?b ?w2] =>
          destruct (IH b w2) as (w' & Hrun & Hsent)
      end.
      exists w'. split; [exact Hrun|]. rewrite Hsent. simpl.
      now rewrite <- app_assoc.
    + unfold bind, KlaviyoClient.sleep.
      match goal with
      | |- context [KlaviyoClient.request_loop server req rest ?b ?w2] =>
          destruct (IH b w2) as (w' & Hrun & Hsent)
      end.
      exists w'. split; [exact Hrun|]. rewrite Hsent. simpl.
      now rewrite <- app_assoc.
Qed.

End ClientProperties.

Section ForwardBoundary.

Variable server : Server.

Implicit Types (self : KlaviyoClient.t) (contact : PC.t) (w : World).

Lemma request_rate_limited method url json_data w :
  always_rate_limited server ->
  exists w',
    KlaviyoClient._request server method url json_data w = (Ok Json.JNull, w') /\
    sent w' = sent w ++ repeat (mkRequest method url json_data) KlaviyoClient.MAX_RETRIES.
Proof.
  intros Hlimited. unfold KlaviyoClient._request.
  destruct (request_loop_rate_limited server (mkRequest method url json_data)
              (seq 1 KlaviyoClient.MAX_RETRIES) Hlimited KlaviyoClient.INITIAL_BACKOFF w)
    as (w' & Hrun & Hsent).
  exists w'. split; [exact Hrun|]. now rewrite Hsent, length_seq.
Qed.

(** C2, as the code behaves. Against a server that answers every request
    with 429, [_request] sends the request exactly [MAX_RETRIES] times;
    it then returns [None] as after a 204 instead of raising, and
    [process_contact] reports the contact as forwarded. *)
Theorem rate_limited_request_is_not_reported :
  always_rate_limited server ->
  forall method url json_data self contact w,
    (exists w',
       KlaviyoClient._request server method url json_data w = (Ok Json.JNull, w') /\
       sent w' =
         sent w ++ repeat (mkRequest method url json_data) KlaviyoClient.MAX_RETRIES) /\
    (exists w', KlaviyoClient.process_contact server self contact w = (Ok true, w')).
Proof.
  intros Hlimited method url json_data self contact w.
  split; [now apply request_rate_limited|].
  unfold KlaviyoClient.process_contact, try_except,
    KlaviyoClient.process_contact_body, KlaviyoClient.upsert_profile.
  unfold bind at 1 2.
  destruct (request_rate_limited "POST" (KlaviyoClient.BASE_URL ++ "/profile-import")%string
              (ProfilePayload contact (KlaviyoClient.mode self)) w Hlimited)
    as (w1 & -> & _).
  cbn [Json.truthy]. unfold ret at 1. cbn [Json.truthy]. unfold bind at 1. unfold ret at 1.
  unfold bind at 1. unfold KlaviyoClient.create_event.
  destruct (KlaviyoClient.mode self); cbn [KlaviyoClient.is_extended negb].
  - unfold ret. eauto.
  - unfold bind at 1.
    destruct (request_rate_limited "POST" (KlaviyoClient.BASE_URL ++ "/events")%string
                (EventPayload contact) w1 Hlimited)
      as (w2 & -> & _).
    unfold ret. eauto.
Qed.

(** C7. [process_contact] always hands a boolean to its caller, never an
    exception. The boolean is false exactly when the profile upsert
    raised, or the list-membership add it led to raised, or the event
    creation raised; in every other case it is true. The world it leaves
    is the one left by the last step it ran. Without a list id the add
    returns without a request, outside extended mode so does the event,
    and a run in which both later steps are skipped is a success. *)
Theorem process_contact_boundary self contact w :
  exists ok w',
    KlaviyoClient.process_contact server self contact w = (Ok ok, w') /\
    (ok = false <->
       (exists e, fst (KlaviyoClient.upsert_profile server self contact w) = Raise e) \/
       (exists profile_id w1 e,
          KlaviyoClient.upsert_profile server self contact w = (Ok profile_id, w1) /\
          Json.truthy profile_id = true /\
          fst (KlaviyoClient.add_to_list server self profile_id w1) = Raise e) \/
       (exists profile_id w1 w2 e,
          KlaviyoClient.upsert_profile server self contact w = (Ok profile_id, w1) /\
          (if Json.truthy profile_id
           then KlaviyoClient.add_to_list server self profile_id w1
           else (Ok tt, w1)) = (Ok tt, w2) /\
          fst (KlaviyoClient.create_event server self contact w2) = Raise e)) /\
    ((forall e w1,
        KlaviyoClient.upsert_profile server self contact w = (Raise e, w1) -> w' = w1) /\
     (forall profile_id w1 e w2,
        KlaviyoClient.upsert_profile server self contact w = (Ok profile_id, w1) ->
        Json.truthy profile_id = true ->
        KlaviyoClient.add_to_list server self profile_id w1 = (Raise e, w2) -> w' = w2) /\
     (forall profile_id w1 w2 r w3,
        KlaviyoClient.upsert_profile server self contact w = (Ok profile_id, w1) ->
        (if Json.truthy profile_id
         then KlaviyoClient.add_to_list server self profile_id w1
         else (Ok tt, w1)) = (Ok tt, w2) ->
        KlaviyoClient.create_event server self contact w2 = (r, w3) -> w' = w3)) /\
    (KlaviyoClient.list_id self = "" ->
     forall profile_id w1,
       KlaviyoClient.add_to_list server self profile_id w1 = (Ok tt, w1)) /\
    (KlaviyoClient.mode self = SIMPLE ->
     forall w2, KlaviyoClient.create_event server self contact w2 = (Ok tt, w2)) /\
    (forall profile_id w1,
       KlaviyoClient.upsert_profile server self contact w = (Ok profile_id, w1) ->
       KlaviyoClient.list_id self = "" \/ Json.truthy profile_id = false ->
       KlaviyoClient.mode self = SIMPLE ->
       ok = true /\ w' = w1).
Proof.
  assert (Hlist : KlaviyoClient.list_id self = "" ->
                  forall profile_id w1,
                    KlaviyoClient.add_to_list server self profile_id w1 = (Ok tt, w1)).
  { intros Hid profile_id w1. unfold KlaviyoClient.add_to_list. now rewrite Hid. }
  assert (Hmode : KlaviyoClient.mode self = SIMPLE ->
                  forall w2, KlaviyoClient.create_event server self contact w2 = (Ok tt, w2)).
  { intros Hm w2. unfold KlaviyoClient.create_event. now rewrite Hm. }
  unfold KlaviyoClient.process_contact, try_except, KlaviyoClient.process_contact_body.
  unfold bind at 1.
  destruct (KlaviyoClient.upsert_profile server self contact w) as [[profile_id|e] w1]
    eqn:Hupsert.
  2:{ exists false, w1. unfold ret.
      split; [reflexivity|].
      split; [|split; [|split; [exact Hlist|split; [exact Hmode|]]]].
      - split; [intros _|reflexivity]. left. now exists e.
      - split; [|split].
        + intros e0 w0 Heq. now inversion Heq.
        + intros p w0 e0 w2 Heq. discriminate.
        + intros p w0 w2 r w3 Heq. discriminate.
      - intros p w0 Heq. discriminate. }
  unfold bind at 1.
  assert (Hif : forall (b : bool) (f g : M unit) w0,
             (if b then f else g) w0 = if b then f w0 else g w0)
    by (intros []; reflexivity).
  rewrite Hif. clear Hif.
  destruct (if Json.truthy profile_id
            then KlaviyoClient.add_to_list server self profile_id w1
            else ret tt w1) as [[[]|e] w2] eqn:Hadd; unfold ret in Hadd.
  2:{ exists false, w2. unfold ret.
      split; [reflexivity|].
      split; [|split; [|split; [exact Hlist|split; [exact Hmode|]]]].
      - split; [intros _|reflexivity]. right. left. exists profile_id, w1, e.
        destruct (Json.truthy profile_id); [|discriminate].
        rewrite Hadd. auto.
      - split; [|split].
        + intros e0 w0 Heq. discriminate.
        + intros p w0 e0 w3 Heq Hp Ha. inversion Heq; subst p w0.
          rewrite Hp in Hadd. congruence.
        + intros p w0 w3 r w4 Heq Ha. inversion Heq; subst p w0. congruence.
      - intros p w0 Heq Hskip Hm. inversion Heq; subst p w0.
        destruct Hskip as [Hid|Hp].
        + destruct (Json.truthy profile_id); [|discriminate].
          rewrite (Hlist Hid) in Hadd. discriminate.
        + rewrite Hp in Hadd. discriminate. }
  unfold bind at 1.
  destruct (KlaviyoClient.create_event server self contact w2) as [[[]|e] w3] eqn:Hevent.
  - exists true, w3. unfold ret.
    split; [reflexivity|].
    split; [|split; [|split; [exact Hlist|split; [exact Hmode|]]]].
    + split; [discriminate|].
      intros [[e He]|[(p & w0 & e & Heq & Hp & He)|(p & w0 & w4 & e & Heq & Ha & He)]].
      * discriminate.
      * inversion Heq; subst p w0. rewrite Hp in Hadd. rewrite Hadd in He. discriminate.
      * inversion Heq; subst p w0. rewrite Hadd in Ha. inversion Ha; subst w4.
        rewrite Hevent in He. discriminate.
    + split; [|split].
      * intros e0 w0 Heq. discriminate.
      * intros p w0 e0 w4 Heq Hp Ha. inversion Heq; subst p w0.
        rewrite Hp in Hadd. congruence.
      * intros p w0 w4 r w5 Heq Ha Hev. inversion Heq; subst p w0.
        rewrite Hadd in Ha. inversion Ha; subst w4. congruence.
    + intros p w0 Heq Hskip Hm. inversion Heq; subst p w0.
      rewrite (Hmode Hm) in Hevent. inversion Hevent; subst w3.
      split; [reflexivity|]. destruct Hskip as [Hid|Hp].
      * destruct (Json.truthy profile_id).
        -- rewrite (Hlist Hid) in Hadd. congruence.
        -- congruence.
      * rewrite Hp in Hadd. congruence.
  - exists false, w3. unfold ret.
    split; [reflexivity|].
    split; [|split; [|split; [exact Hlist|split; [exact Hmode|]]]].
    + split; [intros _|reflexivity]. right. right. exists profile_id, w1, w2, e.
      rewrite Hevent. auto.
    + split; [|split].
      * intros e0 w0 Heq. discriminate.
      * intros p w0 e0 w4 Heq Hp Ha. inversion Heq; subst p w0.
        rewrite Hp in Hadd. congruence.
      * intros p w0 w4 r w5 Heq Ha Hev. inversion Heq; subst p w0.
        rewrite Hadd in Ha. inversion Ha; subst w4. congruence.
    + intros p w0 Heq _ Hm. rewrite (Hmode Hm) in Hevent. discriminate.
Qed.

End ForwardBoundary.

(** In simple mode without a list id the two later steps make no request. *)
Lemma process_contact_boundary_witness :
  KlaviyoClient.add_to_list Fixtures.unreachable_server Fixtures.simple_client
                            (Json.JStr "01HXYZ") Fixtures.sample_world
  = (Ok tt, Fixtures.sample_world) /\
  KlaviyoClient.create_event Fixtures.unreachable_server Fixtures.simple_client
                             Fixtures.sample_contact Fixtures.sample_world
  = (Ok tt, Fixtures.sample_world).
Proof.
  destruct (process_contact_boundary Fixtures.unreachable_server Fixtures.simple_client
              Fixtures.sample_contact Fixtures.sample_world)
    as (ok & w' & _ & _ & _ & Hlist & Hmode & _).
  split; [apply Hlist; reflexivity|apply Hmode; reflexivity].
Defined.

(** A server that refuses every connection: the upsert gives up after
    [MAX_RETRIES] requests and the contact is reported as failed. *)
Lemma process_contact_unreachable :
  exists w',
    KlaviyoClient.process_contact Fixtures.unreachable_server Fixtures.extended_client
                                  Fixtures.sample_contact Fixtures.sample_world
    = (Ok false, w') /\
    List.length (sent w') = KlaviyoClient.MAX_RETRIES.
Proof. eexists. split; [vm_compute; reflexivity|reflexivity]. Qed.

Lemma rate_limited_request_is_not_reported_witness :
  (exists w',
     KlaviyoClient._request Fixtures.rate_limiting_server "POST" "https://a.klaviyo.com/api/events"
                            NoPayload Fixtures.sample_world = (Ok Json.JNull, w') /\
     sent w' =
       sent Fixtures.sample_world ++
       repeat (mkRequest "POST" "https://a.klaviyo.com/api/events" NoPayload)
              KlaviyoClient.MAX_RETRIES) /\
  (exists w',
     KlaviyoClient.process_contact Fixtures.rate_limiting_server Fixtures.simple_client
                                   Fixtures.sample_contact Fixtures.sample_world
     = (Ok true, w')).
Proof.
  apply (rate_limited_request_is_not_reported Fixtures.rate_limiting_server).
  intros history req. eexists. split; [reflexivity|]. split; [reflexivity|discriminate].
Defined.

(** ** Properties of a sync run *)

Section RunProperties.

Variable server : Server.
Variable klaviyo_client : KlaviyoClient.t.
Variable max_variable_number : nat.

Implicit Types (w : World) (rows : list Row.t) (ids : list Z).

(** Forwarding attempts every contact, counts each once, and leaves the
    table alone. *)
Lemma forward_all_returns contacts :
  forall success_count failed_count w,
  exists s f w',
    Scheduler.forward_all server klaviyo_client contacts success_count failed_count w
    = (Ok (s, f), w') /\
    table w' = table w /\ commits w' = commits w /\
    s + f = success_count + failed_count + Z.of_nat (List.length contacts).
Proof.
  induction contacts as [|contact rest IH]; intros sc fc w.
  - exists sc, fc, w. simpl. unfold ret. repeat split; lia.
  - cbn [Scheduler.forward_all]. unfold bind.
    destruct (process_contact_returns server klaviyo_client contact w) as (ok & w1 & Hrun).
    destruct (keeps_store_process_contact server klaviyo_client contact w) as [Ht Hc].
    rewrite Hrun in *. simpl in Ht, Hc.
    destruct ok.
    + destruct (IH (sc + 1) fc w1) as (s & f & w' & -> & Ht' & Hc' & Hsum).
      exists s, f, w'. repeat split; try congruence.
      rewrite Hsum. cbn [List.length]. lia.
    + destruct (IH sc (fc + 1) w1) as (s & f & w' & -> & Ht' & Hc' & Hsum).
      exists s, f, w'. repeat split; try congruence.
      rewrite Hsum. cbn [List.length]. lia.
Qed.

Lemma ids_of_fetched rows :
  Scheduler.ids_of (map Database.to_intention rows) = map Row.id rows.
Proof.
  induction rows as [|r rows IH]; simpl; [reflexivity|]. now rewrite IH.
Qed.

(** Once the ids of all selected rows are marked, the query selects
    nothing. *)
Lemma nothing_left target_date ids rows :
  (forall r, In r rows -> Database.selected target_date r = true -> In (Row.id r) ids) ->
  filter (Database.selected target_date) (Database.update_processed ids rows) = [].
Proof.
  induction rows as [|r rows IH]; intros Hcover; simpl; [reflexivity|].
  rewrite IH by (intros r' Hin; apply Hcover; now right).
  destruct (Database.id_in ids (Row.id r)) eqn:Hin.
  - unfold Database.selected. simpl. reflexivity.
  - destruct (Database.selected target_date r) eqn:Hsel; [|reflexivity].
    apply Hcover in Hsel; [|now left]. apply id_in_spec in Hsel. congruence.
Qed.

Lemma marked_rows_processed ids rows row :
  In row (Database.update_processed ids rows) -> In (Row.id row) ids ->
  Row.processed row = true.
Proof.
  unfold Database.update_processed. rewrite in_map_iff.
  intros [r [Hrow _]] Hin.
  destruct (Database.id_in ids (Row.id r)) eqn:Hmem; subst row; [reflexivity|].
  apply id_in_spec in Hin. congruence.
Qed.

(** C9. When the query for the target date finds nothing, the run returns
    the all-zero result for that date and leaves the world as it was: no
    request is sent and nothing is written. *)
Theorem run_daily_sync_empty_day today target_date w :
  Database.get_unprocessed_intentions (Some (effective_date today target_date)) w
  = (Ok [], w) ->
  Scheduler.run_daily_sync server klaviyo_client max_variable_number today target_date w =
  (Ok {| Scheduler.date := effective_date today target_date;
         Scheduler.intentions_found := 0;
         Scheduler.contacts_processed := 0;
         Scheduler.success := 0;
         Scheduler.failed := 0 |}, w).
Proof.
  intros Hnone. unfold Scheduler.run_daily_sync. fold (effective_date today target_date).
  unfold bind at 1. rewrite Hnone. reflexivity.
Qed.

(** A run that found records, step by step: aggregate, forward, mark. *)
Lemma run_daily_sync_steps today target_date w fetched contacts counts w1 :
  Database.get_unprocessed_intentions (Some (effective_date today target_date)) w
  = (Ok fetched, w) ->
  fetched <> [] ->
  Processor.aggregate_intentions fetched = Ok contacts ->
  Scheduler.forward_all server klaviyo_client contacts 0 0 w = (Ok counts, w1) ->
  Scheduler.run_daily_sync server klaviyo_client max_variable_number today target_date w =
  match Database.mark_as_processed max_variable_number (Scheduler.ids_of fetched) w1 with
  | (Ok _, w2) =>
      (Ok {| Scheduler.date := effective_date today target_date;
             Scheduler.intentions_found := Z.of_nat (List.length fetched);
             Scheduler.contacts_processed := Z.of_nat (List.length contacts);
             Scheduler.success := fst counts;
             Scheduler.failed := snd counts |}, w2)
  | (Raise e, w2) => (Raise e, w2)
  end.
Proof.
  intros Hfetch Hne Hagg Hfwd.
  unfold Scheduler.run_daily_sync. fold (effective_date today target_date).
  unfold bind at 1. rewrite Hfetch.
  destruct fetched as [|r0 rest]; [congruence|].
  unfold bind at 1. unfold lift. rewrite Hagg.
  unfold bind at 1. rewrite Hfwd.
  unfold bind at 1.
  destruct (Database.mark_as_processed max_variable_number (Scheduler.ids_of (r0 :: rest)) w1)
    as [[[]|e] w2]; reflexivity.
Qed.

(** What the query returns, and the ids the run collects from it. *)
Lemma fetched_ids target_date w fetched :
  Database.get_unprocessed_intentions target_date w = (Ok fetched, w) ->
  let rows := Database.order_by_created_at (filter (Database.selected target_date) (table w)) in
  fetched = map Database.to_intention rows /\
  Scheduler.ids_of fetched = map Row.id rows /\
  List.length (Scheduler.ids_of fetched) = List.length fetched.
Proof.
  intros Hfetch rows.
  assert (Hfetched : fetched = map Database.to_intention rows).
  { unfold Database.get_unprocessed_intentions in Hfetch. now inversion Hfetch. }
  split; [exact Hfetched|]. rewrite Hfetched, ids_of_fetched.
  split; [reflexivity|]. now rewrite !length_map.
Qed.

(** C1, as the code behaves. When the query for the target date finds
    records, the run aggregates them and forwards every contact, whatever
    the server answers. With no more records than SQLite takes parameters
    it then marks them and returns: the table keeps its rows, the row of
    every fetched record has the processed flag set, no other row and no
    other column changed, and the same query finds nothing. With more
    records the one [UPDATE] raises [sqlite3.OperationalError] after the
    forwarding: the run raises, no row is marked, and the same query
    finds the same records again. *)
Theorem run_daily_sync_drains today target_date w fetched :
  Database.get_unprocessed_intentions (Some (effective_date today target_date)) w
  = (Ok fetched, w) ->
  fetched <> [] ->
  exists contacts counts w1,
    Processor.aggregate_intentions fetched = Ok contacts /\
    Scheduler.forward_all server klaviyo_client contacts 0 0 w = (Ok counts, w1) /\
    ((List.length fetched <= max_variable_number)%nat ->
     exists result w',
       Scheduler.run_daily_sync server klaviyo_client max_variable_number
                                today target_date w = (Ok result, w') /\
       Forall2 (fun r r' =>
                  same_columns r r' /\
                  (~ In (Row.id r) (Scheduler.ids_of fetched) -> r' = r) /\
                  (In (Row.id r) (Scheduler.ids_of fetched) -> Row.processed r' = true))
               (table w) (table w') /\
       (forall r, In r fetched ->
          exists i row, BI.id r = Some i /\ In row (table w') /\
                        Row.id row = i /\ Row.processed row = true) /\
       Database.get_unprocessed_intentions (Some (effective_date today target_date)) w'
       = (Ok [], w') /\
       commits w' = S (commits w) /\ sent w' = sent w1 /\
       result = {| Scheduler.date := effective_date today target_date;
                   Scheduler.intentions_found := Z.of_nat (List.length fetched);
                   Scheduler.contacts_processed := Z.of_nat (List.length contacts);
                   Scheduler.success := fst counts;
                   Scheduler.failed := snd counts |} /\
       Scheduler.success result + Scheduler.failed result
       = Scheduler.contacts_processed result) /\
    ((max_variable_number < List.length fetched)%nat ->
     Scheduler.run_daily_sync server klaviyo_client max_variable_number
                              today target_date w = (Raise OperationalError, w1) /\
     table w1 = table w /\
     Database.get_unprocessed_intentions (Some (effective_date today target_date)) w1
     = (Ok fetched, w1)).
Proof.
  intros Hfetch Hne.
  set (day := effective_date today target_date) in *.
  destruct (fetched_ids (Some day) w fetched Hfetch) as (Hfetched & Hids & Hlen).
  set (rows := Database.order_by_created_at
                 (filter (Database.selected (Some day)) (table w))) in *.
  destruct (aggregate_total fetched) as [contacts Hagg].
  { rewrite Hfetched. apply to_intention_has_created_at. }
  destruct (forward_all_returns contacts 0 0 w) as (s & f & w1 & Hfwd & Ht & Hc & Hsum).
  pose proof (run_daily_sync_steps today target_date w fetched contacts (s, f) w1
                Hfetch Hne Hagg Hfwd) as Hrun.
  fold day in Hrun.
  exists contacts, (s, f), w1. split; [exact Hagg|]. split; [exact Hfwd|]. split.
  - intros Hfit. rewrite <- Hlen in Hfit.
    rewrite (mark_as_processed_within max_variable_number _ w1 Hfit) in Hrun.
    destruct (Scheduler.ids_of fetched) as [|i ids] eqn:Hall.
    { exfalso. destruct fetched; [congruence|discriminate]. }
    eexists. eexists. split; [exact Hrun|]. cbn [table commits sent]. rewrite Ht, Hc.
    assert (Hrows : Forall2 (fun r r' =>
                       same_columns r r' /\
                       (In (Row.id r) (i :: ids) -> Row.processed r' = true) /\
                       (~ In (Row.id r) (i :: ids) -> r' = r))
                    (table w) (Database.update_processed (i :: ids) (table w)))
      by apply update_processed_rows.
    split; [|split; [|split; [|split; [|split; [|split]]]]].
    + eapply Forall2_impl; [|exact Hrows]. cbv beta. tauto.
    + intros r Hin. rewrite Hfetched in Hin. apply in_map_iff in Hin.
      destruct Hin as [row0 [<- Hrow0]].
      assert (Hin0 : In row0 (table w)).
      { apply (proj1 (in_order_by_created_at _ _)) in Hrow0.
        apply filter_In in Hrow0. tauto. }
      assert (Hid0 : In (Row.id row0) (i :: ids)).
      { rewrite Hids. now apply in_map. }
      exists (Row.id row0), (Database.set_processed row0).
      split; [reflexivity|]. split; [|split; reflexivity].
      unfold Database.update_processed. apply in_map_iff. exists row0.
      split; [|exact Hin0]. now rewrite (proj2 (id_in_spec _ _) Hid0).
    + unfold Database.get_unprocessed_intentions. cbn [table].
      rewrite (nothing_left (Some day) (i :: ids) (table w)); [reflexivity|].
      intros r Hin Hsel. rewrite Hids. apply in_map.
      apply in_order_by_created_at. apply filter_In. now split.
    + reflexivity.
    + reflexivity.
    + reflexivity.
    + cbn [Scheduler.success Scheduler.failed Scheduler.contacts_processed fst snd]. lia.
  - intros Hover. rewrite <- Hlen in Hover.
    rewrite (mark_as_processed_beyond max_variable_number _ w1 Hover) in Hrun.
    split; [exact Hrun|]. split; [exact Ht|].
    unfold Database.get_unprocessed_intentions in *. rewrite Ht.
    inversion Hfetch as [Heq]. now rewrite Heq.
Qed.

End RunProperties.

Lemma run_daily_sync_empty_day_witness :
  Scheduler.run_daily_sync Fixtures.unreachable_server Fixtures.extended_client
                           Fixtures.sqlite_limit 2 None Fixtures.drained_world =
  (Ok {| Scheduler.date := 1;
         Scheduler.intentions_found := 0;
         Scheduler.contacts_processed := 0;
         Scheduler.success := 0;
         Scheduler.failed := 0 |}, Fixtures.drained_world).
Proof.
  apply (run_daily_sync_empty_day Fixtures.unreachable_server Fixtures.extended_client
                                  Fixtures.sqlite_limit 2 None Fixtures.drained_world).
  reflexivity.
Defined.

Lemma busy_day_selected :
  Forall (fun r => Database.selected (Some 1) r = true) (table Fixtures.busy_day).
Proof.
  apply Forall_forall. intros r Hr. cbn [Fixtures.busy_day table] in Hr.
  apply in_map_iff in Hr. destruct Hr as [i [<- Hi]]. apply in_seq in Hi.
  unfold Database.selected, Database.date_of.
  cbn [Row.processed Row.created_at Fixtures.sample_row negb andb].
  apply Z.eqb_eq. symmetry. apply (Z.div_unique _ _ 1 (Z.of_nat i)); [|lia].
  left. unfold Fixtures.sqlite_limit in Hi. lia.
Qed.

(** The query on the busy day returns every row, in rowid order. *)
Lemma busy_day_fetch :
  Database.get_unprocessed_intentions (Some 1) Fixtures.busy_day
  = (Ok (map Database.to_intention (table Fixtures.busy_day)), Fixtures.busy_day).
Proof.
  unfold Database.get_unprocessed_intentions.
  rewrite (filter_all _ _ busy_day_selected).
  rewrite order_by_created_at_ascending; [reflexivity|].
  cbn [Fixtures.busy_day table]. apply map_seq_ascending.
  intros i j Hij. cbn [Row.created_at Fixtures.sample_row]. lia.
Qed.

Lemma busy_day_size : day_size 1 Fixtures.busy_day = S Fixtures.sqlite_limit.
Proof.
  unfold day_size. rewrite (filter_all _ _ busy_day_selected).
  cbn [Fixtures.busy_day table]. now rewrite length_map, length_seq.
Qed.

(** Two runs against a server that refuses every connection, with the
    parameter limit of a default SQLite build. On the sample day (two
    records) the run returns and the day is drained. On the busy day (one
    record more than the limit) the run raises, the table is as before
    and the query returns the same records. *)
Lemma run_daily_sync_drains_witness :
  (exists result w',
     Scheduler.run_daily_sync Fixtures.unreachable_server Fixtures.extended_client
                              Fixtures.sqlite_limit 2 None Fixtures.sample_world
     = (Ok result, w') /\
     Database.get_unprocessed_intentions (Some 1) w' = (Ok [], w') /\
     Scheduler.intentions_found result = 2) /\
  (exists w1,
     Scheduler.run_daily_sync Fixtures.unreachable_server Fixtures.extended_client
                              Fixtures.sqlite_limit 2 None Fixtures.busy_day
     = (Raise OperationalError, w1) /\
     table w1 = table Fixtures.busy_day /\
     Database.get_unprocessed_intentions (Some 1) w1
     = (Ok (map Database.to_intention (table Fixtures.busy_day)), w1)).
Proof.
  split.
  - destruct (run_daily_sync_drains Fixtures.unreachable_server Fixtures.extended_client
                Fixtures.sqlite_limit 2 None Fixtures.sample_world
                (map Database.to_intention
                     [Fixtures.sample_row 1 "A@x.com" INTENTION 86400 false;
                      Fixtures.sample_row 2 "a@x.com " APPOINTMENT 86460 false]))
      as (contacts & counts & w1 & _ & _ & Hfit & _); [reflexivity|discriminate|].
    destruct Hfit as (result & w' & Hrun & _ & _ & Hnone & _ & _ & Hresult & _).
    { apply Nat.leb_le. reflexivity. }
    exists result, w'. split; [exact Hrun|]. split; [exact Hnone|].
    rewrite Hresult. reflexivity.
  - destruct (run_daily_sync_drains Fixtures.unreachable_server Fixtures.extended_client
                Fixtures.sqlite_limit 2 None Fixtures.busy_day
                (map Database.to_intention (table Fixtures.busy_day)))
      as (contacts & counts & w1 & _ & _ & _ & Hover).
    + exact busy_day_fetch.
    + cbn [Fixtures.busy_day table seq map]. discriminate.
    + exists w1. apply Hover.
      cbn [Fixtures.busy_day table]. rewrite !length_map, length_seq.
      apply Nat.lt_succ_diag_r.
Defined.

(** The run on the sample day, spelled out: one contact, reported as
    failed, and both rows of day 1 processed. *)
Lemma run_daily_sync_unreachable :
  exists w',
    Scheduler.run_daily_sync Fixtures.unreachable_server Fixtures.extended_client
                             Fixtures.sqlite_limit 2 None
                             Fixtures.sample_world
    = (Ok {| Scheduler.date := 1;
             Scheduler.intentions_found := 2;
             Scheduler.contacts_processed := 1;
             Scheduler.success := 0;
             Scheduler.failed := 1 |}, w') /\
    map Row.processed (table w') = [true; true; true; false] /\
    commits w' = 1%nat.
Proof. eexists. split; [vm_compute; reflexivity|]. split; reflexivity. Qed.

(** ** Further properties: the retry loop *)

Section RetryLoop.

Variable server : Server.

Implicit Types (w : World) (req : Request) (backoff : Q).

(** One turn of the loop. *)
Lemma request_loop_step req attempt rest backoff w :
  KlaviyoClient.request_loop server req (attempt :: rest) backoff w =
  let o := server (sent w) req in
  let w1 := after_send req w in
  let next := KlaviyoClient.request_loop server req rest (backoff * 2)%Q
                                         (after_sleep (pause backoff o) w1) in
  if rate_limited o then next
  else if failed o then
         if Nat.eqb attempt KlaviyoClient.MAX_RETRIES then (Raise (failure_of o), w1)
         else next
       else
         match o with
         | Answered r =>
             if status_code r =? 429 then (Raise ValueError, w1) else (decoded r, w1)
         | _ => (Raise OtherException, w1)
         end.
Proof.
  cbn [KlaviyoClient.request_loop]. unfold bind at 1. unfold KlaviyoClient.send.
  cbv zeta. fold (after_send req w).
  destruct (server (sent w) req) as [r| |]; cbn [rate_limited failed pause failure_of].
  - destruct (status_code r =? 429) eqn:H429; cbn [andb negb].
    + destruct (retry_after r); reflexivity.
    + destruct (KlaviyoClient.is_success (status_code r)); cbn [negb].
      * unfold decoded. destruct (status_code r =? 204); [reflexivity|].
        destruct (body r); reflexivity.
      * destruct (Nat.eqb attempt KlaviyoClient.MAX_RETRIES); reflexivity.
  - destruct (Nat.eqb attempt KlaviyoClient.MAX_RETRIES); reflexivity.
  - reflexivity.
Qed.

Lemma answer_after_send w req i :
  answer server (after_send req w) req i = answer server w req (S i).
Proof.
  unfold answer, after_send. cbn [sent repeat]. now rewrite <- app_assoc.
Qed.

Lemma answer_after_sleep q w req i :
  answer server (after_sleep q w) req i = answer server w req i.
Proof. reflexivity. Qed.

Lemma answer_first w req : answer server w req 0 = server (sent w) req.
Proof. unfold answer. simpl. now rewrite app_nil_r. Qed.

Lemma pauses_ext f g backoff n :
  (forall i, (i < n)%nat -> f i = g i) -> pauses f backoff n = pauses g backoff n.
Proof.
  revert f g backoff. induction n as [|n IH]; intros f g backoff Hext; [reflexivity|].
  cbn [pauses]. rewrite (Hext O) by lia. f_equal.
  apply IH. intros i Hi. apply Hext. lia.
Qed.

(** Whatever the server does, the loop sends the request at least once and
    at most once per attempt number, and only that request. *)
Lemma request_loop_bounded req attempts :
  forall backoff w,
  exists n,
    (n <= List.length attempts)%nat /\
    (attempts <> [] -> (1 <= n)%nat) /\
    sent (snd (KlaviyoClient.request_loop server req attempts backoff w))
    = sent w ++ repeat req n /\
    (List.length (slept (snd (KlaviyoClient.request_loop server req attempts backoff w)))
     <= List.length (slept w) + n)%nat.
Proof.
  induction attempts as [|attempt rest IH]; intros backoff w.
  - exists O. cbn. rewrite app_nil_r. repeat split; try lia. congruence.
  - rewrite request_loop_step. cbv zeta.
    assert (Hstop : forall (r : result Json.t),
               exists n,
                 (n <= List.length (attempt :: rest))%nat /\
                 (attempt :: rest <> [] -> (1 <= n)%nat) /\
                 sent (snd (r, after_send req w)) = sent w ++ repeat req n /\
                 (List.length (slept (snd (r, after_send req w)))
                  <= List.length (slept w) + n)%nat).
    { intros r. exists 1%nat. cbn. repeat split; lia. }
    assert (Hnext : forall q,
               exists n,
                 (n <= List.length (attempt :: rest))%nat /\
                 (attempt :: rest <> [] -> (1 <= n)%nat) /\
                 sent (snd (KlaviyoClient.request_loop server req rest (backoff * 2)%Q
                              (after_sleep q (after_send req w))))
                 = sent w ++ repeat req n /\
                 (List.length (slept (snd (KlaviyoClient.request_loop server req rest
                                             (backoff * 2)%Q
                                             (after_sleep q (after_send req w)))))
                  <= List.length (slept w) + n)%nat).
    { intros q.
      destruct (IH (backoff * 2)%Q (after_sleep q (after_send req w)))
        as (n & Hle & _ & Hsent & Hslept).
      exists (S n). cbn [List.length]. repeat split; try lia.
      - rewrite Hsent. cbn [after_sleep after_send sent repeat].
        now rewrite <- app_assoc.
      - cbn [after_sleep after_send slept] in Hslept. rewrite length_app in Hslept.
        cbn [List.length] in Hslept. lia. }
    destruct (rate_limited (server (sent w) req)); [apply Hnext|].
    destruct (failed (server (sent w) req)).
    + destruct (Nat.eqb attempt KlaviyoClient.MAX_RETRIES); [apply Hstop|apply Hnext].
    + destruct (server (sent w) req) as [r| |]; try apply Hstop.
      destruct (status_code r =? 429); apply Hstop.
Qed.

(** If the first [k] answers are rate limits or failures and the next one
    is a 2xx, the loop returns what that answer carries after [k + 1]
    requests, having waited once after each unsuccessful attempt. *)
Lemma request_loop_recovers req :
  forall k first count backoff w r,
    (k < count)%nat ->
    (first + k <= KlaviyoClient.MAX_RETRIES)%nat ->
    (forall i, (i < k)%nat ->
               rate_limited (answer server w req i) = true \/
               failed (answer server w req i) = true) ->
    answer server w req k = Answered r ->
    KlaviyoClient.is_success (status_code r) = true ->
    exists w',
      KlaviyoClient.request_loop server req (seq first count) backoff w = (decoded r, w') /\
      sent w' = sent w ++ repeat req (S k) /\
      slept w' = slept w ++ pauses (answer server w req) backoff k /\
      table w' = table w /\ commits w' = commits w.
Proof.
  induction k as [|k IH]; intros first count backoff w r Hk Hfirst Hbad Hgood Hok.
  - destruct count as [|count]; [lia|]. cbn [seq]. rewrite request_loop_step. cbv zeta.
    rewrite answer_first in Hgood. rewrite Hgood.
    assert (H429 : (status_code r =? 429) = false).
    { unfold KlaviyoClient.is_success in Hok. apply andb_prop in Hok.
      destruct Hok as [_ Hle]. apply Z.leb_le in Hle. apply Z.eqb_neq. lia. }
    cbn [rate_limited failed]. rewrite H429, Hok. cbn [andb negb].
    exists (after_send req w). cbn. rewrite app_nil_r. repeat split; reflexivity.
  - destruct count as [|count]; [lia|]. cbn [seq]. rewrite request_loop_step. cbv zeta.
    assert (Hnot_last : Nat.eqb first KlaviyoClient.MAX_RETRIES = false)
      by (apply Nat.eqb_neq; lia).
    set (o := server (sent w) req).
    assert (Ho : answer server w req 0 = o) by apply answer_first.
    assert (Hagain : rate_limited o = true \/ failed o = true)
      by (rewrite <- Ho; apply Hbad; lia).
    set (w1 := after_sleep (pause backoff o) (after_send req w)).
    destruct (IH (S first) count (backoff * 2)%Q w1 r) as (w' & Hrun & Hsent & Hslept & Ht & Hc).
    { lia. }
    { lia. }
    { intros i Hi. unfold w1. rewrite answer_after_sleep, answer_after_send.
      apply Hbad. lia. }
    { unfold w1. now rewrite answer_after_sleep, answer_after_send. }
    { exact Hok. }
    exists w'. split.
    { destruct (rate_limited o) eqn:Hrl; [exact Hrun|].
      destruct Hagain as [Habs|Hf]; [discriminate|].
      rewrite Hf, Hnot_last. exact Hrun. }
    split; [|split; [|split; [exact Ht|exact Hc]]].
    + rewrite Hsent. unfold w1. cbn [after_sleep after_send sent repeat].
      now rewrite <- app_assoc.
    + rewrite Hslept. unfold w1. cbn [after_sleep after_send slept pauses].
      rewrite <- app_assoc. cbn [app]. rewrite Ho. do 2 f_equal.
      apply pauses_ext. intros i _. now rewrite answer_after_sleep, answer_after_send.
Qed.

(** If every attempt up to the last fails or is rate limited and the last
    one fails, the loop raises the exception of the last attempt; it has
    waited after every attempt but the last. *)
Lemma request_loop_gives_up req :
  forall k first backoff w,
    (first + k = KlaviyoClient.MAX_RETRIES)%nat ->
    (forall i, (i < k)%nat ->
               rate_limited (answer server w req i) = true \/
               failed (answer server w req i) = true) ->
    failed (answer server w req k) = true ->
    exists w',
      KlaviyoClient.request_loop server req (seq first (S k)) backoff w
      = (Raise (failure_of (answer server w req k)), w') /\
      sent w' = sent w ++ repeat req (S k) /\
      slept w' = slept w ++ pauses (answer server w req) backoff k.
Proof.
  induction k as [|k IH]; intros first backoff w Hfirst Hbad Hlast.
  - cbn [seq]. rewrite request_loop_step. cbv zeta.
    rewrite answer_first in *.
    assert (Hrl : rate_limited (server (sent w) req) = false).
    { destruct (server (sent w) req) as [r| |]; try reflexivity.
      cbn [failed rate_limited] in *. destruct (status_code r =? 429); [discriminate|reflexivity]. }
    rewrite Hrl, Hlast.
    replace (Nat.eqb first KlaviyoClient.MAX_RETRIES) with true
      by (symmetry; apply Nat.eqb_eq; lia).
    exists (after_send req w). cbn. rewrite app_nil_r. repeat split; reflexivity.
  - cbn [seq]. rewrite request_loop_step. cbv zeta.
    assert (Hnot_last : Nat.eqb first KlaviyoClient.MAX_RETRIES = false)
      by (apply Nat.eqb_neq; lia).
    set (o := server (sent w) req).
    assert (Ho : answer server w req 0 = o) by apply answer_first.
    assert (Hagain : rate_limited o = true \/ failed o = true)
      by (rewrite <- Ho; apply Hbad; lia).
    set (w1 := after_sleep (pause backoff o) (after_send req w)).
    destruct (IH (S first) (backoff * 2)%Q w1) as (w' & Hrun & Hsent & Hslept).
    { lia. }
    { intros i Hi. unfold w1. rewrite answer_after_sleep, answer_after_send.
      apply Hbad. lia. }
    { unfold w1. now rewrite answer_after_sleep, answer_after_send. }
    exists w'. split.
    { unfold w1 in Hrun. rewrite answer_after_sleep, answer_after_send in Hrun.
      destruct (rate_limited o) eqn:Hrl; [exact Hrun|].
      destruct Hagain as [Habs|Hf]; [discriminate|].
      rewrite Hf, Hnot_last. exact Hrun. }
    split.
    + rewrite Hsent. unfold w1. cbn [after_sleep after_send sent repeat].
      now rewrite <- app_assoc.
    + rewrite Hslept. unfold w1. cbn [after_sleep after_send slept pauses].
      rewrite <- app_assoc. cbn [app]. rewrite Ho. do 2 f_equal.
      apply pauses_ext. intros i _. now rewrite answer_after_sleep, answer_after_send.
Qed.

(** A call of [_request] sends its request one to [MAX_RETRIES] times and
    leaves the table alone. *)
Lemma request_effect method url json_data w :
  exists n,
    (1 <= n <= KlaviyoClient.MAX_RETRIES)%nat /\
    sent (snd (KlaviyoClient._request server method url json_data w))
    = sent w ++ repeat (mkRequest method url json_data) n /\
    table (snd (KlaviyoClient._request server method url json_data w)) = table w /\
    commits (snd (KlaviyoClient._request server method url json_data w)) = commits w.
Proof.
  unfold KlaviyoClient._request.
  destruct (request_loop_bounded (mkRequest method url json_data)
              (seq 1 KlaviyoClient.MAX_RETRIES) KlaviyoClient.INITIAL_BACKOFF w)
    as (n & Hle & Hpos & Hsent & _).
  rewrite length_seq in Hle.
  destruct (keeps_store_request_loop server (mkRequest method url json_data)
              (seq 1 KlaviyoClient.MAX_RETRIES) KlaviyoClient.INITIAL_BACKOFF w)
    as [Ht Hc].
  exists n. repeat split; auto. apply Hpos. discriminate.
Qed.

End RetryLoop.

(** ** Further properties: one downstream call *)

Section RequestContract.

Variable server : Server.

Implicit Types (w : World) (method url : string) (json_data : Payload).

(** X1. Whatever the server does, one call of [_request] sends its request
    at least once and at most [MAX_RETRIES] times, sends nothing else,
    sleeps at most once per request and leaves the table alone. *)
Theorem request_sends_between_one_and_max method url json_data w :
  exists n,
    (1 <= n <= KlaviyoClient.MAX_RETRIES)%nat /\
    sent (snd (KlaviyoClient._request server method url json_data w))
    = sent w ++ repeat (mkRequest method url json_data) n /\
    (List.length (slept (snd (KlaviyoClient._request server method url json_data w)))
     <= List.length (slept w) + n)%nat /\
    table (snd (KlaviyoClient._request server method url json_data w)) = table w /\
    commits (snd (KlaviyoClient._request server method url json_data w)) = commits w.
Proof.
  unfold KlaviyoClient._request.
  destruct (request_loop_bounded server (mkRequest method url json_data)
              (seq 1 KlaviyoClient.MAX_RETRIES) KlaviyoClient.INITIAL_BACKOFF w)
    as (n & Hle & Hpos & Hsent & Hslept).
  rewrite length_seq in Hle.
  destruct (keeps_store_request_loop server (mkRequest method url json_data)
              (seq 1 KlaviyoClient.MAX_RETRIES) KlaviyoClient.INITIAL_BACKOFF w)
    as [Ht Hc].
  exists n. repeat split; auto. apply Hpos. discriminate.
Qed.

(** X2. If the first [k] answers (k below [MAX_RETRIES]) are failures or
    rate limits and the next is a 2xx, [_request] returns what that answer
    carries after exactly [k + 1] requests. It has slept once after each
    unsuccessful attempt: the [Retry-After] value after a 429 that has
    one, else the backoff, which starts at [INITIAL_BACKOFF] and doubles
    with every attempt. *)
Theorem request_recovers method url json_data w k r :
  (k < KlaviyoClient.MAX_RETRIES)%nat ->
  (forall i, (i < k)%nat ->
             rate_limited (answer server w (mkRequest method url json_data) i) = true \/
             failed (answer server w (mkRequest method url json_data) i) = true) ->
  answer server w (mkRequest method url json_data) k = Answered r ->
  KlaviyoClient.is_success (status_code r) = true ->
  exists w',
    KlaviyoClient._request server method url json_data w = (decoded r, w') /\
    sent w' = sent w ++ repeat (mkRequest method url json_data) (S k) /\
    slept w' =
      slept w ++ pauses (answer server w (mkRequest method url json_data))
                        KlaviyoClient.INITIAL_BACKOFF k.
Proof.
  intros Hk Hbad Hgood Hok. unfold KlaviyoClient._request.
  assert (Hroom : (1 + k <= KlaviyoClient.MAX_RETRIES)%nat)
    by (unfold KlaviyoClient.MAX_RETRIES in *; lia).
  destruct (request_loop_recovers server (mkRequest method url json_data) k 1
              KlaviyoClient.MAX_RETRIES KlaviyoClient.INITIAL_BACKOFF w r
              Hk Hroom Hbad Hgood Hok)
    as (w' & Hrun & Hsent & Hslept & _).
  exists w'. auto.
Qed.

(** X3. If all [MAX_RETRIES] answers are failures or rate limits and the
    last one is a failure (a connection error, or any status that is
    neither 2xx nor 429, client errors included), [_request] raises the
    exception of the last attempt after exactly [MAX_RETRIES] requests,
    and does not sleep after the last attempt. *)
Theorem request_gives_up method url json_data w :
  (forall i, (i < KlaviyoClient.MAX_RETRIES - 1)%nat ->
             rate_limited (answer server w (mkRequest method url json_data) i) = true \/
             failed (answer server w (mkRequest method url json_data) i) = true) ->
  failed (answer server w (mkRequest method url json_data) (KlaviyoClient.MAX_RETRIES - 1))
  = true ->
  exists w',
    KlaviyoClient._request server method url json_data w
    = (Raise (failure_of (answer server w (mkRequest method url json_data)
                                 (KlaviyoClient.MAX_RETRIES - 1))), w') /\
    sent w' = sent w ++ repeat (mkRequest method url json_data) KlaviyoClient.MAX_RETRIES /\
    slept w' =
      slept w ++ pauses (answer server w (mkRequest method url json_data))
                        KlaviyoClient.INITIAL_BACKOFF (KlaviyoClient.MAX_RETRIES - 1).
Proof.
  intros Hbad Hlast. unfold KlaviyoClient._request.
  exact (request_loop_gives_up server (mkRequest method url json_data)
           (KlaviyoClient.MAX_RETRIES - 1) 1 KlaviyoClient.INITIAL_BACKOFF w
           eq_refl Hbad Hlast).
Qed.

End RequestContract.

Lemma request_recovers_witness :
  exists w',
    KlaviyoClient._request MoreFixtures.flaky_server "POST"
                           "https://a.klaviyo.com/api/profile-import" NoPayload
                           MoreFixtures.empty_world
    = (Ok (Json.JDict [("data", Json.JDict [("id", Json.JStr "01HXYZ")])]), w') /\
    sent w' =
      sent MoreFixtures.empty_world ++
      repeat (mkRequest "POST" "https://a.klaviyo.com/api/profile-import" NoPayload) 3 /\
    slept w' = slept MoreFixtures.empty_world ++ [7; 2]%Q.
Proof.
  apply (request_recovers MoreFixtures.flaky_server "POST"
           "https://a.klaviyo.com/api/profile-import" NoPayload MoreFixtures.empty_world 2
           {| status_code := 200; retry_after := NoHeader;
              body := Some (Json.JDict [("data", Json.JDict [("id", Json.JStr "01HXYZ")])]) |}).
  - unfold KlaviyoClient.MAX_RETRIES. lia.
  - intros i Hi. destruct i as [|[|i]]; [left; reflexivity|right; reflexivity|lia].
  - reflexivity.
  - reflexivity.
Defined.

Lemma request_gives_up_witness :
  exists w',
    KlaviyoClient._request MoreFixtures.not_found_server "GET"
                           "https://a.klaviyo.com/api/lists" NoPayload
                           MoreFixtures.empty_world
    = (Raise (HTTPStatusError 404), w') /\
    sent w' = sent MoreFixtures.empty_world ++ repeat MoreFixtures.list_request 3 /\
    slept w' = slept MoreFixtures.empty_world ++ [1; 2]%Q.
Proof.
  apply (request_gives_up MoreFixtures.not_found_server "GET"
           "https://a.klaviyo.com/api/lists" NoPayload MoreFixtures.empty_world).
  - intros i Hi. right. reflexivity.
  - reflexivity.
Defined.

(** ** Further properties: the three calls of one contact *)

Section RequestBudget.

Variable server : Server.

Implicit Types (self : KlaviyoClient.t) (contact : PC.t) (w : World).

Lemma sends_at_most_ret {A : Type} (a : A) : sends_at_most 0 (ret a).
Proof. intros w. exists []. cbn. now rewrite app_nil_r. Qed.

Lemma sends_at_most_raise {A : Type} (e : exn) : sends_at_most 0 (@raise A e).
Proof. intros w. exists []. cbn. now rewrite app_nil_r. Qed.

Lemma sends_at_most_lift {A : Type} (r : result A) : sends_at_most 0 (lift r).
Proof. intros w. exists []. cbn. now rewrite app_nil_r. Qed.

Lemma sends_at_most_le {A : Type} (n m : nat) (c : M A) :
  (n <= m)%nat -> sends_at_most n c -> sends_at_most m c.
Proof.
  intros Hle Hc w. destruct (Hc w) as (l & Hl & Hlen). exists l. split; [assumption|lia].
Qed.

Lemma sends_at_most_bind {A B : Type} (n m : nat) (c : M A) (k : A -> M B) :
  sends_at_most n c -> (forall a, sends_at_most m (k a)) ->
  sends_at_most (n + m) (bind c k).
Proof.
  intros Hc Hk w. unfold bind. destruct (Hc w) as (l & Hl & Hlen).
  destruct (c w) as [[a|e] w1]; cbn [snd] in *.
  - destruct (Hk a w1) as (l' & Hl' & Hlen'). exists (l ++ l'). split.
    + now rewrite Hl', Hl, app_assoc.
    + rewrite length_app. lia.
  - exists l. split; [assumption|lia].
Qed.

Lemma sends_at_most_try {A : Type} (n m : nat) (c : M A) (h : exn -> M A) :
  sends_at_most n c -> (forall e, sends_at_most m (h e)) ->
  sends_at_most (n + m) (try_except c h).
Proof.
  intros Hc Hh w. unfold try_except. destruct (Hc w) as (l & Hl & Hlen).
  destruct (c w) as [[a|e] w1]; cbn [snd] in *.
  - exists l. split; [assumption|lia].
  - destruct (Hh e w1) as (l' & Hl' & Hlen'). exists (l ++ l'). split.
    + now rewrite Hl', Hl, app_assoc.
    + rewrite length_app. lia.
Qed.

Lemma sends_at_most_request method url json_data :
  sends_at_most KlaviyoClient.MAX_RETRIES
                (KlaviyoClient._request server method url json_data).
Proof.
  intros w.
  destruct (request_loop_bounded server (mkRequest method url json_data)
              (seq 1 KlaviyoClient.MAX_RETRIES) KlaviyoClient.INITIAL_BACKOFF w)
    as (n & Hle & _ & Hsent & _).
  rewrite length_seq in Hle.
  exists (repeat (mkRequest method url json_data) n). split; [exact Hsent|].
  now rewrite repeat_length.
Qed.

Lemma sends_at_most_upsert self contact :
  sends_at_most KlaviyoClient.MAX_RETRIES (KlaviyoClient.upsert_profile server self contact).
Proof.
  unfold KlaviyoClient.upsert_profile.
  apply (sends_at_most_le (KlaviyoClient.MAX_RETRIES + 0)); [lia|].
  apply sends_at_most_bind; [apply sends_at_most_request|].
  intros result. destruct (Json.truthy result); [|apply sends_at_most_ret].
  apply (sends_at_most_bind 0 0); [apply sends_at_most_lift|].
  intros data. apply sends_at_most_lift.
Qed.

Lemma sends_at_most_add_to_list self profile_id :
  sends_at_most (if PyStr.truthy (KlaviyoClient.list_id self)
                 then KlaviyoClient.MAX_RETRIES else 0)
                (KlaviyoClient.add_to_list server self profile_id).
Proof.
  unfold KlaviyoClient.add_to_list.
  destruct (PyStr.truthy (KlaviyoClient.list_id self)); cbn [negb];
    [|apply sends_at_most_ret].
  apply (sends_at_most_le (KlaviyoClient.MAX_RETRIES + 0)); [lia|].
  apply sends_at_most_bind; [apply sends_at_most_request|].
  intros _. apply sends_at_most_ret.
Qed.

Lemma sends_at_most_create_event self contact :
  sends_at_most (if KlaviyoClient.is_extended (KlaviyoClient.mode self)
                 then KlaviyoClient.MAX_RETRIES else 0)
                (KlaviyoClient.create_event server self contact).
Proof.
  unfold KlaviyoClient.create_event.
  destruct (KlaviyoClient.is_extended (KlaviyoClient.mode self)); cbn [negb];
    [|apply sends_at_most_ret].
  apply (sends_at_most_le (KlaviyoClient.MAX_RETRIES + 0)); [lia|].
  apply sends_at_most_bind; [apply sends_at_most_request|].
  intros _. apply sends_at_most_ret.
Qed.

Lemma sends_at_most_process_contact self contact :
  sends_at_most
    (KlaviyoClient.MAX_RETRIES
     + (if PyStr.truthy (KlaviyoClient.list_id self) then KlaviyoClient.MAX_RETRIES else 0)
     + (if KlaviyoClient.is_extended (KlaviyoClient.mode self)
        then KlaviyoClient.MAX_RETRIES else 0))
    (KlaviyoClient.process_contact server self contact).
Proof.
  unfold KlaviyoClient.process_contact, KlaviyoClient.process_contact_body.
  match goal with
  | |- sends_at_most ?n _ => apply (sends_at_most_le (n + 0)); [lia|]
  end.
  apply sends_at_most_try; [|intros e; apply sends_at_most_ret].
  rewrite <- Nat.add_assoc.
  apply sends_at_most_bind; [apply sends_at_most_upsert|].
  intros profile_id. apply sends_at_most_bind.
  - destruct (Json.truthy profile_id); [apply sends_at_most_add_to_list|].
    eapply sends_at_most_le; [|apply sends_at_most_ret]. lia.
  - intros _.
    match goal with
    | |- sends_at_most ?n _ => apply (sends_at_most_le (n + 0)); [lia|]
    end.
    apply sends_at_most_bind; [apply sends_at_most_create_event|].
    intros _. apply sends_at_most_ret.
Qed.

(** X4. Forwarding one contact costs at most [3 * MAX_RETRIES] requests,
    whatever the server does: [MAX_RETRIES] for the profile, [MAX_RETRIES]
    more only when a list id is configured and [MAX_RETRIES] more only in
    extended mode. It returns a boolean and never writes to the buffer. *)
Theorem process_contact_request_budget self contact :
  sends_at_most (3 * KlaviyoClient.MAX_RETRIES)
                (KlaviyoClient.process_contact server self contact) /\
  (KlaviyoClient.list_id self = "" -> KlaviyoClient.mode self = SIMPLE ->
   sends_at_most KlaviyoClient.MAX_RETRIES
                 (KlaviyoClient.process_contact server self contact)) /\
  (forall w,
     exists ok, fst (KlaviyoClient.process_contact server self contact w) = Ok ok) /\
  keeps_store (KlaviyoClient.process_contact server self contact).
Proof.
  split; [|split; [|split]].
  - eapply sends_at_most_le; [|apply sends_at_most_process_contact].
    destruct (PyStr.truthy (KlaviyoClient.list_id self));
      destruct (KlaviyoClient.is_extended (KlaviyoClient.mode self)); lia.
  - intros Hid Hmode. eapply sends_at_most_le; [|apply sends_at_most_process_contact].
    rewrite Hid, Hmode. cbn [PyStr.truthy KlaviyoClient.is_extended]. lia.
  - intros w. destruct (process_contact_returns server self contact w) as (ok & w' & ->).
    now exists ok.
  - apply keeps_store_process_contact.
Qed.

(** X5. When the profile import answers at once with a 2xx whose body
    holds a profile id under [data.id], and the list request that follows
    answers 204, a simple-mode client with a list id forwards the contact
    with exactly two requests and no sleep: the import, then the add of
    that very profile id to the configured list. *)
Theorem process_contact_adds_returned_profile self contact w r1 r2 d data profile_id :
  KlaviyoClient.mode self = SIMPLE ->
  KlaviyoClient.list_id self <> "" ->
  let upsert :=
    mkRequest "POST" (KlaviyoClient.BASE_URL ++ "/profile-import")%string
              (ProfilePayload contact SIMPLE) in
  let add :=
    mkRequest "POST"
              (KlaviyoClient.BASE_URL ++ "/lists/" ++ KlaviyoClient.list_id self
               ++ "/relationships/profiles")%string
              (ListPayload profile_id) in
  server (sent w) upsert = Answered r1 ->
  KlaviyoClient.is_success (status_code r1) = true ->
  status_code r1 <> 204 ->
  body r1 = Some (Json.JDict d) ->
  Json.lookup "data" d = Some (Json.JDict data) ->
  Json.lookup "id" data = Some profile_id ->
  Json.truthy profile_id = true ->
  server (sent w ++ [upsert]) add = Answered r2 ->
  status_code r2 = 204 ->
  exists w',
    KlaviyoClient.process_contact server self contact w = (Ok true, w') /\
    sent w' = sent w ++ [upsert; add] /\
    slept w' = slept w.
Proof.
  intros Hmode Hlist upsert add H1 Hok1 Hnot204 Hbody Hdata Hid Hpid H2 H204.
  assert (Hd : d <> []) by (intros ->; discriminate).
  unfold KlaviyoClient.process_contact, try_except, KlaviyoClient.process_contact_body.
  unfold bind at 1. unfold KlaviyoClient.upsert_profile. unfold bind at 1.
  rewrite Hmode. fold upsert.
  destruct (request_loop_recovers server upsert 0 1 KlaviyoClient.MAX_RETRIES
              KlaviyoClient.INITIAL_BACKOFF w r1) as (w1 & Hrun1 & Hsent1 & Hslept1 & _).
  { unfold KlaviyoClient.MAX_RETRIES. lia. }
  { unfold KlaviyoClient.MAX_RETRIES. lia. }
  { intros i Hi. lia. }
  { now rewrite answer_first. }
  { exact Hok1. }
  unfold KlaviyoClient._request. fold upsert. rewrite Hrun1.
  unfold decoded. rewrite (proj2 (Z.eqb_neq _ _) Hnot204), Hbody.
  cbn [Json.truthy]. destruct d as [|kv d']; [congruence|].
  unfold bind at 1. unfold lift at 1. cbn [Json.get]. rewrite Hdata.
  unfold lift at 1. cbn [Json.get]. rewrite Hid.
  unfold bind at 1. rewrite Hpid.
  unfold KlaviyoClient.add_to_list.
  assert (Htr : PyStr.truthy (KlaviyoClient.list_id self) = true)
    by (destruct (KlaviyoClient.list_id self); [congruence|reflexivity]).
  rewrite Htr. cbn [negb]. unfold bind at 1. unfold KlaviyoClient._request. fold add.
  assert (Hok2 : KlaviyoClient.is_success (status_code r2) = true)
    by (rewrite H204; reflexivity).
  destruct (request_loop_recovers server add 0 1 KlaviyoClient.MAX_RETRIES
              KlaviyoClient.INITIAL_BACKOFF w1 r2) as (w2 & Hrun2 & Hsent2 & Hslept2 & _).
  { unfold KlaviyoClient.MAX_RETRIES. lia. }
  { unfold KlaviyoClient.MAX_RETRIES. lia. }
  { intros i Hi. lia. }
  { rewrite answer_first, Hsent1. exact H2. }
  { exact Hok2. }
  rewrite Hrun2. unfold decoded. rewrite H204. cbn [Z.eqb Pos.eqb].
  unfold ret at 1. unfold bind at 1.
  unfold KlaviyoClient.create_event. rewrite Hmode. cbn [KlaviyoClient.is_extended negb].
  unfold ret. exists w2. split; [reflexivity|]. split.
  - rewrite Hsent2, Hsent1. cbn [repeat]. now rewrite <- app_assoc.
  - rewrite Hslept2, Hslept1. cbn [pauses]. now rewrite !app_nil_r.
Qed.

(** X6. [check_connection] always returns a status, never raises and
    never writes to the buffer; it sends the GET of the lists between one
    and [MAX_RETRIES] times. It reports an error exactly when [_request]
    raised, so a server that rate-limits every attempt is reported as
    connected. *)
Theorem check_connection_reports self w :
  exists status w' n,
    KlaviyoClient.check_connection server self w = (Ok status, w') /\
    (1 <= n <= KlaviyoClient.MAX_RETRIES)%nat /\
    sent w' =
      sent w ++ repeat (mkRequest "GET" (KlaviyoClient.BASE_URL ++ "/lists")%string NoPayload) n /\
    table w' = table w /\ commits w' = commits w /\
    (forall e,
       status = KlaviyoClient.ConnectionError e (KlaviyoClient.mode self) <->
       fst (KlaviyoClient._request server "GET" (KlaviyoClient.BASE_URL ++ "/lists")%string
                                   NoPayload w) = Raise e) /\
    (always_rate_limited server ->
     exists shown, status = KlaviyoClient.Connected (KlaviyoClient.mode self) shown).
Proof.
  destruct (request_effect server "GET"
              (KlaviyoClient.BASE_URL ++ "/lists")%string NoPayload w)
    as (n & Hn & Hsent & Ht & Hc).
  unfold KlaviyoClient.check_connection, try_except. unfold bind at 1.
  destruct (KlaviyoClient._request server "GET" (KlaviyoClient.BASE_URL ++ "/lists")%string
                                   NoPayload w) as [[v|e] w1] eqn:Hrun;
    cbn [snd fst] in *; unfold ret.
  - eexists. exists w1, n. split; [reflexivity|].
    split; [exact Hn|]. split; [exact Hsent|]. split; [exact Ht|]. split; [exact Hc|].
    split.
    + intros e0. split; intros Heq; discriminate.
    + intros _. eexists. reflexivity.
  - eexists. exists w1, n. split; [reflexivity|].
    split; [exact Hn|]. split; [exact Hsent|]. split; [exact Ht|]. split; [exact Hc|].
    split.
    + intros e0. split; intros Heq; inversion Heq; reflexivity.
    + intros Hlimited.
      destruct (request_rate_limited server "GET" (KlaviyoClient.BASE_URL ++ "/lists")%string
                  NoPayload w Hlimited) as (w2 & Hnone & _).
      congruence.
Qed.

End RequestBudget.

Lemma process_contact_adds_returned_profile_witness :
  exists w',
    KlaviyoClient.process_contact MoreFixtures.healthy_server MoreFixtures.listing_client
                                  Fixtures.sample_contact MoreFixtures.empty_world
    = (Ok true, w') /\
    sent w' =
      sent MoreFixtures.empty_world ++
      [ mkRequest "POST" "https://a.klaviyo.com/api/profile-import"
                  (ProfilePayload Fixtures.sample_contact SIMPLE);
        mkRequest "POST" "https://a.klaviyo.com/api/lists/L1/relationships/profiles"
                  (ListPayload (Json.JStr "01HXYZ")) ] /\
    slept w' = slept MoreFixtures.empty_world.
Proof.
  apply (process_contact_adds_returned_profile MoreFixtures.healthy_server
           MoreFixtures.listing_client Fixtures.sample_contact MoreFixtures.empty_world
           {| status_code := 200; retry_after := NoHeader;
              body := Some (Json.JDict [("data", Json.JDict [("id", Json.JStr "01HXYZ")])]) |}
           {| status_code := 204; retry_after := NoHeader; body := None |}
           [("data", Json.JDict [("id", Json.JStr "01HXYZ")])]
           [("id", Json.JStr "01HXYZ")] (Json.JStr "01HXYZ"));
    try reflexivity; discriminate.
Defined.

(** ** Further properties: the buffer store *)

Section StoreOperations.

Variable max_variable_number : nat.

Implicit Types (w : World) (rows : list Row.t) (ids : list Z) (intention : BI.t).

Lemma next_id_above rows :
  forall r, In r rows -> Row.id r < Database.next_id rows.
Proof.
  unfold Database.next_id. induction rows as [|x rows IH]; intros r Hin; [destruct Hin|].
  cbn [map fold_right]. destruct Hin as [<-|Hin]; [lia|].
  specialize (IH r Hin). lia.
Qed.

Lemma length_insert_row r rows :
  List.length (Database.insert_row r rows) = S (List.length rows).
Proof.
  induction rows as [|x rows IH]; cbn [Database.insert_row List.length]; [reflexivity|].
  destruct (Row.created_at r <=? Row.created_at x); cbn [List.length]; [reflexivity|].
  now rewrite IH.
Qed.

Lemma length_order_by_created_at rows :
  List.length (Database.order_by_created_at rows) = List.length rows.
Proof.
  unfold Database.order_by_created_at.
  induction rows as [|r rows IH]; cbn [fold_right List.length]; [reflexivity|].
  now rewrite length_insert_row, IH.
Qed.

Lemma update_processed_app a b rows :
  Database.update_processed a (Database.update_processed b rows) =
  Database.update_processed (a ++ b) rows.
Proof.
  unfold Database.update_processed. rewrite map_map. apply map_ext. intros r.
  unfold Database.id_in. rewrite existsb_app.
  destruct (existsb (Z.eqb (Row.id r)) b) eqn:Hb; cbn [Row.id Database.set_processed].
  - destruct (existsb (Z.eqb (Row.id r)) a); reflexivity.
  - rewrite orb_false_r. reflexivity.
Qed.

Lemma update_processed_ids ids rows :
  map Row.id (Database.update_processed ids rows) = map Row.id rows.
Proof.
  unfold Database.update_processed. rewrite map_map. apply map_ext. intros r.
  destruct (Database.id_in ids (Row.id r)); reflexivity.
Qed.

Lemma unprocessed_after_update ids rows :
  (List.length (filter (fun r => negb (Row.processed r)) (Database.update_processed ids rows))
   <= List.length (filter (fun r => negb (Row.processed r)) rows))%nat.
Proof.
  unfold Database.update_processed.
  induction rows as [|r rows IH]; [cbn; lia|].
  cbn [map filter].
  destruct (Database.id_in ids (Row.id r)).
  - cbn [Database.set_processed Row.processed negb].
    destruct (negb (Row.processed r)); cbn [List.length]; lia.
  - destruct (negb (Row.processed r)); cbn [List.length]; lia.
Qed.

(** X7. Saving a record gives it an id above every id of the table, and
    the record is then delivered by the query, unfiltered or filtered on
    the day it was stored: with that id, the storage time as creation
    time, the processed flag off, and all fourteen written columns as
    given. The records delivered before are still delivered. *)
Theorem save_then_fetch now intention w :
  exists row_id w',
    Database.save_intention now intention w = (Ok row_id, w') /\
    (forall row, In row (table w) -> Row.id row < row_id) /\
    (exists stored,
       In stored (backlog w') /\
       (exists fetched,
          Database.get_unprocessed_intentions (Some (Database.date_of now)) w'
          = (Ok fetched, w') /\ In stored fetched) /\
       BI.id stored = Some row_id /\
       BI.created_at stored = Some now /\
       BI.processed stored = false /\
       same_data stored intention) /\
    (forall r, In r (backlog w) -> In r (backlog w')).
Proof.
  exists (Database.next_id (table w)). eexists. split; [reflexivity|].
  split; [apply next_id_above|]. split.
  - exists (as_stored (Database.next_id (table w)) now intention).
    assert (Hrow : forall target_date,
               Database.selected target_date
                 (Database.inserted_row (Database.next_id (table w)) now intention) = true ->
               In (as_stored (Database.next_id (table w)) now intention)
                  (map Database.to_intention
                     (Database.order_by_created_at
                        (filter (Database.selected target_date)
                           (table w ++ [Database.inserted_row (Database.next_id (table w))
                                                              now intention]))))).
    { intros target_date Hsel. unfold as_stored. apply in_map.
      apply in_order_by_created_at.
      apply filter_In. split; [|exact Hsel]. apply in_or_app. right. now left. }
    split; [apply Hrow; reflexivity|]. split.
    + eexists. split; [reflexivity|]. apply Hrow.
      unfold Database.selected. cbn. now rewrite Z.eqb_refl.
    + repeat split; reflexivity.
  - intros r Hin. unfold backlog in *. cbn [table]. apply in_map_iff in Hin.
    destruct Hin as [row [<- Hrow]]. apply in_map. apply in_order_by_created_at.
    apply (proj1 (in_order_by_created_at _ _)) in Hrow. apply filter_In in Hrow.
    apply filter_In. split; [|tauto]. apply in_or_app. left. tauto.
Qed.

(** X8. The ids of the table stay pairwise distinct under every write of
    the store: an insert, and a mark of any list of ids. *)
Theorem writes_keep_ids_unique w :
  unique_ids w ->
  (forall now intention, unique_ids (snd (Database.save_intention now intention w))) /\
  (forall ids, unique_ids (snd (Database.mark_as_processed max_variable_number ids w))).
Proof.
  unfold unique_ids. intros Hnd. split.
  - intros now intention. cbn [Database.save_intention snd table].
    rewrite map_app. cbn [map Row.id Database.inserted_row].
    apply NoDup_app; [assumption|repeat constructor; simpl; tauto|].
    intros i Hi [<-|[]]. apply in_map_iff in Hi. destruct Hi as [row [Hid Hrow]].
    pose proof (next_id_above (table w) row Hrow). lia.
  - intros ids. rewrite table_after_mark.
    destruct (List.length ids <=? max_variable_number)%nat;
      [now rewrite update_processed_ids|assumption].
Qed.

(** X9. The counts agree with the table and with the query: the total is
    the number of rows, the unprocessed count is the number of records the
    unfiltered query returns, and processed plus unprocessed is the total.
    An insert raises total and unprocessed by one; a mark keeps the total
    and never raises the unprocessed count. Counting changes nothing. *)
Theorem counts_follow_the_table w :
  exists counts,
    Database.get_intention_count w = (Ok counts, w) /\
    Database.total counts = Z.of_nat (List.length (table w)) /\
    Database.unprocessed counts = Z.of_nat (List.length (backlog w)) /\
    Database.processed counts + Database.unprocessed counts = Database.total counts /\
    0 <= Database.unprocessed counts <= Database.total counts /\
    (forall now intention counts',
       fst (Database.get_intention_count (snd (Database.save_intention now intention w)))
       = Ok counts' ->
       Database.total counts' = Database.total counts + 1 /\
       Database.unprocessed counts' = Database.unprocessed counts + 1) /\
    (forall ids counts',
       fst (Database.get_intention_count (snd (Database.mark_as_processed max_variable_number ids w)))
       = Ok counts' ->
       Database.total counts' = Database.total counts /\
       Database.unprocessed counts' <= Database.unprocessed counts).
Proof.
  eexists. split; [reflexivity|]. cbn [Database.total Database.unprocessed Database.processed].
  assert (Hsel : forall rows,
             filter (Database.selected None) rows
             = filter (fun r => negb (Row.processed r)) rows).
  { intros rows. apply filter_ext. intros r. unfold Database.selected.
    now rewrite andb_true_r. }
  assert (Hle : (List.length (filter (fun r => negb (Row.processed r)) (table w))
                 <= List.length (table w))%nat) by apply filter_length_le.
  split; [reflexivity|]. split.
  { unfold backlog. now rewrite length_map, length_order_by_created_at, Hsel. }
  split; [lia|]. split; [lia|]. split.
  - intros now intention counts' Hc. cbn in Hc. inversion Hc; subst; clear Hc.
    cbn [Database.total Database.unprocessed].
    rewrite filter_app, !length_app. cbn. lia.
  - intros ids counts' Hc. unfold Database.get_intention_count in Hc. cbn [fst] in Hc.
    inversion Hc; subst; clear Hc. cbn [Database.total Database.unprocessed].
    rewrite table_after_mark.
    destruct (List.length ids <=? max_variable_number)%nat; [|lia]. split.
    + unfold Database.update_processed. now rewrite length_map.
    + pose proof (unprocessed_after_update ids (table w)). lia.
Qed.

(** X10. Marks combine as a union: when both lists are within SQLite's
    parameter limit, marking [a] after [b] leaves the table as marking
    [a ++ b] at once would. Whatever the sizes, the order of two marks
    does not matter for the table they leave, and a row that was processed
    stays processed. *)
Theorem marks_combine a b w :
  ((List.length a <= max_variable_number)%nat ->
   (List.length b <= max_variable_number)%nat ->
   table (snd (Database.mark_as_processed max_variable_number a
                 (snd (Database.mark_as_processed max_variable_number b w))))
   = Database.update_processed (a ++ b) (table w))
  /\ table (snd (Database.mark_as_processed max_variable_number a
                   (snd (Database.mark_as_processed max_variable_number b w))))
     = table (snd (Database.mark_as_processed max_variable_number b
                     (snd (Database.mark_as_processed max_variable_number a w))))
  /\ Forall2 (fun r r' => Row.processed r = true -> Row.processed r' = true)
             (table w) (table (snd (Database.mark_as_processed max_variable_number a w))).
Proof.
  rewrite !table_after_mark. split; [|split].
  - intros Ha Hb. apply Nat.leb_le in Ha, Hb. rewrite Ha, Hb.
    apply update_processed_app.
  - destruct (List.length a <=? max_variable_number)%nat,
             (List.length b <=? max_variable_number)%nat; try reflexivity.
    rewrite !update_processed_app.
    unfold Database.update_processed. apply map_ext. intros r.
    unfold Database.id_in. rewrite !existsb_app. now rewrite orb_comm.
  - destruct (List.length a <=? max_variable_number)%nat.
    + unfold Database.update_processed.
      induction (table w) as [|r rows IH]; cbn; constructor; [|exact IH].
      destruct (Database.id_in a (Row.id r)); cbn; auto.
    + induction (table w) as [|r rows IH]; constructor; auto.
Qed.

(** X11. The query returns exactly the selected rows, each once, oldest
    first: the result is in ascending creation order, has as many records
    as there are unprocessed rows of that day, and every record carries
    the id and creation time of its row and the processed flag off. *)
Theorem fetch_selects_and_orders target_date w :
  exists fetched,
    Database.get_unprocessed_intentions target_date w = (Ok fetched, w) /\
    chronological fetched /\
    List.length fetched = List.length (filter (Database.selected target_date) (table w)) /\
    (forall r, In r fetched <->
               exists row, In row (table w) /\
                           Database.selected target_date row = true /\
                           r = Database.to_intention row) /\
    (forall r, In r fetched ->
               BI.processed r = false /\ BI.id r <> None /\
               exists t, BI.created_at r = Some t /\
                         match target_date with
                         | Some d => Database.date_of t = d
                         | None => True
                         end).
Proof.
  eexists. split; [reflexivity|].
  destruct (fetched_chronological target_date w _ eq_refl) as [Hsorted _].
  split; [exact Hsorted|]. split.
  { now rewrite length_map, length_order_by_created_at. }
  assert (Hmem : forall r,
             In r (map Database.to_intention
                       (Database.order_by_created_at
                          (filter (Database.selected target_date) (table w)))) <->
             exists row, In row (table w) /\
                         Database.selected target_date row = true /\
                         r = Database.to_intention row).
  { intros r. rewrite in_map_iff. split.
    - intros [row [<- Hrow]]. apply (proj1 (in_order_by_created_at _ _)) in Hrow.
      apply filter_In in Hrow. exists row. tauto.
    - intros [row [Hrow [Hsel ->]]]. exists row. split; [reflexivity|].
      apply in_order_by_created_at. apply filter_In. tauto. }
  split; [exact Hmem|].
  intros r Hr. apply Hmem in Hr. destruct Hr as [row [_ [Hsel ->]]].
  unfold Database.selected in Hsel. apply andb_prop in Hsel. destruct Hsel as [Hp Hd].
  cbn. split; [now destruct (Row.processed row)|]. split; [discriminate|].
  exists (Row.created_at row). split; [reflexivity|].
  destruct target_date; [now apply Z.eqb_eq|exact I].
Qed.

End StoreOperations.

Lemma writes_keep_ids_unique_witness :
  (forall now intention,
     unique_ids (snd (Database.save_intention now intention Fixtures.sample_world))) /\
  (forall ids, unique_ids (snd (Database.mark_as_processed Fixtures.sqlite_limit ids Fixtures.sample_world))).
Proof.
  apply (writes_keep_ids_unique Fixtures.sqlite_limit Fixtures.sample_world).
  unfold unique_ids. cbn. repeat constructor; cbn; intuition discriminate.
Defined.

(** ** Further properties: a sync run as a whole *)

Section RunAsAWhole.

Variable server : Server.
Variable klaviyo_client : KlaviyoClient.t.
Variable max_variable_number : nat.

Implicit Types (w : World) (rows : list Row.t).

Lemma forward_all_budget contacts :
  forall success_count failed_count,
    sends_at_most (List.length contacts * (3 * KlaviyoClient.MAX_RETRIES))
                  (Scheduler.forward_all server klaviyo_client contacts
                                         success_count failed_count).
Proof.
  induction contacts as [|contact rest IH]; intros sc fc.
  - apply sends_at_most_ret.
  - cbn [Scheduler.forward_all List.length Nat.mul].
    apply sends_at_most_bind.
    + eapply sends_at_most_le; [|apply sends_at_most_process_contact].
      destruct (PyStr.truthy (KlaviyoClient.list_id klaviyo_client));
        destruct (KlaviyoClient.is_extended (KlaviyoClient.mode klaviyo_client)); lia.
    + intros [|]; apply IH.
Qed.

Lemma forward_all_counts contacts :
  forall success_count failed_count w,
    exists s f,
      fst (Scheduler.forward_all server klaviyo_client contacts success_count failed_count w)
      = Ok (s, f) /\
      success_count <= s /\ failed_count <= f.
Proof.
  induction contacts as [|contact rest IH]; intros sc fc w.
  - exists sc, fc. cbn. repeat split; lia.
  - cbn [Scheduler.forward_all]. unfold bind.
    destruct (process_contact_returns server klaviyo_client contact w) as (ok & w1 & ->).
    destruct ok.
    + destruct (IH (sc + 1) fc w1) as (s & f & Hrun & Hs & Hf).
      exists s, f. repeat split; auto; lia.
    + destruct (IH sc (fc + 1) w1) as (s & f & Hrun & Hs & Hf).
      exists s, f. repeat split; auto; lia.
Qed.

Lemma length_dict_append key v d :
  (List.length (Processor.dict_append key v d) <= S (List.length d))%nat.
Proof.
  induction d as [|[k vs] d IH]; cbn [Processor.dict_append List.length]; [lia|].
  destruct (String.eqb key k); cbn [List.length]; lia.
Qed.

Lemma length_group_into l :
  forall d, (List.length (Processor.group_into d l) <= List.length d + List.length l)%nat.
Proof.
  induction l as [|r l IH]; intros d; cbn [Processor.group_into List.length]; [lia|].
  destruct (PyStr.truthy (BI.email r)).
  - specialize (IH (Processor.dict_append (Processor.normalize (BI.email r)) r d)).
    pose proof (length_dict_append (Processor.normalize (BI.email r)) r d). lia.
  - specialize (IH d). lia.
Qed.

Lemma aggregate_length l contacts :
  Processor.aggregate_intentions l = Ok contacts ->
  (List.length contacts <= List.length l)%nat.
Proof.
  intros Hrun. pose proof (aggregate_emails l contacts Hrun) as Hemails.
  apply (f_equal (@List.length string)) in Hemails. rewrite !length_map in Hemails.
  rewrite Hemails. pose proof (length_group_into l []). cbn in H. exact H.
Qed.

(** The forwarding part of a run that found records. *)
Lemma run_daily_sync_forwarding today target_date w :
  let rows := Database.order_by_created_at
                (filter (Database.selected (Some (effective_date today target_date)))
                        (table w)) in
  exists contacts counts w1 requests,
    Processor.aggregate_intentions (map Database.to_intention rows) = Ok contacts /\
    Scheduler.forward_all server klaviyo_client contacts 0 0 w = (Ok counts, w1) /\
    table w1 = table w /\ commits w1 = commits w /\
    sent w1 = sent w ++ requests /\
    (List.length requests <= List.length contacts * (3 * KlaviyoClient.MAX_RETRIES))%nat /\
    (List.length contacts <= day_size (effective_date today target_date) w)%nat /\
    0 <= fst counts /\ 0 <= snd counts /\
    fst counts + snd counts = Z.of_nat (List.length contacts).
Proof.
  intros rows.
  destruct (aggregate_total (map Database.to_intention rows)) as [contacts Hagg].
  { apply to_intention_has_created_at. }
  destruct (forward_all_returns server klaviyo_client contacts 0 0 w)
    as (s & f & w1 & Hfwd & Ht & Hc & Hsum).
  destruct (forward_all_counts contacts 0 0 w) as (s' & f' & Hfwd' & Hs & Hf).
  rewrite Hfwd in Hfwd'. cbn [fst] in Hfwd'. inversion Hfwd'; subst s' f'.
  destruct (forward_all_budget contacts 0 0 w) as (requests & Hsent & Hlen).
  rewrite Hfwd in Hsent. cbn [snd] in Hsent.
  exists contacts, (s, f), w1, requests. cbn [fst snd].
  pose proof (aggregate_length _ _ Hagg) as Hcontacts.
  unfold rows in Hcontacts. rewrite length_map, length_order_by_created_at in Hcontacts.
  repeat split; auto; lia.
Qed.

(** What a run does to the world, whatever the server answers, on a day
    with no more records than SQLite takes parameters. *)
Lemma run_daily_sync_outcome today target_date w :
  (day_size (effective_date today target_date) w <= max_variable_number)%nat ->
  let rows := Database.order_by_created_at
                (filter (Database.selected (Some (effective_date today target_date)))
                        (table w)) in
  exists result w' contacts requests,
    Scheduler.run_daily_sync server klaviyo_client max_variable_number today target_date w
    = (Ok result, w') /\
    Processor.aggregate_intentions (map Database.to_intention rows) = Ok contacts /\
    table w' = Database.update_processed (map Row.id rows) (table w) /\
    commits w' = (match rows with [] => commits w | _ => S (commits w) end) /\
    sent w' = sent w ++ requests /\
    (List.length requests <= List.length contacts * (3 * KlaviyoClient.MAX_RETRIES))%nat /\
    Scheduler.date result = effective_date today target_date /\
    Scheduler.intentions_found result = Z.of_nat (List.length rows) /\
    Scheduler.contacts_processed result = Z.of_nat (List.length contacts) /\
    0 <= Scheduler.success result /\ 0 <= Scheduler.failed result /\
    Scheduler.success result + Scheduler.failed result = Scheduler.contacts_processed result.
Proof.
  intros Hfit rows. set (day := effective_date today target_date) in *.
  assert (Hfetch : Database.get_unprocessed_intentions (Some day) w
                   = (Ok (map Database.to_intention rows), w)) by reflexivity.
  assert (Hsize : List.length rows = day_size day w)
    by apply length_order_by_created_at.
  destruct (run_daily_sync_forwarding today target_date w)
    as (contacts & counts & w1 & requests & Hagg & Hfwd & Ht & Hc & Hsent & Hlen
        & _ & Hs & Hf & Hsum).
  fold day in Hagg. fold rows in Hagg.
  destruct rows as [|row0 rows'] eqn:Hrows.
  - exists {| Scheduler.date := day; Scheduler.intentions_found := 0;
              Scheduler.contacts_processed := 0; Scheduler.success := 0;
              Scheduler.failed := 0 |}, w, [], [].
    split.
    { unfold Scheduler.run_daily_sync. fold (effective_date today target_date). fold day.
      unfold bind at 1. rewrite Hfetch. reflexivity. }
    cbn. rewrite app_nil_r, update_processed_nil. repeat split; lia.
  - pose proof (run_daily_sync_steps server klaviyo_client max_variable_number
                  today target_date w _ contacts counts w1 Hfetch) as Hrun.
    fold day in Hrun. rewrite ids_of_fetched in Hrun.
    rewrite (mark_as_processed_within max_variable_number) in Hrun
      by (rewrite length_map; lia).
    specialize (Hrun ltac:(discriminate) Hagg Hfwd).
    eexists. eexists. exists contacts, requests. split; [exact Hrun|].
    cbn [map table commits sent Scheduler.date Scheduler.intentions_found
         Scheduler.contacts_processed Scheduler.success Scheduler.failed fst snd].
    split; [exact Hagg|]. rewrite Ht, Hc.
    repeat split; auto; try lia.
    cbn [List.length]. now rewrite length_map.
Qed.

(** What a run does on a day with more records than that: it forwards
    every contact, then raises; nothing is written. *)
Lemma run_daily_sync_overflow today target_date w :
  (max_variable_number < day_size (effective_date today target_date) w)%nat ->
  exists w' requests,
    Scheduler.run_daily_sync server klaviyo_client max_variable_number today target_date w
    = (Raise OperationalError, w') /\
    table w' = table w /\
    commits w' = commits w /\
    sent w' = sent w ++ requests /\
    (List.length requests
     <= day_size (effective_date today target_date) w * (3 * KlaviyoClient.MAX_RETRIES))%nat.
Proof.
  intros Hover. set (day := effective_date today target_date) in *.
  set (rows := Database.order_by_created_at
                 (filter (Database.selected (Some day)) (table w))).
  assert (Hfetch : Database.get_unprocessed_intentions (Some day) w
                   = (Ok (map Database.to_intention rows), w)) by reflexivity.
  assert (Hsize : List.length rows = day_size day w)
    by apply length_order_by_created_at.
  destruct (run_daily_sync_forwarding today target_date w)
    as (contacts & counts & w1 & requests & Hagg & Hfwd & Ht & Hc & Hsent & Hlen
        & Hcontacts & _).
  fold day in Hagg, Hcontacts. fold rows in Hagg.
  pose proof (run_daily_sync_steps server klaviyo_client max_variable_number
                today target_date w _ contacts counts w1 Hfetch) as Hrun.
  fold day in Hrun. rewrite ids_of_fetched in Hrun.
  rewrite (mark_as_processed_beyond max_variable_number) in Hrun
    by (rewrite length_map; lia).
  assert (Hne : map Database.to_intention rows <> []).
  { intros Hnil. apply (f_equal (@List.length BI.t)) in Hnil.
    rewrite length_map in Hnil. cbn in Hnil. lia. }
  specialize (Hrun Hne Hagg Hfwd).
  exists w1, requests. split; [exact Hrun|]. split; [exact Ht|]. split; [exact Hc|].
  split; [exact Hsent|]. nia.
Qed.

Lemma selected_ids_cover target_date rows :
  forall r, In r rows -> Database.selected target_date r = true ->
            In (Row.id r)
               (map Row.id (Database.order_by_created_at
                              (filter (Database.selected target_date) rows))).
Proof.
  intros r Hin Hsel. apply in_map. apply in_order_by_created_at.
  apply filter_In. now split.
Qed.

Lemma same_id_same_row rows a b :
  NoDup (map Row.id rows) -> In a rows -> In b rows -> Row.id a = Row.id b -> a = b.
Proof.
  induction rows as [|x rows IH]; cbn; intros Hnd Ha Hb Hid; [destruct Ha|].
  inversion Hnd as [|? ? Hnotin Hnd']; subst.
  destruct Ha as [->|Ha], Hb as [->|Hb]; auto.
  - exfalso. apply Hnotin. rewrite Hid. now apply in_map.
  - exfalso. apply Hnotin. rewrite <- Hid. now apply in_map.
Qed.

Lemma Forall2_map_in {A B : Type} (R : A -> B -> Prop) (f : A -> B) (l : list A) :
  (forall x, In x l -> R x (f x)) -> Forall2 R l (map f l).
Proof.
  induction l as [|x l IH]; intros Hall; cbn [map]; constructor.
  - apply Hall. now left.
  - apply IH. intros y Hy. apply Hall. now right.
Qed.

Lemma Forall2_same {A : Type} (R : A -> A -> Prop) (l : list A) :
  (forall x, In x l -> R x x) -> Forall2 R l l.
Proof.
  induction l as [|x l IH]; intros Hall; constructor.
  - apply Hall. now left.
  - apply IH. intros y Hy. apply Hall. now right.
Qed.

(** The table a run leaves on a day within the limit, row by row. *)
Lemma run_daily_sync_rows today target_date w :
  unique_ids w ->
  (day_size (effective_date today target_date) w <= max_variable_number)%nat ->
  Forall2 (fun r r' =>
             r' = if Database.selected (Some (effective_date today target_date)) r
                  then Database.set_processed r else r)
          (table w)
          (table (snd (Scheduler.run_daily_sync server klaviyo_client max_variable_number
                                                today target_date w))).
Proof.
  intros Hnd Hfit.
  destruct (run_daily_sync_outcome today target_date w Hfit)
    as (result & w' & contacts & requests & Hrun & _ & Ht & _).
  rewrite Hrun. cbn [snd]. rewrite Ht. unfold Database.update_processed.
  set (day := effective_date today target_date) in *.
  assert (Hall : forall r, In r (table w) ->
             (if Database.id_in
                   (map Row.id
                        (Database.order_by_created_at
                           (filter (Database.selected (Some day)) (table w))))
                   (Row.id r)
              then Database.set_processed r else r)
             = (if Database.selected (Some day) r then Database.set_processed r else r)).
  { intros r Hr.
    destruct (Database.selected (Some day) r) eqn:Hsel.
    - rewrite (proj2 (id_in_spec _ _) (selected_ids_cover (Some day) (table w) r Hr Hsel)).
      reflexivity.
    - destruct (Database.id_in _ (Row.id r)) eqn:Hin; [|reflexivity].
      apply id_in_spec in Hin. apply in_map_iff in Hin. destruct Hin as [r0 [Hid Hr0]].
      apply (proj1 (in_order_by_created_at _ _)) in Hr0. apply filter_In in Hr0.
      destruct Hr0 as [Hr0 Hsel0].
      assert (r0 = r) by (eapply same_id_same_row; eauto).
      subst r0. congruence. }
  apply Forall2_map_in. intros r Hr. cbv beta. now apply Hall.
Qed.

(** X12. With distinct ids in the table, a run changes no row but the
    ones it fetched, and of those nothing but the processed flag, whatever
    the server answered. On a day with no more records than SQLite takes
    parameters every unprocessed row of the target day ends up processed
    and every other row (another day, or processed before) is left as it
    was; on a day with more, no row changes at all. *)
Theorem run_touches_only_fetched_rows today target_date w :
  unique_ids w ->
  Forall2 (fun r r' =>
             r' = r \/
             Database.selected (Some (effective_date today target_date)) r = true /\
             r' = Database.set_processed r)
          (table w)
          (table (snd (Scheduler.run_daily_sync server klaviyo_client max_variable_number
                                                today target_date w))) /\
  ((day_size (effective_date today target_date) w <= max_variable_number)%nat ->
   Forall2 (fun r r' =>
              r' = if Database.selected (Some (effective_date today target_date)) r
                   then Database.set_processed r else r)
           (table w)
           (table (snd (Scheduler.run_daily_sync server klaviyo_client max_variable_number
                                                 today target_date w)))) /\
  ((max_variable_number < day_size (effective_date today target_date) w)%nat ->
   table (snd (Scheduler.run_daily_sync server klaviyo_client max_variable_number
                                        today target_date w)) = table w).
Proof.
  intros Hnd.
  destruct (Nat.le_gt_cases (day_size (effective_date today target_date) w)
                            max_variable_number) as [Hfit|Hover].
  - pose proof (run_daily_sync_rows today target_date w Hnd Hfit) as Hrows.
    split; [|split; [intros _; exact Hrows|intros Hover; lia]].
    eapply Forall2_impl; [|exact Hrows]. cbv beta. intros r r' ->.
    destruct (Database.selected (Some (effective_date today target_date)) r); auto.
  - destruct (run_daily_sync_overflow today target_date w Hover)
      as (w' & requests & Hrun & Ht & _).
    rewrite Hrun. cbn [snd]. rewrite Ht.
    split; [|split; [intros Hfit; lia|reflexivity]].
    apply Forall2_same. auto.
Qed.

(** X14. The cost of a run. Whatever the server answers, it sends at most
    [3 * MAX_RETRIES] requests per record of the day. On a day with no
    more records than SQLite takes parameters it returns: it reports as
    found the number of unprocessed rows of the day, builds at most one
    contact per record, commits one write when it found something and none
    otherwise, sends at most [3 * MAX_RETRIES] requests per contact, and
    its two tallies are not negative and add up to the number of
    contacts. On a day with more records the requests are sent all the
    same, then the run raises and commits nothing. *)
Theorem run_cost today target_date w :
  (exists requests,
     sent (snd (Scheduler.run_daily_sync server klaviyo_client max_variable_number
                                         today target_date w)) = sent w ++ requests /\
     (List.length requests
      <= day_size (effective_date today target_date) w * (3 * KlaviyoClient.MAX_RETRIES))%nat)
  /\
  ((day_size (effective_date today target_date) w <= max_variable_number)%nat ->
   exists result w' requests,
     Scheduler.run_daily_sync server klaviyo_client max_variable_number today target_date w
     = (Ok result, w') /\
     Scheduler.intentions_found result =
       Z.of_nat (day_size (effective_date today target_date) w) /\
     0 <= Scheduler.contacts_processed result <= Scheduler.intentions_found result /\
     0 <= Scheduler.success result /\ 0 <= Scheduler.failed result /\
     Scheduler.success result + Scheduler.failed result
     = Scheduler.contacts_processed result /\
     commits w' = (if Scheduler.intentions_found result =? 0 then commits w
                   else S (commits w)) /\
     sent w' = sent w ++ requests /\
     Z.of_nat (List.length requests)
     <= Scheduler.contacts_processed result * Z.of_nat (3 * KlaviyoClient.MAX_RETRIES))
  /\
  ((max_variable_number < day_size (effective_date today target_date) w)%nat ->
   exists w',
     Scheduler.run_daily_sync server klaviyo_client max_variable_number today target_date w
     = (Raise OperationalError, w') /\
     commits w' = commits w /\ table w' = table w).
Proof.
  assert (Hwithin :
    (day_size (effective_date today target_date) w <= max_variable_number)%nat ->
    exists result w' requests,
      Scheduler.run_daily_sync server klaviyo_client max_variable_number today target_date w
      = (Ok result, w') /\
      Scheduler.intentions_found result =
        Z.of_nat (day_size (effective_date today target_date) w) /\
      0 <= Scheduler.contacts_processed result <= Scheduler.intentions_found result /\
      0 <= Scheduler.success result /\ 0 <= Scheduler.failed result /\
      Scheduler.success result + Scheduler.failed result
      = Scheduler.contacts_processed result /\
      commits w' = (if Scheduler.intentions_found result =? 0 then commits w
                    else S (commits w)) /\
      sent w' = sent w ++ requests /\
      Z.of_nat (List.length requests)
      <= Scheduler.contacts_processed result * Z.of_nat (3 * KlaviyoClient.MAX_RETRIES)).
  { intros Hfit.
    destruct (run_daily_sync_outcome today target_date w Hfit)
      as (result & w' & contacts & requests & Hrun & Hagg & _ & Hc & Hsent & Hlen
          & _ & Hfound & Hcontacts & Hs & Hf & Hsum).
    exists result, w', requests. split; [exact Hrun|].
    apply aggregate_length in Hagg. rewrite length_map in Hagg.
    rewrite length_order_by_created_at in Hfound, Hagg.
    fold (day_size (effective_date today target_date) w) in Hfound, Hagg.
    split; [exact Hfound|]. split; [lia|]. split; [exact Hs|]. split; [exact Hf|].
    split; [exact Hsum|]. split.
    - rewrite Hc, Hfound.
      destruct (Database.order_by_created_at
                  (filter (Database.selected (Some (effective_date today target_date)))
                          (table w))) as [|row rows] eqn:Hrows.
      + apply (f_equal (@List.length Row.t)) in Hrows.
        rewrite length_order_by_created_at in Hrows.
        fold (day_size (effective_date today target_date) w) in Hrows.
        rewrite Hrows. reflexivity.
      + apply (f_equal (@List.length Row.t)) in Hrows.
        rewrite length_order_by_created_at in Hrows.
        fold (day_size (effective_date today target_date) w) in Hrows.
        rewrite Hrows. reflexivity.
    - split; [exact Hsent|]. rewrite Hcontacts, <- Nat2Z.inj_mul. now apply Nat2Z.inj_le. }
  split; [|split; [exact Hwithin|]].
  - destruct (Nat.le_gt_cases (day_size (effective_date today target_date) w)
                              max_variable_number) as [Hfit|Hover].
    + destruct (Hwithin Hfit)
        as (result & w' & requests & Hrun & Hfound & Hcontacts & _ & _ & _ & _ & Hsent & Hlen).
      exists requests. rewrite Hrun. cbn [snd]. split; [exact Hsent|].
      apply Nat2Z.inj_le. rewrite Nat2Z.inj_mul. nia.
    + destruct (run_daily_sync_overflow today target_date w Hover)
        as (w' & requests & Hrun & _ & _ & Hsent & Hlen).
      exists requests. rewrite Hrun. cbn [snd]. split; [exact Hsent|exact Hlen].
  - intros Hover.
    destruct (run_daily_sync_overflow today target_date w Hover)
      as (w' & requests & Hrun & Ht & Hc & _).
    exists w'. split; [exact Hrun|]. split; [exact Hc|exact Ht].
Qed.

End RunAsAWhole.

Section Rerun.

Variable server server2 : Server.
Variable klaviyo_client client2 : KlaviyoClient.t.
Variable max_variable_number : nat.

(** X13. A second run for the same day, right after a first one on a day
    with no more records than SQLite takes parameters, finds nothing: it
    returns the all-zero result and leaves the world as the first run left
    it, so no contact is forwarded twice, whatever the server answered in
    the first run. After a first run on a day with more records, which
    raised, the second run finds the same records again and raises as
    well. *)
Theorem second_run_is_idle today target_date w :
  ((day_size (effective_date today target_date) w <= max_variable_number)%nat ->
   Scheduler.run_daily_sync server2 client2 max_variable_number today target_date
     (snd (Scheduler.run_daily_sync server klaviyo_client max_variable_number
                                    today target_date w))
   = (Ok {| Scheduler.date := effective_date today target_date;
            Scheduler.intentions_found := 0;
            Scheduler.contacts_processed := 0;
            Scheduler.success := 0;
            Scheduler.failed := 0 |},
      snd (Scheduler.run_daily_sync server klaviyo_client max_variable_number
                                    today target_date w)))
  /\
  ((max_variable_number < day_size (effective_date today target_date) w)%nat ->
   fst (Scheduler.run_daily_sync server klaviyo_client max_variable_number
                                 today target_date w) = Raise OperationalError /\
   fst (Database.get_unprocessed_intentions (Some (effective_date today target_date))
          (snd (Scheduler.run_daily_sync server klaviyo_client max_variable_number
                                         today target_date w)))
   = fst (Database.get_unprocessed_intentions (Some (effective_date today target_date)) w) /\
   fst (Scheduler.run_daily_sync server2 client2 max_variable_number today target_date
          (snd (Scheduler.run_daily_sync server klaviyo_client max_variable_number
                                         today target_date w)))
   = Raise OperationalError).
Proof.
  split.
  - intros Hfit.
    destruct (run_daily_sync_outcome server klaviyo_client max_variable_number
                today target_date w Hfit)
      as (result & w' & contacts & requests & Hrun & _ & Ht & _).
    rewrite Hrun. cbn [snd].
    unfold Scheduler.run_daily_sync. fold (effective_date today target_date).
    unfold bind at 1. unfold Database.get_unprocessed_intentions. rewrite Ht.
    rewrite (nothing_left (Some (effective_date today target_date)) _ (table w)
               (selected_ids_cover (Some (effective_date today target_date)) (table w))).
    reflexivity.
  - intros Hover.
    destruct (run_daily_sync_overflow server klaviyo_client max_variable_number
                today target_date w Hover)
      as (w' & requests & Hrun & Ht & _).
    rewrite Hrun. cbn [fst snd]. split; [reflexivity|]. split.
    + unfold Database.get_unprocessed_intentions. cbn [fst]. now rewrite Ht.
    + assert (Hover' : (max_variable_number
                        < day_size (effective_date today target_date) w')%nat).
      { unfold day_size in *. now rewrite Ht. }
      destruct (run_daily_sync_overflow server2 client2 max_variable_number
                  today target_date w' Hover')
        as (w2 & requests2 & Hrun2 & _).
      now rewrite Hrun2.
Qed.

End Rerun.

Lemma run_touches_only_fetched_rows_witness :
  Forall2 (fun r r' =>
             r' = if Database.selected (Some (effective_date 2 None)) r
                  then Database.set_processed r else r)
          (table Fixtures.sample_world)
          (table (snd (Scheduler.run_daily_sync Fixtures.unreachable_server
                         Fixtures.extended_client Fixtures.sqlite_limit 2 None
                         Fixtures.sample_world))).
Proof.
  destruct (run_touches_only_fetched_rows Fixtures.unreachable_server
              Fixtures.extended_client Fixtures.sqlite_limit 2 None Fixtures.sample_world)
    as (_ & Hfit & _).
  - unfold unique_ids. cbn. repeat constructor; cbn; intuition discriminate.
  - apply Hfit. apply Nat.leb_le. reflexivity.
Defined.

(** A second run after the one on the sample day is idle; a second run
    after the one on the busy day raises like the first. *)
Lemma second_run_is_idle_witness :
  Scheduler.run_daily_sync Fixtures.rate_limiting_server Fixtures.simple_client
    Fixtures.sqlite_limit 2 None
    (snd (Scheduler.run_daily_sync Fixtures.unreachable_server Fixtures.extended_client
                                   Fixtures.sqlite_limit 2 None Fixtures.sample_world))
  = (Ok {| Scheduler.date := 1;
           Scheduler.intentions_found := 0;
           Scheduler.contacts_processed := 0;
           Scheduler.success := 0;
           Scheduler.failed := 0 |},
     snd (Scheduler.run_daily_sync Fixtures.unreachable_server Fixtures.extended_client
                                   Fixtures.sqlite_limit 2 None Fixtures.sample_world))
  /\
  fst (Scheduler.run_daily_sync Fixtures.rate_limiting_server Fixtures.simple_client
         Fixtures.sqlite_limit 2 None
         (snd (Scheduler.run_daily_sync Fixtures.unreachable_server Fixtures.extended_client
                                        Fixtures.sqlite_limit 2 None Fixtures.busy_day)))
  = Raise OperationalError.
Proof.
  split.
  - apply (proj1 (second_run_is_idle Fixtures.unreachable_server
                    Fixtures.rate_limiting_server Fixtures.extended_client
                    Fixtures.simple_client Fixtures.sqlite_limit 2 None
                    Fixtures.sample_world)).
    apply Nat.leb_le. reflexivity.
  - apply (proj2 (second_run_is_idle Fixtures.unreachable_server
                    Fixtures.rate_limiting_server Fixtures.extended_client
                    Fixtures.simple_client Fixtures.sqlite_limit 2 None
                    Fixtures.busy_day)).
    change (effective_date 2 None) with 1. rewrite busy_day_size.
    apply Nat.lt_succ_diag_r.
Defined.

(** The run on the busy day commits nothing. *)
Lemma run_cost_witness :
  exists w',
    Scheduler.run_daily_sync Fixtures.unreachable_server Fixtures.extended_client
                             Fixtures.sqlite_limit 2 None Fixtures.busy_day
    = (Raise OperationalError, w') /\
    commits w' = commits Fixtures.busy_day /\ table w' = table Fixtures.busy_day.
Proof.
  apply (proj2 (proj2 (run_cost Fixtures.unreachable_server Fixtures.extended_client
                                Fixtures.sqlite_limit 2 None Fixtures.busy_day))).
  change (effective_date 2 None) with 1. rewrite busy_day_size.
  apply Nat.lt_succ_diag_r.
Defined.

(** ** Further properties: the aggregator *)

Section AggregatorOrderAndTotals.

Implicit Types (l intentions records : list BI.t) (d : list (string * list BI.t)).

Lemma existsb_eqb_in k (seen : list string) :
  existsb (String.eqb k) seen = true <-> In k seen.
Proof.
  rewrite existsb_exists. split.
  - intros [x [Hin Heq]]. apply String.eqb_eq in Heq. now subst.
  - intros Hin. exists k. split; [assumption|apply String.eqb_refl].
Qed.

Lemma keys_group_into l :
  forall d,
    map fst (Processor.group_into d l) =
    map fst d ++ first_occurrences (grouped_keys l) (map fst d).
Proof.
  unfold grouped_keys.
  induction l as [|r l IH]; intros d; cbn [Processor.group_into filter map first_occurrences].
  - now rewrite app_nil_r.
  - destruct (PyStr.truthy (BI.email r)); cbn [map first_occurrences]; [|apply IH].
    rewrite IH.
    destruct (existsb (String.eqb (Processor.normalize (BI.email r))) (map fst d)) eqn:Hseen.
    + apply existsb_eqb_in in Hseen. now rewrite keys_append_in.
    + assert (Hfresh : ~ In (Processor.normalize (BI.email r)) (map fst d)).
      { rewrite <- existsb_eqb_in. congruence. }
      rewrite keys_append_fresh by assumption. now rewrite <- app_assoc.
Qed.

(** X15. The contacts come out in the order in which their emails first
    appear in the input: the output emails are the normalized emails of
    the records that have one, with every repetition after the first
    dropped. *)
Theorem aggregate_keeps_first_seen_order intentions :
  Forall has_created_at intentions ->
  exists contacts,
    Processor.aggregate_intentions intentions = Ok contacts /\
    map PC.email contacts = first_occurrences (grouped_keys intentions) [].
Proof.
  intros Hall. destruct (aggregate_total intentions Hall) as [contacts Hrun].
  exists contacts. split; [exact Hrun|].
  rewrite (aggregate_emails _ _ Hrun). unfold Processor.group_by_email.
  now rewrite keys_group_into.
Qed.

Lemma count_kinds_partition records :
  Processor.count_kind INTENTION records + Processor.count_kind APPOINTMENT records
  = Z.of_nat (List.length records).
Proof.
  unfold Processor.count_kind, Processor.is_kind.
  induction records as [|r records IH]; [reflexivity|].
  cbn [filter List.length]. destruct (BI.intention_type r); cbn [IntentionType_eqb List.length]; lia.
Qed.

Lemma total_dict_append key v d :
  sum_Z (map (fun e => Z.of_nat (List.length (snd e))) (Processor.dict_append key v d))
  = sum_Z (map (fun e => Z.of_nat (List.length (snd e))) d) + 1.
Proof.
  induction d as [|[k vs] d IH]; cbn [Processor.dict_append map sum_Z snd List.length];
    [lia|].
  destruct (String.eqb key k); cbn [map sum_Z snd].
  - rewrite length_app. cbn [List.length]. lia.
  - rewrite IH. lia.
Qed.

Lemma total_group_into l :
  forall d,
    sum_Z (map (fun e => Z.of_nat (List.length (snd e))) (Processor.group_into d l))
    = sum_Z (map (fun e => Z.of_nat (List.length (snd e))) d)
      + Z.of_nat (List.length (filter (fun r => PyStr.truthy (BI.email r)) l)).
Proof.
  induction l as [|r l IH]; intros d; cbn [Processor.group_into filter List.length]; [lia|].
  destruct (PyStr.truthy (BI.email r)); [|apply IH].
  rewrite IH, total_dict_append. cbn [List.length]. lia.
Qed.

Lemma aggregate_sum intentions contacts :
  Processor.aggregate_intentions intentions = Ok contacts ->
  sum_Z (map (fun c => PC.intention_count c + PC.appointment_count c) contacts)
  = Z.of_nat (List.length (filter (fun r => PyStr.truthy (BI.email r)) intentions)).
Proof.
  intros Hrun. pose proof (aggregate_inv _ _ Hrun) as Hbuilt.
  pose proof (total_group_into intentions []) as Htotal.
  fold (Processor.group_by_email intentions) in Htotal. cbn [map sum_Z] in Htotal.
  rewrite Z.add_0_l in Htotal. rewrite <- Htotal. clear Htotal Hrun.
  induction Hbuilt as [|[key records] c groups cs Hbuild _ IH]; [reflexivity|].
  cbn [map sum_Z snd]. rewrite IH. f_equal.
  apply build_contact_inv in Hbuild. destruct Hbuild as (_ & Hi & Ha & _).
  now rewrite Hi, Ha, count_kinds_partition.
Qed.

(** X16. No record is lost or counted twice: the counts of a contact add
    up to the size of its group, which is at least one, and the counts of
    all contacts together add up to the number of input records that
    carry an email. *)
Theorem aggregate_counts_every_record_once intentions :
  Forall has_created_at intentions ->
  exists contacts,
    Processor.aggregate_intentions intentions = Ok contacts /\
    (forall c, In c contacts ->
       PC.intention_count c + PC.appointment_count c
       = Z.of_nat (List.length (group_of (PC.email c) intentions)) /\
       0 <= PC.intention_count c /\ 0 <= PC.appointment_count c /\
       1 <= PC.intention_count c + PC.appointment_count c) /\
    sum_Z (map (fun c => PC.intention_count c + PC.appointment_count c) contacts)
    = Z.of_nat (List.length (filter (fun r => PyStr.truthy (BI.email r)) intentions)).
Proof.
  intros Hall. destruct (aggregate_total intentions Hall) as [contacts Hrun].
  exists contacts. split; [exact Hrun|]. split.
  - intros c Hin. destruct (aggregate_contact_group _ _ _ Hrun Hin) as [Hne Hbuild].
    apply build_contact_inv in Hbuild. destruct Hbuild as (_ & Hi & Ha & _).
    rewrite Hi, Ha, count_kinds_partition.
    unfold Processor.count_kind. repeat split; try lia.
    destruct (group_of (PC.email c) intentions); [congruence|]. cbn [List.length]. lia.
  - now apply aggregate_sum.
Qed.

Lemma sorted_last {A : Type} (R : A -> A -> Prop) (xs : list A) (d : A) :
  StronglySorted R xs -> xs <> [] ->
  In (List.last xs d) xs /\
  forall x, In x xs -> x = List.last xs d \/ R x (List.last xs d).
Proof.
  intros Hsorted Hne.
  destruct (exists_last Hne) as (front & z & ->).
  rewrite last_last. split; [apply in_or_app; right; now left|].
  intros x Hx. apply in_app_or in Hx. destruct Hx as [Hx|[<-|[]]]; [right|now left].
  eapply sorted_before; eassumption.
Qed.

(** X17. On creation-ascending input the business context of a contact
    (salon, stylist, treatment, price, appointment date) is copied from
    one record of its group: an appointment that is at least as new as
    every appointment of the group if the group has one, else a record
    that is at least as new as every record of the group. *)
Theorem aggregate_context_from_newest intentions :
  chronological intentions -> Forall has_created_at intentions ->
  exists contacts,
    Processor.aggregate_intentions intentions = Ok contacts /\
    forall c, In c contacts ->
      exists source,
        In source (group_of (PC.email c) intentions) /\
        PC.salon_id c = BI.salon_id source /\
        PC.salon_name c = BI.salon_name source /\
        PC.stylist_id c = BI.stylist_id source /\
        PC.stylist_name c = BI.stylist_name source /\
        PC.treatment c = BI.treatment source /\
        PC.price c = BI.price source /\
        PC.appointment_date c = BI.appointment_date source /\
        ((exists a, In a (group_of (PC.email c) intentions) /\
                    BI.intention_type a = APPOINTMENT) ->
         BI.intention_type source = APPOINTMENT /\
         forall a, In a (group_of (PC.email c) intentions) ->
                   BI.intention_type a = APPOINTMENT -> created_le a source) /\
        ((forall a, In a (group_of (PC.email c) intentions) ->
                    BI.intention_type a <> APPOINTMENT) ->
         forall r, In r (group_of (PC.email c) intentions) -> created_le r source).
Proof.
  intros Hsorted Hall. destruct (aggregate_total intentions Hall) as [contacts Hrun].
  exists contacts. split; [exact Hrun|]. intros c Hin.
  destruct (aggregate_contact_group _ _ _ Hrun Hin) as [Hne Hbuild].
  set (records := group_of (PC.email c) intentions) in *.
  assert (Hrs : chronological records) by (now apply sorted_filter).
  assert (Hra : Forall has_created_at records) by (now apply group_of_has_created_at).
  destruct (build_contact_details _ _ _ Hbuild) as (latest & Hmax & Hfields).
  cbv zeta in Hfields.
  set (appointments := filter (Processor.is_kind APPOINTMENT) records) in *.
  assert (Hkind : forall a, In a appointments <->
                            In a records /\ BI.intention_type a = APPOINTMENT).
  { intros a. unfold appointments. rewrite filter_In. unfold Processor.is_kind.
    destruct (BI.intention_type a); cbn; intuition congruence. }
  destruct (py_max_first_maximal records latest Hra Hmax)
    as (before & after & Hsplit & Hbefore & Hafter).
  assert (Hlatest_in : In latest records).
  { rewrite Hsplit. apply in_or_app. right. now left. }
  assert (Hlatest_max : forall r, In r records -> created_le r latest).
  { intros r Hr. rewrite Hsplit in Hr. apply in_app_or in Hr.
    destruct Hr as [Hr|[<-|Hr]].
    - now apply Hbefore.
    - apply created_le_refl. rewrite Forall_forall in Hra. now apply Hra.
    - now apply Hafter. }
  destruct appointments as [|a0 rest] eqn:Happ.
  - exists latest. cbn [List.last] in Hfields. split; [exact Hlatest_in|].
    destruct Hfields as (H1 & H2 & H3 & H4 & H5 & H6 & H7).
    repeat (split; [assumption|]). split.
    + intros [a [Ha Hk]]. exfalso. apply (proj2 (Hkind a)); auto.
    + intros _. exact Hlatest_max.
  - assert (Hne' : a0 :: rest <> []) by discriminate.
    assert (Hsa : StronglySorted created_le (a0 :: rest)).
    { rewrite <- Happ. unfold appointments. now apply sorted_filter. }
    destruct (sorted_last created_le (a0 :: rest) latest Hsa Hne') as [Hlast_in Hlast_max].
    exists (List.last (a0 :: rest) latest).
    destruct Hfields as (H1 & H2 & H3 & H4 & H5 & H6 & H7).
    apply Hkind in Hlast_in. destruct Hlast_in as [Hlast_rec Hlast_kind].
    split; [exact Hlast_rec|].
    repeat (split; [assumption|]). split.
    + intros _. split; [exact Hlast_kind|].
      intros a Ha Hk. destruct (Hlast_max a) as [->|Hle].
      * apply Hkind. now split.
      * apply created_le_refl. rewrite Forall_forall in Hra. now apply Hra.
      * exact Hle.
    + intros Hnone. exfalso. exact (Hnone _ Hlast_rec Hlast_kind).
Qed.

End AggregatorOrderAndTotals.

Lemma aggregate_keeps_first_seen_order_witness :
  exists contacts,
    Processor.aggregate_intentions Fixtures.scenario = Ok contacts /\
    map PC.email contacts = first_occurrences (grouped_keys Fixtures.scenario) [].
Proof.
  apply (aggregate_keeps_first_seen_order Fixtures.scenario).
  repeat constructor; unfold has_created_at; simpl; discriminate.
Defined.

Lemma aggregate_counts_every_record_once_witness :
  exists contacts,
    Processor.aggregate_intentions Fixtures.scenario = Ok contacts /\
    (forall c, In c contacts ->
       PC.intention_count c + PC.appointment_count c
       = Z.of_nat (List.length (group_of (PC.email c) Fixtures.scenario)) /\
       0 <= PC.intention_count c /\ 0 <= PC.appointment_count c /\
       1 <= PC.intention_count c + PC.appointment_count c) /\
    sum_Z (map (fun c => PC.intention_count c + PC.appointment_count c) contacts)
    = Z.of_nat (List.length (filter (fun r => PyStr.truthy (BI.email r)) Fixtures.scenario)).
Proof.
  apply (aggregate_counts_every_record_once Fixtures.scenario).
  repeat constructor; unfold has_created_at; simpl; discriminate.
Defined.

Lemma aggregate_context_from_newest_witness :
  exists contacts,
    Processor.aggregate_intentions Fixtures.scenario = Ok contacts /\
    forall c, In c contacts ->
      exists source,
        In source (group_of (PC.email c) Fixtures.scenario) /\
        PC.salon_id c = BI.salon_id source /\
        PC.salon_name c = BI.salon_name source /\
        PC.stylist_id c = BI.stylist_id source /\
        PC.stylist_name c = BI.stylist_name source /\
        PC.treatment c = BI.treatment source /\
        PC.price c = BI.price source /\
        PC.appointment_date c = BI.appointment_date source /\
        ((exists a, In a (group_of (PC.email c) Fixtures.scenario) /\
                    BI.intention_type a = APPOINTMENT) ->
         BI.intention_type source = APPOINTMENT /\
         forall a, In a (group_of (PC.email c) Fixtures.scenario) ->
                   BI.intention_type a = APPOINTMENT -> created_le a source) /\
        ((forall a, In a (group_of (PC.email c) Fixtures.scenario) ->
                    BI.intention_type a <> APPOINTMENT) ->
         forall r, In r (group_of (PC.email c) Fixtures.scenario) -> created_le r source).
Proof.
  apply (aggregate_context_from_newest Fixtures.scenario).
  - repeat constructor; unfold created_le; simpl; lia.
  - repeat constructor; unfold has_created_at; simpl; discriminate.
Defined.

(** ** Further properties: when the aggregator raises *)

Section AggregatorErrors.

Implicit Types (l intentions records : list BI.t).

Lemma max_loop_raises_only_type_error {A : Type} (key : A -> option Z) (rest : list A) :
  forall maxitem maxval e,
    Processor.max_loop key maxitem maxval rest = Raise e -> e = TypeError.
Proof.
  induction rest as [|x rest IH]; intros maxitem maxval e Hrun; cbn in Hrun; [discriminate|].
  destruct (key x) as [kx|]; destruct maxval as [mv|]; cbn in Hrun;
    try (inversion Hrun; reflexivity).
  destruct (kx >? mv); eapply IH; eassumption.
Qed.

Lemma max_loop_raises {A : Type} (key : A -> option Z) (rest : list A) :
  forall maxitem maxval,
    (maxval = None /\ rest <> []) \/ (exists x, In x rest /\ key x = None) ->
    Processor.max_loop key maxitem maxval rest = Raise TypeError.
Proof.
  induction rest as [|x rest IH]; intros maxitem maxval Hbad.
  - destruct Hbad as [[_ Hne]|[x [[] _]]]. congruence.
  - cbn [Processor.max_loop].
    destruct (key x) as [kx|] eqn:Hkx; destruct maxval as [mv|]; cbn [Processor.py_gt];
      try reflexivity.
    assert (Hrest : exists y, In y rest /\ key y = None).
    { destruct Hbad as [[Hnone _]|[y [[<-|Hy] Hky]]]; [discriminate|congruence|eauto]. }
    destruct (kx >? mv); apply IH; now right.
Qed.

Lemma for_each_result_raises {A B : Type} (f : A -> result B) (xs : list A) :
  (exists x e, In x xs /\ f x = Raise e) -> exists e, for_each_result f xs = Raise e.
Proof.
  induction xs as [|x xs IH]; intros (x0 & e0 & Hin & Hf); [destruct Hin|].
  cbn [for_each_result]. destruct (f x) as [y|e] eqn:Hfx; [|eauto].
  destruct Hin as [->|Hin]; [congruence|].
  destruct IH as [e He]; [eauto|]. rewrite He. eauto.
Qed.

Lemma for_each_result_raised {A B : Type} (f : A -> result B) (xs : list A) e :
  for_each_result f xs = Raise e -> exists x, In x xs /\ f x = Raise e.
Proof.
  induction xs as [|x xs IH]; cbn [for_each_result]; [discriminate|].
  destruct (f x) as [y|e'] eqn:Hfx.
  - destruct (for_each_result f xs) as [ys|e'']; [discriminate|].
    intros Heq. inversion Heq; subst. destruct IH as [x0 [Hin Hx0]]; [reflexivity|].
    exists x0. split; [now right|assumption].
  - intros Heq. inversion Heq; subst. exists x. split; [now left|assumption].
Qed.

(** X18. Records without a creation time do not come from the buffer,
    but the aggregator accepts them. It then raises [TypeError], from the
    comparison inside [max], whenever two or more records share an email
    and one of them has neither a creation time nor an appointment date.
    When no two records share an email it returns whatever the timestamps
    are: [max] of a single record compares nothing. *)
Theorem aggregate_fails_on_missing_time intentions :
  (forall key r,
     (2 <= List.length (group_of key intentions))%nat ->
     In r (group_of key intentions) ->
     BI.created_at r = None -> BI.appointment_date r = None ->
     Processor.aggregate_intentions intentions = Raise TypeError) /\
  ((forall key, (List.length (group_of key intentions) <= 1)%nat) ->
   exists contacts, Processor.aggregate_intentions intentions = Ok contacts).
Proof.
  assert (Honly : forall e, Processor.aggregate_intentions intentions = Raise e ->
                            e = TypeError).
  { intros e Hrun. destruct intentions as [|r0 rest]; [discriminate|].
    unfold Processor.aggregate_intentions in Hrun.
    apply for_each_result_raised in Hrun. destruct Hrun as [[key records] [Hin Hbuild]].
    destruct (group_by_email_entry _ _ _ Hin) as [_ Hne].
    unfold Processor.build_contact in Hbuild.
    destruct (Processor.py_max Processor.latest_key records) as [latest|e'] eqn:Hmax;
      cbn [bind_result] in Hbuild; [discriminate|].
    inversion Hbuild; subst e'. destruct records as [|x xs]; [congruence|].
    eapply max_loop_raises_only_type_error. exact Hmax. }
  split.
  - intros key r Hlen Hin Hc Ha.
    assert (Hkey : Processor.latest_key r = None).
    { unfold Processor.latest_key. now rewrite Hc, Ha. }
    assert (Hentry : In (key, group_of key intentions) (Processor.group_by_email intentions)).
    { destruct (group_by_email_keys intentions) as [_ Hmem].
      assert (Hk : In key (map fst (Processor.group_by_email intentions))).
      { apply Hmem. unfold group_of in Hin. apply filter_In in Hin. exists r. exact Hin. }
      apply in_map_iff in Hk. destruct Hk as [[k records] [Hfst Hk]]. cbn in Hfst. subst k.
      destruct (group_by_email_entry _ _ _ Hk) as [-> _]. exact Hk. }
    assert (Hraise : Processor.build_contact (key, group_of key intentions) = Raise TypeError).
    { unfold Processor.build_contact.
      destruct (group_of key intentions) as [|x [|y rest]] eqn:Hg;
        cbn [List.length] in Hlen; try lia.
      unfold Processor.py_max.
      rewrite (max_loop_raises Processor.latest_key (y :: rest) x (Processor.latest_key x));
        [reflexivity|].
      destruct Hin as [<-|Hin].
      - left. split; [assumption|discriminate].
      - right. eauto. }
    destruct (for_each_result_raises Processor.build_contact
                (Processor.group_by_email intentions)) as [e He]; [eauto|].
    assert (Hrun : Processor.aggregate_intentions intentions = Raise e).
    { destruct intentions; [destruct Hin|exact He]. }
    rewrite Hrun. f_equal. now apply Honly.
  - intros Hsingle.
    assert (Hrun : exists contacts,
               for_each_result Processor.build_contact (Processor.group_by_email intentions)
               = Ok contacts).
    { apply for_each_result_ok. intros [key records] Hin.
      destruct (group_by_email_entry intentions key records Hin) as [Hrec Hne].
      specialize (Hsingle key). rewrite <- Hrec in Hsingle.
      destruct records as [|x [|y rest]]; [congruence| |cbn in Hsingle; lia].
      unfold Processor.build_contact. cbn [Processor.py_max Processor.max_loop bind_result].
      eauto. }
    destruct intentions; [now exists []|exact Hrun].
Qed.

End AggregatorErrors.

(** Two records of one customer, the second without any timestamp; and
    that second record alone. *)
Lemma aggregate_fails_on_missing_time_witness :
  Processor.aggregate_intentions
    [ Fixtures.sample "a@x.com" INTENTION 100 None None None;
      BI.mk None "A@x.com" None None None INTENTION None None None None None None None
            None None None false ]
  = Raise TypeError /\
  exists contacts,
    Processor.aggregate_intentions
      [ BI.mk None "A@x.com" None None None INTENTION None None None None None None None
              None None None false ]
    = Ok contacts.
Proof.
  split.
  - apply (proj1 (aggregate_fails_on_missing_time
                    [ Fixtures.sample "a@x.com" INTENTION 100 None None None;
                      BI.mk None "A@x.com" None None None INTENTION None None None None None
                            None None None None None false ])
                 "a@x.com"
                 (BI.mk None "A@x.com" None None None INTENTION None None None None None
                        None None None None None false)).
    + cbn. lia.
    + cbn. right. now left.
    + reflexivity.
    + reflexivity.
  - apply (proj2 (aggregate_fails_on_missing_time
                    [ BI.mk None "A@x.com" None None None INTENTION None None None None None
                            None None None None None false ])).
    intros key. unfold group_of. cbn [filter].
    destruct (in_group key _); cbn; lia.
Defined.

(** ** Further properties: normalized emails *)

Section Normalization.

Lemma lower_char_idempotent c : PyStr.lower_char (PyStr.lower_char c) = PyStr.lower_char c.
Proof. destruct c as [[] [] [] [] [] [] [] []]; reflexivity. Qed.

Lemma lower_idempotent s : PyStr.lower (PyStr.lower s) = PyStr.lower s.
Proof.
  induction s as [|c s IH]; cbn [PyStr.lower]; [reflexivity|].
  now rewrite lower_char_idempotent, IH.
Qed.

Lemma lower_lstrip s : PyStr.lower s = s -> PyStr.lower (PyStr.lstrip s) = PyStr.lstrip s.
Proof.
  induction s as [|c s IH]; cbn [PyStr.lower PyStr.lstrip]; intros Hfix; [reflexivity|].
  injection Hfix as Hc Hs. destruct (PyStr.is_space c).
  - now apply IH.
  - cbn [PyStr.lower]. now rewrite Hc, Hs.
Qed.

Lemma lower_rstrip s : PyStr.lower s = s -> PyStr.lower (PyStr.rstrip s) = PyStr.rstrip s.
Proof.
  induction s as [|c s IH]; cbn [PyStr.lower PyStr.rstrip]; intros Hfix; [reflexivity|].
  injection Hfix as Hc Hs. specialize (IH Hs).
  destruct (PyStr.rstrip s) as [|d t].
  - destruct (PyStr.is_space c); cbn [PyStr.lower]; [reflexivity|now rewrite Hc].
  - cbn [PyStr.lower] in *. rewrite Hc. now rewrite IH.
Qed.

Lemma rstrip_idempotent s : PyStr.rstrip (PyStr.rstrip s) = PyStr.rstrip s.
Proof.
  induction s as [|c s IH]; cbn [PyStr.rstrip]; [reflexivity|].
  destruct (PyStr.rstrip s) as [|d t] eqn:Hr.
  - destruct (PyStr.is_space c) eqn:Hc; cbn [PyStr.rstrip]; [reflexivity|now rewrite Hc].
  - cbn [PyStr.rstrip] in *. now rewrite IH.
Qed.

Lemma lstrip_head s :
  PyStr.lstrip s = EmptyString \/
  exists c t, PyStr.lstrip s = String c t /\ PyStr.is_space c = false.
Proof.
  induction s as [|c s IH]; cbn [PyStr.lstrip]; [now left|].
  destruct (PyStr.is_space c) eqn:Hc; [exact IH|]. right. eauto.
Qed.

Lemma rstrip_keeps_head c t :
  PyStr.is_space c = false -> exists t', PyStr.rstrip (String c t) = String c t'.
Proof.
  intros Hc. cbn [PyStr.rstrip]. destruct (PyStr.rstrip t); [rewrite Hc|]; eauto.
Qed.

Lemma strip_idempotent s : PyStr.strip (PyStr.strip s) = PyStr.strip s.
Proof.
  unfold PyStr.strip. destruct (lstrip_head s) as [->|(c & t & -> & Hc)]; [reflexivity|].
  destruct (rstrip_keeps_head c t Hc) as [t' Ht']. rewrite Ht'.
  cbn [PyStr.lstrip]. rewrite Hc, <- Ht'. apply rstrip_idempotent.
Qed.

(** X19. Normalizing an email twice gives what normalizing it once gives,
    so the email of every contact is already in normalized form: it has
    no capital letter that [lower] would change and no leading or
    trailing whitespace that [strip] would remove. *)
Theorem contact_emails_are_normalized :
  (forall s, Processor.normalize (Processor.normalize s) = Processor.normalize s) /\
  (forall intentions contacts c,
     Processor.aggregate_intentions intentions = Ok contacts -> In c contacts ->
     Processor.normalize (PC.email c) = PC.email c /\
     PyStr.lower (PC.email c) = PC.email c /\
     PyStr.strip (PC.email c) = PC.email c).
Proof.
  assert (Hlow : forall s, PyStr.lower (Processor.normalize s) = Processor.normalize s).
  { intros s. unfold Processor.normalize, PyStr.strip.
    apply lower_rstrip. apply lower_lstrip. apply lower_idempotent. }
  assert (Hstrip : forall s, PyStr.strip (Processor.normalize s) = Processor.normalize s).
  { intros s. unfold Processor.normalize. apply strip_idempotent. }
  assert (Hidem : forall s, Processor.normalize (Processor.normalize s)
                            = Processor.normalize s).
  { intros s. unfold Processor.normalize at 1. now rewrite Hlow, Hstrip. }
  split; [exact Hidem|]. intros intentions contacts c Hrun Hin.
  destruct (aggregate_contact_group _ _ _ Hrun Hin) as [Hne _].
  destruct (group_of (PC.email c) intentions) as [|r rest] eqn:Hg; [congruence|].
  assert (Hr : In r (group_of (PC.email c) intentions)) by (rewrite Hg; now left).
  unfold group_of in Hr. apply filter_In in Hr. destruct Hr as [_ Hkey].
  unfold in_group in Hkey. apply andb_prop in Hkey. destruct Hkey as [_ Hkey].
  apply String.eqb_eq in Hkey. rewrite <- Hkey. auto.
Qed.

End Normalization.

Lemma contact_emails_are_normalized_witness :
  Processor.normalize "a@x.com" = "a@x.com" /\
  PyStr.lower "a@x.com" = "a@x.com" /\
  PyStr.strip "a@x.com" = "a@x.com".
Proof.
  destruct (aggregate_scenario) as (c & Hrun & Hemail & _).
  rewrite <- Hemail.
  apply (proj2 contact_emails_are_normalized Fixtures.scenario [c] c Hrun).
  now left.
Defined.

(** ** Further properties: the webhook receiver *)

Section RawEmail.

(** Induction on a JSON value, with the hypothesis for the members of a
    list and for the values of a dict. *)
Lemma json_induction (P : Json.t -> Prop) :
  P Json.JNull ->
  (forall b, P (Json.JBool b)) ->
  (forall q, P (Json.JNum q)) ->
  (forall s, P (Json.JStr s)) ->
  (forall l, Forall P l -> P (Json.JList l)) ->
  (forall d, Forall (fun kv => P (snd kv)) d -> P (Json.JDict d)) ->
  forall v, P v.
Proof.
  intros HNull HBool HNum HStr HList HDict.
  refine (fix IH (v : Json.t) : P v :=
            match v with
            | Json.JNull => HNull
            | Json.JBool b => HBool b
            | Json.JNum q => HNum q
            | Json.JStr s => HStr s
            | Json.JList l =>
                HList l ((fix members (l : list Json.t) : Forall P l :=
                            match l with
                            | [] => Forall_nil P
                            | x :: xs => Forall_cons x (IH x) (members xs)
                            end) l)
            | Json.JDict d =>
                HDict d ((fix entries (d : list (string * Json.t))
                            : Forall (fun kv => P (snd kv)) d :=
                            match d with
                            | [] => Forall_nil _
                            | kv :: rest => Forall_cons kv (IH (snd kv)) (entries rest)
                            end) d)
            end).
Qed.

(** One turn of the loop over [data.items()]. *)
Lemma extract_step key value rest :
  Webhook._extract_email_from_raw (Json.JDict ((key, value) :: rest)) =
  match (if Webhook.is_email_key key then
           match value with
           | Json.JStr s => if PyStr.contains "@" s then Some s else None
           | _ => None
           end
         else None) with
  | Some s => Some s
  | None =>
      match value with
      | Json.JDict _ =>
          match Webhook._extract_email_from_raw value with
          | Some r =>
              if PyStr.truthy r then Some r
              else Webhook._extract_email_from_raw (Json.JDict rest)
          | None => Webhook._extract_email_from_raw (Json.JDict rest)
          end
      | _ => Webhook._extract_email_from_raw (Json.JDict rest)
      end
  end.
Proof. reflexivity. Qed.

Lemma contains_nonempty needle s :
  needle <> "" -> PyStr.contains needle s = true -> s <> "".
Proof.
  intros Hneedle Hin ->. destruct needle; [congruence|]. cbn in Hin. discriminate.
Qed.

(** X20. An email found in the raw data is always a string that contains
    an at sign, so it is never empty. The search looks at a dict and at
    the dicts nested in its values only: a top-level value of any other
    kind gives nothing, and a list among the values is passed over. A
    string with an at sign under a recognised key wins over everything
    after it. *)
Theorem raw_email_has_at_sign :
  (forall data s,
     Webhook._extract_email_from_raw data = Some s ->
     PyStr.contains "@" s = true /\ s <> "") /\
  (forall data, (forall d, data <> Json.JDict d) ->
                Webhook._extract_email_from_raw data = None) /\
  (forall key members rest,
     Webhook._extract_email_from_raw (Json.JDict ((key, Json.JList members) :: rest))
     = Webhook._extract_email_from_raw (Json.JDict rest)) /\
  (forall key s rest,
     Webhook.is_email_key key = true -> PyStr.contains "@" s = true ->
     Webhook._extract_email_from_raw (Json.JDict ((key, Json.JStr s) :: rest)) = Some s).
Proof.
  split; [|split; [|split]].
  - assert (Hat : forall data s, Webhook._extract_email_from_raw data = Some s ->
                                 PyStr.contains "@" s = true).
    { intros data. induction data as [ | b | q | s0 | l _ | d IH] using json_induction;
        intros s Hfound; try discriminate.
      induction d as [|[key value] rest IHd]; [discriminate|].
      inversion IH as [|? ? Hvalue Hrest]; subst. cbn [snd] in Hvalue.
      rewrite extract_step in Hfound.
      destruct (if Webhook.is_email_key key then
                  match value with
                  | Json.JStr s1 => if PyStr.contains "@" s1 then Some s1 else None
                  | _ => None
                  end
                else None) as [hit|] eqn:Hhit.
      - inversion Hfound; subst hit.
        destruct (Webhook.is_email_key key); [|discriminate].
        destruct value as [ | | | s1 | | ]; try discriminate.
        destruct (PyStr.contains "@" s1) eqn:Hc; [|discriminate].
        now inversion Hhit; subst.
      - destruct value as [ | | | | | d']; try (now apply IHd).
        destruct (Webhook._extract_email_from_raw (Json.JDict d')) as [r|] eqn:Hinner;
          [|now apply IHd].
        destruct (PyStr.truthy r); [|now apply IHd].
        inversion Hfound; subst r. now apply Hvalue. }
    intros data s Hfound. split; [eapply Hat; eassumption|].
    eapply contains_nonempty; [|eapply Hat; eassumption]. discriminate.
  - intros data Hnot. destruct data as [ | | | | |d]; try reflexivity.
    exfalso. exact (Hnot d eq_refl).
  - intros key members rest. rewrite extract_step.
    destruct (Webhook.is_email_key key); reflexivity.
  - intros key s rest Hkey Hat. rewrite extract_step. now rewrite Hkey, Hat.
Qed.

End RawEmail.

Lemma raw_email_has_at_sign_witness :
  Webhook._extract_email_from_raw MoreFixtures.nested_body = Some "Ann@X.com" /\
  PyStr.contains "@" "Ann@X.com" = true /\ "Ann@X.com" <> "".
Proof.
  split; [reflexivity|].
  apply (proj1 raw_email_has_at_sign MoreFixtures.nested_body "Ann@X.com").
  reflexivity.
Defined.

Section WebhookRoute.

Variable webhook_secret : string.
Variable hmac_sha256_hexdigest : string -> string -> string.
Variable json_loads : string -> Webhook.Loaded.
Variable model_validate : Json.t -> option Webhook.SalonhubWebhookPayload.
Variable json_dumps : Json.t -> string.

Implicit Types (w : World) (raw_body : string) (signature : option string).

(** The route, with the libraries of this section. *)
Local Abbreviation receive :=
  (Webhook.receive_salonhub_webhook webhook_secret hmac_sha256_hexdigest json_loads
                                    model_validate json_dumps).

Local Abbreviation verify :=
  (Webhook.verify_signature webhook_secret hmac_sha256_hexdigest).

(** X21. A webhook call changes the world only when it answers
    "buffered", and then by exactly one committed row: the row has the
    returned id, which is above every id of the table, a non-empty email,
    the processed flag off, the kind that is reported back and the
    serialized body as raw payload. Every other outcome (rejected,
    ignored, or an exception) leaves the world as it was, and no outcome
    sends anything to Klaviyo. *)
Theorem webhook_buffers_one_addressed_row now raw_body signature w :
  match Webhook.receive_salonhub_webhook webhook_secret hmac_sha256_hexdigest json_loads
                                         model_validate json_dumps
                                         now raw_body signature w with
  | (Ok (Webhook.Buffered id type), w') =>
      exists row raw_json,
        table w' = table w ++ [row] /\ commits w' = S (commits w) /\
        sent w' = sent w /\ slept w' = slept w /\
        Row.id row = id /\ (forall r, In r (table w) -> Row.id r < id) /\
        Row.email row <> "" /\ Row.processed row = false /\
        Row.created_at row = now /\ Row.intention_type row = type /\
        json_loads raw_body = Webhook.Parsed raw_json /\
        Row.raw_payload row = Some (json_dumps raw_json)
  | (_, w') => w' = w
  end.
Proof.
  unfold Webhook.receive_salonhub_webhook. unfold bind at 1. unfold lift at 1.
  destruct (verify raw_body signature) as [[|]|e]; cbn [negb]; try reflexivity.
  destruct (json_loads raw_body) as [raw_json| |e] eqn:Hload; try reflexivity.
  unfold bind at 1. unfold lift at 1.
  destruct (match model_validate raw_json with
            | Some p => Ok p
            | None => Webhook.raw_only raw_json
            end) as [payload|e]; [|reflexivity].
  destruct (Webhook.find_email payload raw_json) as [email|]; [|reflexivity].
  destruct (PyStr.truthy email) eqn:Hemail; cbn [negb]; [|reflexivity].
  unfold bind at 1. cbn [Database.save_intention]. unfold ret.
  eexists. exists raw_json. cbn [table commits sent slept].
  split; [reflexivity|]. split; [reflexivity|]. split; [reflexivity|].
  split; [reflexivity|]. split; [reflexivity|]. split; [apply next_id_above|].
  cbn. split; [intros ->; discriminate|]. repeat split; reflexivity.
Qed.

Lemma is_ascii_app a b :
  PyStr.is_ascii (a ++ b)%string = PyStr.is_ascii a && PyStr.is_ascii b.
Proof.
  induction a as [|c a IH]; cbn [String.append PyStr.is_ascii]; [reflexivity|].
  now rewrite IH, andb_assoc.
Qed.

(** X22. Without a configured secret every call passes the signature
    check, signed or not. With a secret, a call without a signature, with
    an empty one, or with an ASCII one that differs from "sha256=" followed
    by the digest of the body is answered 401 and leaves the world as it
    was, and the matching signature passes the check. A signature with a
    character outside ASCII is not answered 401: [compare_digest] raises
    [TypeError]. *)
Theorem webhook_signature_gate now raw_body w :
  (webhook_secret = "" -> forall signature, verify raw_body signature = Ok true) /\
  (webhook_secret <> "" ->
   receive now raw_body None w = (Ok (Webhook.HTTPException 401), w) /\
   receive now raw_body (Some "") w = (Ok (Webhook.HTTPException 401), w) /\
   (forall sg,
      sg <> "" -> PyStr.is_ascii sg = true ->
      PyStr.is_ascii (hmac_sha256_hexdigest webhook_secret raw_body) = true ->
      (sg <> ("sha256=" ++ hmac_sha256_hexdigest webhook_secret raw_body)%string ->
       receive now raw_body (Some sg) w = (Ok (Webhook.HTTPException 401), w)) /\
      (sg = ("sha256=" ++ hmac_sha256_hexdigest webhook_secret raw_body)%string ->
       verify raw_body (Some sg) = Ok true)) /\
   (forall sg,
      PyStr.is_ascii sg = false ->
      receive now raw_body (Some sg) w = (Raise TypeError, w))).
Proof.
  split.
  - intros -> signature. reflexivity.
  - intros Hsecret.
    assert (Htr : PyStr.truthy webhook_secret = true)
      by (destruct webhook_secret; [congruence|reflexivity]).
    unfold Webhook.receive_salonhub_webhook, Webhook.verify_signature.
    rewrite Htr. cbn [negb]. split; [reflexivity|]. split; [reflexivity|]. split.
    + intros sg Hne Hascii Hdigest.
      assert (Hsg : PyStr.truthy sg = true) by (destruct sg; [congruence|reflexivity]).
      rewrite Hsg. cbn [negb]. unfold Webhook.compare_digest.
      rewrite is_ascii_app, Hdigest, Hascii. cbn [PyStr.is_ascii andb].
      split.
      * intros Hdiff. unfold bind at 1. unfold lift at 1.
        replace (String.eqb ("sha256=" ++ hmac_sha256_hexdigest webhook_secret raw_body) sg)
          with false; [reflexivity|].
        symmetry. apply String.eqb_neq. congruence.
      * intros ->. now rewrite String.eqb_refl.
    + intros sg Hascii.
      assert (Hsg : PyStr.truthy sg = true) by (destruct sg; [discriminate|reflexivity]).
      rewrite Hsg. cbn [negb]. unfold Webhook.compare_digest.
      rewrite Hascii, andb_false_r. reflexivity.
Qed.

End WebhookRoute.

Lemma webhook_signature_gate_witness :
  Webhook.receive_salonhub_webhook "s3cret" MoreFixtures.fixed_digest
    MoreFixtures.one_body_parser MoreFixtures.strict_model MoreFixtures.marking_dumps
    86400 "nested" (Some "sha256=0000") Fixtures.sample_world
  = (Ok (Webhook.HTTPException 401), Fixtures.sample_world) /\
  Webhook.verify_signature "" MoreFixtures.fixed_digest "nested" None = Ok true.
Proof.
  split.
  - apply (proj2 (webhook_signature_gate "s3cret" MoreFixtures.fixed_digest
                    MoreFixtures.one_body_parser MoreFixtures.strict_model
                    MoreFixtures.marking_dumps 86400 "nested" Fixtures.sample_world));
      try reflexivity; discriminate.
  - apply (proj1 (webhook_signature_gate "" MoreFixtures.fixed_digest
                    MoreFixtures.one_body_parser MoreFixtures.strict_model
                    MoreFixtures.marking_dumps 86400 "nested" Fixtures.sample_world)).
    reflexivity.
Defined.

(** A correctly signed call with the nested body: the email is found in
    the raw data and one row is buffered. *)
Lemma webhook_buffers_nested_body :
  exists w',
    Webhook.receive_salonhub_webhook "s3cret" MoreFixtures.fixed_digest
      MoreFixtures.one_body_parser MoreFixtures.strict_model MoreFixtures.marking_dumps
      86400 "nested" (Some "sha256=00112233445566778899aabbccddeeff")
      MoreFixtures.empty_world
    = (Ok (Webhook.Buffered 1 INTENTION), w') /\
    map Row.email (table w') = ["Ann@X.com"] /\
    map Row.raw_payload (table w') = [Some "<raw>"].
Proof. eexists. split; [vm_compute; reflexivity|]. split; reflexivity. Qed.

(** ** Further properties: from the webhook to the run *)

Section BufferToRun.

Variable max_variable_number : nat.

Implicit Types (w : World).

Lemma receive_table secret digest loads validate dumps now raw_body signature w :
  exists reply w',
    Webhook.receive_salonhub_webhook secret digest loads validate dumps
                                     now raw_body signature w = (reply, w') /\
    (table w' = table w \/
     exists row, table w' = table w ++ [row] /\ Row.email row <> "").
Proof.
  unfold Webhook.receive_salonhub_webhook. unfold bind at 1. unfold lift at 1.
  destruct (Webhook.verify_signature secret digest raw_body signature) as [[|]|e];
    cbn [negb]; try (eexists; eexists; split; [reflexivity|left; reflexivity]).
  destruct (loads raw_body) as [raw_json| |e];
    try (eexists; eexists; split; [reflexivity|left; reflexivity]).
  unfold bind at 1. unfold lift at 1.
  destruct (match validate raw_json with
            | Some p => Ok p
            | None => Webhook.raw_only raw_json
            end) as [payload|e];
    [|eexists; eexists; split; [reflexivity|left; reflexivity]].
  destruct (Webhook.find_email payload raw_json) as [email|];
    [|eexists; eexists; split; [reflexivity|left; reflexivity]].
  destruct (PyStr.truthy email) eqn:Hemail; cbn [negb];
    [|eexists; eexists; split; [reflexivity|left; reflexivity]].
  eexists. eexists. split; [reflexivity|]. right. eexists. split; [reflexivity|].
  cbn. intros ->. discriminate.
Qed.

Lemma update_processed_addressed ids rows :
  Forall (fun r => Row.email r <> "") rows ->
  Forall (fun r => Row.email r <> "") (Database.update_processed ids rows).
Proof.
  unfold Database.update_processed. induction 1 as [|r rows Hr _ IH]; cbn [map];
    constructor; [|exact IH].
  destruct (Database.id_in ids (Row.id r)); [exact Hr|exact Hr].
Qed.

(** X23. Every row carries an email, and stays that way: if all rows of
    the table have a non-empty email, they still have one after any
    webhook call, any mark and any run. On such a table the aggregator
    leaves out no fetched record: it returns, and the counts of its
    contacts add up to the number of records fetched. *)
Theorem buffer_stays_addressed w :
  addressed w ->
  (forall secret digest loads validate dumps now raw_body signature,
     addressed (snd (Webhook.receive_salonhub_webhook secret digest loads validate dumps
                                                      now raw_body signature w))) /\
  (forall ids, addressed (snd (Database.mark_as_processed max_variable_number ids w))) /\
  (forall server klaviyo_client today target_date,
     addressed (snd (Scheduler.run_daily_sync server klaviyo_client max_variable_number today target_date w))) /\
  (forall target_date,
     exists fetched contacts,
       Database.get_unprocessed_intentions target_date w = (Ok fetched, w) /\
       Processor.aggregate_intentions fetched = Ok contacts /\
       sum_Z (map (fun c => PC.intention_count c + PC.appointment_count c) contacts)
       = Z.of_nat (List.length fetched)).
Proof.
  unfold addressed. intros Hall. split; [|split; [|split]].
  - intros secret digest loads validate dumps now raw_body signature.
    destruct (receive_table secret digest loads validate dumps now raw_body signature w)
      as (reply & w' & -> & [Hsame|(row & Hmore & Hrow)]); cbn [snd].
    + now rewrite Hsame.
    + rewrite Hmore. apply Forall_app. split; [assumption|]. now constructor.
  - intros ids. rewrite table_after_mark.
    destruct (List.length ids <=? max_variable_number)%nat;
      [now apply update_processed_addressed|assumption].
  - intros server klaviyo_client today target_date.
    destruct (Nat.le_gt_cases (day_size (effective_date today target_date) w)
                              max_variable_number) as [Hfit|Hover].
    + destruct (run_daily_sync_outcome server klaviyo_client max_variable_number
                  today target_date w Hfit)
        as (result & w' & contacts & requests & Hrun & _ & Ht & _).
      rewrite Hrun. cbn [snd]. rewrite Ht. now apply update_processed_addressed.
    + destruct (run_daily_sync_overflow server klaviyo_client max_variable_number
                  today target_date w Hover)
        as (w' & requests & Hrun & Ht & _).
      rewrite Hrun. cbn [snd]. now rewrite Ht.
  - intros target_date. eexists.
    destruct (aggregate_total
                (map Database.to_intention
                     (Database.order_by_created_at
                        (filter (Database.selected target_date) (table w)))))
      as [contacts Hagg]; [apply to_intention_has_created_at|].
    exists contacts. split; [reflexivity|]. split; [exact Hagg|].
    rewrite (aggregate_sum _ _ Hagg). f_equal. f_equal.
    apply forallb_filter_id. apply forallb_forall. intros r Hr.
    apply in_map_iff in Hr. destruct Hr as [row [<- Hrow]].
    apply (proj1 (in_order_by_created_at _ _)) in Hrow. apply filter_In in Hrow.
    rewrite Forall_forall in Hall. destruct Hrow as [Hrow _]. specialize (Hall row Hrow).
    cbn. destruct (Row.email row); [congruence|reflexivity].
Qed.

(** X24. The health check never raises and is read-only on the buffer:
    it leaves the table and the commit count alone, reports the counts of
    the table as it is, and costs between one and [MAX_RETRIES] requests,
    all of them the GET of the lists. *)
Theorem health_check_is_read_only server klaviyo_client w :
  exists report w' n,
    Health.health_check server klaviyo_client w = (Ok report, w') /\
    table w' = table w /\ commits w' = commits w /\
    Database.get_intention_count w = (Ok (Health.buffer report), w) /\
    (1 <= n <= KlaviyoClient.MAX_RETRIES)%nat /\
    sent w' =
      sent w ++ repeat (mkRequest "GET" (KlaviyoClient.BASE_URL ++ "/lists")%string NoPayload) n.
Proof.
  destruct (request_effect server "GET" (KlaviyoClient.BASE_URL ++ "/lists")%string
                           NoPayload w) as (n & Hn & Hsent & Ht & Hc).
  unfold Health.health_check. unfold bind at 1.
  unfold KlaviyoClient.check_connection, try_except. unfold bind at 1.
  destruct (KlaviyoClient._request server "GET" (KlaviyoClient.BASE_URL ++ "/lists")%string
                                   NoPayload w) as [[v|e] w1];
    cbn [snd] in *; unfold ret; unfold bind at 1;
    unfold Database.get_intention_count; rewrite Ht;
    eexists; exists w1, n; (split; [reflexivity|]); cbn [Health.buffer]; auto.
Qed.

End BufferToRun.

Lemma buffer_stays_addressed_witness :
  (forall secret digest loads validate dumps now raw_body signature,
     addressed (snd (Webhook.receive_salonhub_webhook secret digest loads validate dumps
                       now raw_body signature Fixtures.sample_world))) /\
  (forall ids, addressed (snd (Database.mark_as_processed Fixtures.sqlite_limit ids Fixtures.sample_world))) /\
  (forall server klaviyo_client today target_date,
     addressed (snd (Scheduler.run_daily_sync server klaviyo_client Fixtures.sqlite_limit
                       today target_date Fixtures.sample_world))) /\
  (forall target_date,
     exists fetched contacts,
       Database.get_unprocessed_intentions target_date Fixtures.sample_world
       = (Ok fetched, Fixtures.sample_world) /\
       Processor.aggregate_intentions fetched = Ok contacts /\
       sum_Z (map (fun c => PC.intention_count c + PC.appointment_count c) contacts)
       = Z.of_nat (List.length fetched)).
Proof.
  apply (buffer_stays_addressed Fixtures.sqlite_limit Fixtures.sample_world).
  unfold addressed. cbn. repeat constructor; cbn; discriminate.
Defined.

(** ** Further properties: what the bodies carry *)

Section Bodies.

Variable isoformat : Z -> string.

Implicit Types (contact : PC.t) (mode : AppMode).

Lemma text_entry_spec key value k v :
  In (k, v) (Payloads.text_entry key value) ->
  k = key /\ exists s, v = Json.JStr s /\ s <> "" /\ value = Some s.
Proof.
  unfold Payloads.text_entry. destruct value as [s|]; [|intros []].
  destruct s as [|c s]; cbn [PyStr.truthy]; [intros []|].
  intros [Heq|[]]. inversion Heq; subst. split; [reflexivity|].
  eexists. split; [reflexivity|]. split; [discriminate|reflexivity].
Qed.

(** The entries of the [properties] dict of a profile, one by one. *)
Lemma profile_properties_entries contact k v :
  In (k, v) (Payloads.profile_properties contact) ->
  In k ["salon_naam"; "salon_id"; "kapper_naam"; "stylist_id"; "is_nieuwe_klant";
        "laatste_behandeling"; "campagne_bron"] /\
  (forall s, v = Json.JStr s -> s <> "") /\
  (k = "is_nieuwe_klant" -> exists b, PC.is_new_client contact = Some b).
Proof.
  unfold Payloads.profile_properties. rewrite !in_app_iff.
  intros [H|[H|[H|[H|[H|[H|H]]]]]];
    try (apply text_entry_spec in H; destruct H as (-> & s & -> & Hs & _);
         split; [cbn; tauto|]; split; [intros s' Hs'; inversion Hs'; now subst|];
         intros Habs; discriminate).
  destruct (PC.is_new_client contact) as [b|]; [|destruct H].
  destruct H as [Heq|[]]. inversion Heq; subst.
  split; [cbn; tauto|]. split; [intros s Hs; discriminate|]. intros _. eauto.
Qed.

(** X25. What a profile body carries. The email is always there. Every
    other string it carries, as attribute or as custom property, is not
    empty, so an absent or empty field of the contact is left out rather
    than sent as an empty value. In simple mode the attributes are among
    email, first name, last name and phone number; custom properties
    appear only in extended mode and only when there is at least one. *)
Theorem profile_body_leaves_out_empty_fields mode contact :
  Json.lookup "email" (Payloads.profile_attributes mode contact)
  = Some (Json.JStr (PC.email contact)) /\
  (forall k s, In (k, Json.JStr s) (Payloads.profile_attributes mode contact) ->
               k <> "email" -> s <> "") /\
  (mode = SIMPLE ->
   forall k v, In (k, v) (Payloads.profile_attributes mode contact) ->
               In k ["email"; "first_name"; "last_name"; "phone_number"]) /\
  (forall v, In ("properties", v) (Payloads.profile_attributes mode contact) ->
             mode = EXTENDED /\
             exists properties,
               v = Json.JDict properties /\ properties <> [] /\
               forall k s, In (k, Json.JStr s) properties -> s <> "").
Proof.
  unfold Payloads.profile_attributes. split; [reflexivity|]. split; [|split].
  - intros k s. rewrite !in_app_iff. intros [H|[H|[H|[H|H]]]] Hk.
    + destruct H as [Heq|[]]. inversion Heq; subst. congruence.
    + apply text_entry_spec in H. destruct H as (_ & s' & Hs' & Hne & _).
      inversion Hs'; now subst.
    + apply text_entry_spec in H. destruct H as (_ & s' & Hs' & Hne & _).
      inversion Hs'; now subst.
    + apply text_entry_spec in H. destruct H as (_ & s' & Hs' & Hne & _).
      inversion Hs'; now subst.
    + destruct mode; [destruct H|].
      destruct (Payloads.profile_properties contact); [destruct H|].
      destruct H as [Heq|[]]. discriminate.
  - intros -> k v. rewrite !in_app_iff. intros [H|[H|[H|[H|H]]]].
    + destruct H as [Heq|[]]. inversion Heq; subst. cbn. tauto.
    + apply text_entry_spec in H. destruct H as (-> & _). cbn. tauto.
    + apply text_entry_spec in H. destruct H as (-> & _). cbn. tauto.
    + apply text_entry_spec in H. destruct H as (-> & _). cbn. tauto.
    + destruct H.
  - intros v. rewrite !in_app_iff. intros [H|[H|[H|[H|H]]]].
    + destruct H as [Heq|[]]. discriminate.
    + apply text_entry_spec in H. destruct H as (Habs & _). discriminate.
    + apply text_entry_spec in H. destruct H as (Habs & _). discriminate.
    + apply text_entry_spec in H. destruct H as (Habs & _). discriminate.
    + destruct mode; [destruct H|]. split; [reflexivity|].
      destruct (Payloads.profile_properties contact) as [|p ps] eqn:Hprops; [destruct H|].
      destruct H as [Heq|[]]. inversion Heq; subst. eexists. split; [reflexivity|].
      split; [discriminate|]. intros k s Hin. rewrite <- Hprops in Hin.
      apply profile_properties_entries in Hin. destruct Hin as (_ & Hs & _).
      now apply Hs.
Qed.

(** What an event body carries: always both counts of the contact,
    the classification as metric name and the email of the contact as
    profile; a price whenever the contact has one, zero included; and
    among its text properties none that is empty, apart from the
    appointment date, which is whatever [isoformat] prints. *)
Lemma event_body_carries_counts utcnow contact :
  Json.lookup "intention_count" (Payloads.event_properties isoformat contact)
  = Some (Json.JNum (inject_Z (PC.intention_count contact))) /\
  Json.lookup "appointment_count" (Payloads.event_properties isoformat contact)
  = Some (Json.JNum (inject_Z (PC.appointment_count contact))) /\
  (forall price, PC.price contact = Some price ->
                 In ("prijs", Json.JNum price) (Payloads.event_properties isoformat contact)) /\
  (forall k s, In (k, Json.JStr s) (Payloads.event_properties isoformat contact) ->
               k <> "afspraak_datum" -> s <> "") /\
  (exists attributes,
     Payloads.event_body isoformat utcnow contact
     = Json.JDict [("data", Json.JDict [("type", Json.JStr "event");
                                        ("attributes", Json.JDict attributes)])] /\
     Json.lookup "metric" attributes
     = Some (Json.JDict
               [("data", Json.JDict
                           [("type", Json.JStr "metric");
                            ("attributes",
                             Json.JDict [("name", Json.JStr (PC.event_name contact))])])]) /\
     Json.lookup "profile" attributes
     = Some (Json.JDict
               [("data", Json.JDict
                           [("type", Json.JStr "profile");
                            ("attributes",
                             Json.JDict [("email", Json.JStr (PC.email contact))])])]) /\
     Json.lookup "properties" attributes
     = Some (Json.JDict (Payloads.event_properties isoformat contact))).
Proof.
  unfold Payloads.event_properties. split; [reflexivity|]. split; [reflexivity|].
  split; [|split].
  - intros price Hprice. rewrite Hprice. rewrite !in_app_iff.
    right. right. right. right. right. right. left. now left.
  - intros k s. rewrite !in_app_iff.
    intros [H|[H|[H|[H|[H|[H|[H|[H|H]]]]]]]] Hk;
      try (apply text_entry_spec in H; destruct H as (_ & s' & Hs' & Hne & _);
           inversion Hs'; now subst).
    + destruct H as [Heq|[Heq|[]]]; discriminate.
    + destruct (PC.price contact); [|destruct H]. destruct H as [Heq|[]]. discriminate.
    + destruct (PC.appointment_date contact); [|destruct H].
      destruct H as [Heq|[]]. inversion Heq; subst. congruence.
  - eexists. split; [reflexivity|]. repeat split; reflexivity.
Qed.

End Bodies.

(** ** Further properties: the tally of a run *)

Section Tally.

Variable server : Server.
Variable klaviyo_client : KlaviyoClient.t.
Variable max_variable_number : nat.

Implicit Types (w : World) (contact : PC.t).

(** If every contact is reported the same way, the counters move in one
    direction only. *)
Lemma forward_all_uniform (ok : bool) contacts :
  (forall contact w,
     fst (KlaviyoClient.process_contact server klaviyo_client contact w) = Ok ok) ->
  forall success_count failed_count w,
    fst (Scheduler.forward_all server klaviyo_client contacts success_count failed_count w)
    = Ok (if ok
          then (success_count + Z.of_nat (List.length contacts), failed_count)
          else (success_count, failed_count + Z.of_nat (List.length contacts))).
Proof.
  intros Hsame. induction contacts as [|contact rest IH]; intros sc fc w.
  - cbn. destruct ok; do 2 f_equal; lia.
  - cbn [Scheduler.forward_all]. unfold bind. specialize (Hsame contact w).
    destruct (KlaviyoClient.process_contact server klaviyo_client contact w) as [r w1].
    cbn [fst] in Hsame. subst r. destruct ok.
    + rewrite IH. cbn [List.length]. do 2 f_equal. lia.
    + rewrite IH. cbn [List.length]. do 2 f_equal. lia.
Qed.

(** The tallies of a run that returns are the counters of its forwarding
    loop. *)
Lemma run_daily_sync_tally today target_date w :
  (day_size (effective_date today target_date) w <= max_variable_number)%nat ->
  exists contacts counts result,
    fst (Scheduler.forward_all server klaviyo_client contacts 0 0 w) = Ok counts /\
    fst (Scheduler.run_daily_sync server klaviyo_client max_variable_number
                                  today target_date w) = Ok result /\
    Scheduler.contacts_processed result = Z.of_nat (List.length contacts) /\
    Scheduler.success result = fst counts /\
    Scheduler.failed result = snd counts.
Proof.
  intros Hfit. set (day := effective_date today target_date) in *.
  set (rows := Database.order_by_created_at
                 (filter (Database.selected (Some day)) (table w))).
  assert (Hfetch : Database.get_unprocessed_intentions (Some day) w
                   = (Ok (map Database.to_intention rows), w)) by reflexivity.
  assert (Hsize : List.length rows = day_size day w)
    by apply length_order_by_created_at.
  destruct rows as [|row0 rows'] eqn:Hrows.
  - exists [], (0, 0). eexists. split; [reflexivity|]. split.
    + unfold Scheduler.run_daily_sync. fold (effective_date today target_date). fold day.
      unfold bind at 1. rewrite Hfetch. reflexivity.
    + repeat split; reflexivity.
  - destruct (aggregate_total (map Database.to_intention (row0 :: rows')))
      as [contacts Hagg].
    { apply to_intention_has_created_at. }
    destruct (forward_all_returns server klaviyo_client contacts 0 0 w)
      as (s & f & w1 & Hfwd & _).
    pose proof (run_daily_sync_steps server klaviyo_client max_variable_number
                  today target_date w _ contacts (s, f) w1 Hfetch) as Hrun.
    fold day in Hrun. rewrite ids_of_fetched in Hrun.
    rewrite (mark_as_processed_within max_variable_number) in Hrun
      by (rewrite length_map; lia).
    specialize (Hrun ltac:(discriminate) Hagg Hfwd).
    exists contacts, (s, f). eexists. split; [now rewrite Hfwd|]. split.
    + rewrite Hrun. reflexivity.
    + repeat split; reflexivity.
Qed.

Lemma process_contact_during_outage contact w :
  always_failing server ->
  fst (KlaviyoClient.process_contact server klaviyo_client contact w) = Ok false.
Proof.
  intros Hout.
  unfold KlaviyoClient.process_contact, try_except, KlaviyoClient.process_contact_body.
  unfold bind at 1. unfold KlaviyoClient.upsert_profile. unfold bind at 1.
  unfold KlaviyoClient._request.
  destruct (request_loop_gives_up server
              (mkRequest "POST" (KlaviyoClient.BASE_URL ++ "/profile-import")%string
                         (ProfilePayload contact (KlaviyoClient.mode klaviyo_client)))
              (KlaviyoClient.MAX_RETRIES - 1) 1 KlaviyoClient.INITIAL_BACKOFF w eq_refl)
    as (w' & Hrun & _).
  { intros i _. right. apply Hout. }
  { apply Hout. }
  change (S (KlaviyoClient.MAX_RETRIES - 1)) with KlaviyoClient.MAX_RETRIES in Hrun.
  rewrite Hrun. reflexivity.
Qed.

Lemma process_contact_under_rate_limit contact w :
  always_rate_limited server ->
  fst (KlaviyoClient.process_contact server klaviyo_client contact w) = Ok true.
Proof.
  intros Hlimited.
  unfold KlaviyoClient.process_contact, try_except,
    KlaviyoClient.process_contact_body, KlaviyoClient.upsert_profile.
  unfold bind at 1 2.
  destruct (request_rate_limited server "POST"
              (KlaviyoClient.BASE_URL ++ "/profile-import")%string
              (ProfilePayload contact (KlaviyoClient.mode klaviyo_client)) w Hlimited)
    as (w1 & -> & _).
  cbn [Json.truthy]. unfold ret at 1. cbn [Json.truthy]. unfold bind at 1. unfold ret at 1.
  unfold bind at 1. unfold KlaviyoClient.create_event.
  destruct (KlaviyoClient.mode klaviyo_client); cbn [KlaviyoClient.is_extended negb].
  - reflexivity.
  - unfold bind at 1.
    destruct (request_rate_limited server "POST" (KlaviyoClient.BASE_URL ++ "/events")%string
                (EventPayload contact) w1 Hlimited)
      as (w2 & -> & _).
    reflexivity.
Qed.

(** X26. During an outage, when every answer of the downstream is a
    connection error or an error status, the forwarding loop counts every
    contact as failed and none as forwarded. A run on a day with no more
    records than SQLite takes parameters returns that tally, keeps every
    row and still leaves no unprocessed record of the day behind: the
    failure shows in the tally only. *)
Theorem run_during_outage today target_date w :
  always_failing server ->
  (forall contacts,
     fst (Scheduler.forward_all server klaviyo_client contacts 0 0 w)
     = Ok (0, Z.of_nat (List.length contacts))) /\
  ((day_size (effective_date today target_date) w <= max_variable_number)%nat ->
   exists result w',
     Scheduler.run_daily_sync server klaviyo_client max_variable_number today target_date w
     = (Ok result, w') /\
     Scheduler.success result = 0 /\
     Scheduler.failed result = Scheduler.contacts_processed result /\
     map Row.id (table w') = map Row.id (table w) /\
     Database.get_unprocessed_intentions (Some (effective_date today target_date)) w'
     = (Ok [], w')).
Proof.
  intros Hout.
  assert (Hloop : forall contacts,
             fst (Scheduler.forward_all server klaviyo_client contacts 0 0 w)
             = Ok (0, Z.of_nat (List.length contacts))).
  { intros contacts. apply (forward_all_uniform false contacts).
    intros contact w0. now apply process_contact_during_outage. }
  split; [exact Hloop|]. intros Hfit.
  destruct (run_daily_sync_tally today target_date w Hfit)
    as (contacts & counts & result & Hfwd & Hrun & Hcontacts & Hs & Hf).
  rewrite Hloop in Hfwd.
  inversion Hfwd; subst counts. cbn [fst snd] in Hs, Hf.
  destruct (run_daily_sync_outcome server klaviyo_client max_variable_number
              today target_date w Hfit)
    as (result' & w' & _ & _ & Hrun' & _ & Ht & _).
  rewrite Hrun' in Hrun. cbn [fst] in Hrun. inversion Hrun; subst result'.
  exists result, w'. split; [exact Hrun'|]. split; [exact Hs|]. split; [lia|].
  split; [rewrite Ht; apply update_processed_ids|].
  unfold Database.get_unprocessed_intentions. rewrite Ht.
  now rewrite (nothing_left (Some (effective_date today target_date)) _ (table w)
                 (selected_ids_cover (Some (effective_date today target_date)) (table w))).
Qed.

(** X27. When the downstream answers every request with 429, the
    forwarding loop counts every contact as forwarded and none as failed,
    although no request was accepted. A run on a day with no more records
    than SQLite takes parameters returns that tally, keeps every row and
    leaves no unprocessed record of the day behind. *)
Theorem run_under_rate_limit today target_date w :
  always_rate_limited server ->
  (forall contacts,
     fst (Scheduler.forward_all server klaviyo_client contacts 0 0 w)
     = Ok (Z.of_nat (List.length contacts), 0)) /\
  ((day_size (effective_date today target_date) w <= max_variable_number)%nat ->
   exists result w',
     Scheduler.run_daily_sync server klaviyo_client max_variable_number today target_date w
     = (Ok result, w') /\
     Scheduler.failed result = 0 /\
     Scheduler.success result = Scheduler.contacts_processed result /\
     map Row.id (table w') = map Row.id (table w) /\
     Database.get_unprocessed_intentions (Some (effective_date today target_date)) w'
     = (Ok [], w')).
Proof.
  intros Hlimited.
  assert (Hloop : forall contacts,
             fst (Scheduler.forward_all server klaviyo_client contacts 0 0 w)
             = Ok (Z.of_nat (List.length contacts), 0)).
  { intros contacts. apply (forward_all_uniform true contacts).
    intros contact w0. now apply process_contact_under_rate_limit. }
  split; [exact Hloop|]. intros Hfit.
  destruct (run_daily_sync_tally today target_date w Hfit)
    as (contacts & counts & result & Hfwd & Hrun & Hcontacts & Hs & Hf).
  rewrite Hloop in Hfwd.
  inversion Hfwd; subst counts. cbn [fst snd] in Hs, Hf.
  destruct (run_daily_sync_outcome server klaviyo_client max_variable_number
              today target_date w Hfit)
    as (result' & w' & _ & _ & Hrun' & _ & Ht & _).
  rewrite Hrun' in Hrun. cbn [fst] in Hrun. inversion Hrun; subst result'.
  exists result, w'. split; [exact Hrun'|]. split; [exact Hf|]. split; [lia|].
  split; [rewrite Ht; apply update_processed_ids|].
  unfold Database.get_unprocessed_intentions. rewrite Ht.
  now rewrite (nothing_left (Some (effective_date today target_date)) _ (table w)
                 (selected_ids_cover (Some (effective_date today target_date)) (table w))).
Qed.

End Tally.

Lemma run_during_outage_witness :
  exists result w',
    Scheduler.run_daily_sync Fixtures.unreachable_server Fixtures.extended_client
                             Fixtures.sqlite_limit 2 None
                             Fixtures.sample_world = (Ok result, w') /\
    Scheduler.success result = 0 /\
    Scheduler.failed result = Scheduler.contacts_processed result /\
    map Row.id (table w') = map Row.id (table Fixtures.sample_world) /\
    Database.get_unprocessed_intentions (Some (effective_date 2 None)) w' = (Ok [], w').
Proof.
  destruct (run_during_outage Fixtures.unreachable_server Fixtures.extended_client
              Fixtures.sqlite_limit 2 None Fixtures.sample_world) as [_ Hrun].
  - intros history req. reflexivity.
  - apply Hrun. apply Nat.leb_le. reflexivity.
Defined.

Lemma run_under_rate_limit_witness :
  exists result w',
    Scheduler.run_daily_sync Fixtures.rate_limiting_server Fixtures.extended_client
                             Fixtures.sqlite_limit 2 None
                             Fixtures.sample_world = (Ok result, w') /\
    Scheduler.failed result = 0 /\
    Scheduler.success result = Scheduler.contacts_processed result /\
    map Row.id (table w') = map Row.id (table Fixtures.sample_world) /\
    Database.get_unprocessed_intentions (Some (effective_date 2 None)) w' = (Ok [], w').
Proof.
  destruct (run_under_rate_limit Fixtures.rate_limiting_server Fixtures.extended_client
              Fixtures.sqlite_limit 2 None Fixtures.sample_world) as [_ Hrun].
  - intros history req. eexists. split; [reflexivity|]. split; [reflexivity|discriminate].
  - apply Hrun. apply Nat.leb_le. reflexivity.
Defined.

(** ** Further properties: a body that is JSON but not an object *)

Section NonObjectBody.

Variable webhook_secret : string.
Variable hmac_sha256_hexdigest : string -> string -> string.
Variable json_loads : string -> Webhook.Loaded.
Variable model_validate : Json.t -> option Webhook.SalonhubWebhookPayload.
Variable json_dumps : Json.t -> string.

(** X28. A body that passes the signature check and parses as JSON, but
    is neither an object nor null and is rejected by the model, is not
    answered 400 or "ignored": building the raw-only payload raises, and
    the exception leaves the route with the world unchanged. The same
    body as an object or as null is answered "ignored" when no email can
    be found. *)
Theorem webhook_non_object_body_raises now raw_body signature w raw_json :
  Webhook.verify_signature webhook_secret hmac_sha256_hexdigest raw_body signature = Ok true ->
  json_loads raw_body = Webhook.Parsed raw_json ->
  model_validate raw_json = None ->
  ((forall d, raw_json <> Json.JDict d) -> raw_json <> Json.JNull ->
   Webhook.receive_salonhub_webhook webhook_secret hmac_sha256_hexdigest json_loads
                                    model_validate json_dumps
                                    now raw_body signature w = (Raise ValueError, w)) /\
  (raw_json = Json.JNull \/
   ((exists d, raw_json = Json.JDict d) /\ Webhook._extract_email_from_raw raw_json = None) ->
   Webhook.receive_salonhub_webhook webhook_secret hmac_sha256_hexdigest json_loads
                                    model_validate json_dumps
                                    now raw_body signature w = (Ok Webhook.Ignored, w)).
Proof.
  intros Hvalid Hload Hmodel.
  unfold Webhook.receive_salonhub_webhook. unfold bind at 1. unfold lift at 1.
  rewrite Hvalid. cbn [negb]. rewrite Hload, Hmodel. split.
  - intros Hnot_dict Hnot_null.
    destruct raw_json as [ | b | q | s | l | d]; try reflexivity.
    + congruence.
    + exfalso. exact (Hnot_dict d eq_refl).
  - intros [->|[[d ->] Hnone]]; [reflexivity|].
    unfold bind at 1. unfold lift at 1. cbn [Webhook.raw_only].
    unfold Webhook.find_email. cbn [Webhook.customer PyStr.truthy_opt negb].
    now rewrite Hnone.
Qed.

End NonObjectBody.

Lemma webhook_non_object_body_raises_witness :
  Webhook.receive_salonhub_webhook "" MoreFixtures.fixed_digest MoreFixtures.array_parser
    MoreFixtures.strict_model MoreFixtures.marking_dumps
    86400 "[1]" None Fixtures.sample_world
  = (Raise ValueError, Fixtures.sample_world).
Proof.
  apply (proj1 (webhook_non_object_body_raises "" MoreFixtures.fixed_digest
                  MoreFixtures.array_parser MoreFixtures.strict_model
                  MoreFixtures.marking_dumps 86400 "[1]" None Fixtures.sample_world
                  (Json.JList [Json.JNum 1]) eq_refl eq_refl eq_refl)).
  - intros d. discriminate.
  - discriminate.
Defined.
